(** * Baggage propagation across an AMQP hop and an HTTP hop

    A shallow embedding of the three programs of the repository:

    - the publisher ([connectWithRetry], [publishMessageWithBaggage],
      [publishMessages]),
    - the consumer ([consumeMessages]' delivery callback, [processMessage],
      [callApiService]),
    - the API service (the [/process] route).

    Asynchronous code is written in a monad [M] with state, exceptions
    and a log: the state is a [World] (the clock, the counters of the calls
    made to the broker, the [let connection; let channel;] variables of the
    running entry point), and the log is the sequence of observable events
    of the computation (console lines, sleeps, broker and HTTP operations,
    ack and nack).  What the outside world answers is given by oracles: a
    [Broker] for the calls made on the connection and the channel, each of
    which may fail, and a function from requests to [HttpOutcome] for the
    downstream service, which may answer, fail or stay silent. *)

From Stdlib Require Import ZArith String Ascii List Lia DecimalString DecimalZ.
From stdpp Require Import base option gmap strings list fin_maps.

Set Warnings "-register-all".
Open Scope Z_scope.

(** ** JavaScript values, as [JSON.parse] builds them *)

Module Js.

(** A number written as a plain integer is kept as that integer; a literal
    with a fraction or an exponent is kept as its text (the program does no
    arithmetic on message fields).  The engine differs where a value that
    was read is written again: it rounds an integer beyond 2^53 to a
    double, writes [1e2] as [100], lists the index-like keys of an object
    first and joins the two halves of an escaped surrogate pair.  None of
    this is modelled; what is proved about the text written for a value
    that was read is stated for the values of [JsonText.plain], or for the
    messages of the publisher. *)
Inductive JsValue : Type :=
| JNull
| JBool (b : bool)
| JNumber (n : Z)
| JDecimal (literal : string)
| JString (s : string)
| JArray (items : list JsValue)
| JObject (props : list (string * JsValue)).

Definition JsValue_is_null (v : JsValue) : bool :=
  match v with JNull => true | _ => false end.

(** [Number.prototype.toString] on an integer. *)
Definition Number_toString (n : Z) : string :=
  NilZero.string_of_int (Z.to_int n).

Definition code (c : ascii) : N := N_of_ascii c.

Definition dquote : ascii := ascii_of_N 34.
Definition backslash : ascii := ascii_of_N 92.

Definition hex_char (d : N) : ascii :=
  if (d <? 10)%N then ascii_of_N (48 + d) else ascii_of_N (87 + d).

(** The escape [JSON.stringify] writes for one character of a string. *)
Definition escape_char (c : ascii) : string :=
  let n := code c in
  if (n =? 34)%N then String backslash (String dquote EmptyString)
  else if (n =? 92)%N then String backslash (String backslash EmptyString)
  else if (n =? 8)%N then String backslash "b"
  else if (n =? 12)%N then String backslash "f"
  else if (n =? 10)%N then String backslash "n"
  else if (n =? 13)%N then String backslash "r"
  else if (n =? 9)%N then String backslash "t"
  else if (n <? 32)%N then
    String backslash ("u00" +:+ String (hex_char (n / 16)) (String (hex_char (n mod 16)) EmptyString))
  else String c EmptyString.

Fixpoint escape (s : string) : string :=
  match s with
  | EmptyString => EmptyString
  | String c rest => escape_char c +:+ escape rest
  end.

Definition quote (s : string) : string :=
  String dquote (escape s +:+ String dquote EmptyString).

Fixpoint join (sep : string) (parts : list string) : string :=
  match parts with
  | [] => EmptyString
  | [p] => p
  | p :: rest => p +:+ sep +:+ join sep rest
  end.

(** [JSON.stringify] without indentation.  Properties are written in the
    order of the object. *)
Fixpoint JSON_stringify (v : JsValue) : string :=
  match v with
  | JNull => "null"
  | JBool true => "true"
  | JBool false => "false"
  | JNumber n => Number_toString n
  | JDecimal literal => literal
  | JString s => quote s
  | JArray items => "[" +:+ join "," (List.map JSON_stringify items) +:+ "]"
  | JObject props =>
      "{" +:+ join "," (List.map (fun kv => quote (fst kv) +:+ ":" +:+ JSON_stringify (snd kv)) props) +:+ "}"
  end.

(** *** The lexer of [JSON.parse]: one character at a time *)

Inductive Token : Type :=
| TLBrace | TRBrace | TLBracket | TRBracket | TColon | TComma
| TString (s : string)
| TValue (v : JsValue).

Inductive LexState : Type :=
| LDefault
| LStr (acc : list ascii)
| LStrEsc (acc : list ascii)
| LStrU (acc : list ascii) (digits : list N)
| LNum (acc : list ascii)
| LWord (acc : list ascii).

Definition string_of_rev (acc : list ascii) : string :=
  string_of_list_ascii (List.rev acc).

Definition is_ws (c : ascii) : bool :=
  let n := code c in
  (n =? 32)%N || (n =? 9)%N || (n =? 10)%N || (n =? 13)%N.

Definition is_digit (c : ascii) : bool :=
  let n := code c in (48 <=? n)%N && (n <=? 57)%N.

Definition is_lower (c : ascii) : bool :=
  let n := code c in (97 <=? n)%N && (n <=? 122)%N.

(** Characters a number literal is made of. *)
Definition is_num_char (c : ascii) : bool :=
  let n := code c in
  is_digit c || (n =? 43)%N || (n =? 45)%N || (n =? 46)%N || (n =? 69)%N || (n =? 101)%N.

Definition hex_value (c : ascii) : option N :=
  let n := code c in
  if is_digit c then Some (n - 48)%N
  else if (97 <=? n)%N && (n <=? 102)%N then Some (n - 87)%N
  else if (65 <=? n)%N && (n <=? 70)%N then Some (n - 55)%N
  else None.

(** The UTF-8 bytes of one UTF-16 code unit (strings are kept as bytes; a
    surrogate pair is not recombined). *)
Definition utf8 (u : N) : list ascii :=
  if (u <? 128)%N then [ascii_of_N u]
  else if (u <? 2048)%N then [ascii_of_N (192 + u / 64); ascii_of_N (128 + u mod 64)]
  else [ascii_of_N (224 + u / 4096); ascii_of_N (128 + (u / 64) mod 64); ascii_of_N (128 + u mod 64)].

Definition simple_escape (c : ascii) : option ascii :=
  let n := code c in
  if (n =? 34)%N then Some dquote
  else if (n =? 92)%N then Some backslash
  else if (n =? 47)%N then Some (ascii_of_N 47)
  else if (n =? 98)%N then Some (ascii_of_N 8)
  else if (n =? 102)%N then Some (ascii_of_N 12)
  else if (n =? 110)%N then Some (ascii_of_N 10)
  else if (n =? 114)%N then Some (ascii_of_N 13)
  else if (n =? 116)%N then Some (ascii_of_N 9)
  else None.

Fixpoint span_digits (cs : list ascii) : list ascii * list ascii :=
  match cs with
  | c :: rest =>
      if is_digit c then let '(ds, r) := span_digits rest in (c :: ds, r) else ([], cs)
  | [] => ([], [])
  end.

Definition digits_value (ds : list ascii) : Z :=
  fold_left (fun acc c => 10 * acc + Z.of_N (code c - 48)) ds 0.

(** The integer part of a number: [0], or digits that do not start with 0. *)
Definition int_part_ok (ds : list ascii) : bool :=
  match ds with
  | [] => false
  | [_] => true
  | d :: _ => negb (code d =? 48)%N
  end.

Definition frac_part (cs : list ascii) : option (bool * list ascii) :=
  match cs with
  | c :: rest =>
      if (code c =? 46)%N then
        match span_digits rest with
        | ([], _) => None
        | (_, r) => Some (true, r)
        end
      else Some (false, cs)
  | [] => Some (false, [])
  end.

Definition exp_part (cs : list ascii) : option (bool * list ascii) :=
  match cs with
  | c :: rest =>
      if (code c =? 101)%N || (code c =? 69)%N then
        let rest' :=
          match rest with
          | s :: r => if (code s =? 43)%N || (code s =? 45)%N then r else rest
          | [] => rest
          end in
        match span_digits rest' with
        | ([], _) => None
        | (_, r) => Some (true, r)
        end
      else Some (false, cs)
  | [] => Some (false, [])
  end.

(** A number literal: [-? int frac? exp?]. *)
Definition number_of_literal (cs : list ascii) : option JsValue :=
  let '(neg, body) :=
    match cs with
    | c :: rest => if (code c =? 45)%N then (true, rest) else (false, cs)
    | [] => (false, cs)
    end in
  let '(ds, r1) := span_digits body in
  if int_part_ok ds then
    match frac_part r1 with
    | Some (has_frac, r2) =>
        match exp_part r2 with
        | Some (has_exp, []) =>
            if has_frac || has_exp then Some (JDecimal (string_of_list_ascii cs))
            else Some (JNumber (if neg then - digits_value ds else digits_value ds))
        | _ => None
        end
    | None => None
    end
  else None.

Definition word_value (w : string) : option JsValue :=
  if String.eqb w "true" then Some (JBool true)
  else if String.eqb w "false" then Some (JBool false)
  else if String.eqb w "null" then Some JNull
  else None.

(** A character read outside of any token. *)
Definition lex_default (c : ascii) : option (list Token * LexState) :=
  let n := code c in
  if is_ws c then Some ([], LDefault)
  else if (n =? 123)%N then Some ([TLBrace], LDefault)
  else if (n =? 125)%N then Some ([TRBrace], LDefault)
  else if (n =? 91)%N then Some ([TLBracket], LDefault)
  else if (n =? 93)%N then Some ([TRBracket], LDefault)
  else if (n =? 58)%N then Some ([TColon], LDefault)
  else if (n =? 44)%N then Some ([TComma], LDefault)
  else if (n =? 34)%N then Some ([], LStr [])
  else if is_digit c || (n =? 45)%N then Some ([], LNum [c])
  else if is_lower c then Some ([], LWord [c])
  else None.

Definition lex_step (st : LexState) (c : ascii) : option (list Token * LexState) :=
  match st with
  | LDefault => lex_default c
  | LStr acc =>
      if (code c =? 34)%N then Some ([TString (string_of_rev acc)], LDefault)
      else if (code c =? 92)%N then Some ([], LStrEsc acc)
      else if (code c <? 32)%N then None
      else Some ([], LStr (c :: acc))
  | LStrEsc acc =>
      match simple_escape c with
      | Some e => Some ([], LStr (e :: acc))
      | None => if (code c =? 117)%N then Some ([], LStrU acc []) else None
      end
  | LStrU acc ds =>
      match hex_value c with
      | Some d =>
          match ds with
          | [d1; d2; d3] =>
              Some ([], LStr (List.rev (utf8 (((d1 * 16 + d2) * 16 + d3) * 16 + d)) ++ acc))
          | _ => Some ([], LStrU acc (ds ++ [d]))
          end
      | None => None
      end
  | LNum acc =>
      if is_num_char c then Some ([], LNum (c :: acc))
      else
        match number_of_literal (List.rev acc), lex_default c with
        | Some v, Some (toks, st') => Some (TValue v :: toks, st')
        | _, _ => None
        end
  | LWord acc =>
      if is_lower c then Some ([], LWord (c :: acc))
      else
        match word_value (string_of_rev acc), lex_default c with
        | Some v, Some (toks, st') => Some (TValue v :: toks, st')
        | _, _ => None
        end
  end.

(** What is left open when the input ends. *)
Definition lex_end (st : LexState) : option (list Token) :=
  match st with
  | LDefault => Some []
  | LNum acc => v ← number_of_literal (List.rev acc); Some [TValue v]
  | LWord acc => v ← word_value (string_of_rev acc); Some [TValue v]
  | LStr _ | LStrEsc _ | LStrU _ _ => None
  end.

Fixpoint lex (st : LexState) (s : string) : option (list Token) :=
  match s with
  | EmptyString => lex_end st
  | String c rest =>
      match lex_step st c with
      | Some (toks, st') => more ← lex st' rest; Some (toks ++ more)
      | None => None
      end
  end.

(** *** The parser of [JSON.parse]: a stack of open arrays and objects *)

Inductive Frame : Type :=
| InArray (done : list JsValue)
| InObject (props : list (string * JsValue)) (key : string).

Inductive Expect : Type :=
| EValue
| EValueOrClose
| EKeyOrClose
| EKey
| EColon (key : string)
| ESep
| EDone (v : JsValue).

(** [obj[k] = v]: a repeated key keeps its place and takes the last value. *)
Fixpoint obj_set (props : list (string * JsValue)) (k : string) (v : JsValue)
  : list (string * JsValue) :=
  match props with
  | [] => [(k, v)]
  | (k', v') :: rest =>
      if String.eqb k' k then (k', v) :: rest else (k', v') :: obj_set rest k v
  end.

(** A value is complete: it goes into the innermost open container. *)
Definition close_value (stack : list Frame) (v : JsValue) : list Frame * Expect :=
  match stack with
  | [] => ([], EDone v)
  | InArray done :: up => (InArray (v :: done) :: up, ESep)
  | InObject props key :: up => (InObject (obj_set props key v) key :: up, ESep)
  end.

Definition open_value (stack : list Frame) (t : Token) : option (list Frame * Expect) :=
  match t with
  | TString s => Some (close_value stack (JString s))
  | TValue v => Some (close_value stack v)
  | TLBracket => Some (InArray [] :: stack, EValueOrClose)
  | TLBrace => Some (InObject [] EmptyString :: stack, EKeyOrClose)
  | _ => None
  end.

Definition parse_step (stack : list Frame) (e : Expect) (t : Token)
  : option (list Frame * Expect) :=
  match e, t, stack with
  | EValue, _, _ => open_value stack t
  | EValueOrClose, TRBracket, InArray done :: up => Some (close_value up (JArray (List.rev done)))
  | EValueOrClose, _, _ => open_value stack t
  | EKeyOrClose, TRBrace, InObject props _ :: up => Some (close_value up (JObject props))
  | EKeyOrClose, TString k, _ => Some (stack, EColon k)
  | EKey, TString k, _ => Some (stack, EColon k)
  | EColon k, TColon, InObject props _ :: up => Some (InObject props k :: up, EValue)
  | ESep, TComma, InArray _ :: _ => Some (stack, EValue)
  | ESep, TComma, InObject _ _ :: _ => Some (stack, EKey)
  | ESep, TRBracket, InArray done :: up => Some (close_value up (JArray (List.rev done)))
  | ESep, TRBrace, InObject props _ :: up => Some (close_value up (JObject props))
  | _, _, _ => None
  end.

Fixpoint parse_tokens (stack : list Frame) (e : Expect) (ts : list Token) : option JsValue :=
  match ts with
  | [] => match e, stack with EDone v, [] => Some v | _, _ => None end
  | t :: rest =>
      match parse_step stack e t with
      | Some (stack', e') => parse_tokens stack' e' rest
      | None => None
      end
  end.

(** [JSON.parse]: [None] stands for the [SyntaxError] it throws. *)
Definition JSON_parse (s : string) : option JsValue :=
  ts ← lex LDefault s; parse_tokens [] EValue ts.

(** [v.k] on a non-null value: an own property of an object, [undefined]
    ([None]) otherwise.  (The keys the program reads, [id], [timestamp],
    [data] and [messageId], are not on any prototype.) *)
Definition get_prop (v : JsValue) (k : string) : option JsValue :=
  match v with
  | JObject props => snd <$> List.find (fun kv => String.eqb (fst kv) k) props
  | _ => None
  end.

(** An object literal [{k1: e1, ...}] as [JSON.stringify] sees it: a
    property whose value is [undefined] is left out. *)
Definition object_literal (fields : list (string * option JsValue)) : JsValue :=
  JObject (omap (fun kv => v ← snd kv; Some (fst kv, v)) fields).

(** Whether [`${v}`] gives a string, for a value [JSON.parse] has built.
    The conversion of an object calls its [toString]; an object with a
    property of that name has a value there that is no function, its
    [valueOf] gives no primitive, and the conversion throws a [TypeError].
    An array converts each element that is not [null]. *)
Fixpoint converts_to_string (v : JsValue) : bool :=
  match v with
  | JObject props => negb (existsb (fun kv => String.eqb (fst kv) "toString") props)
  | JArray items => forallb converts_to_string items
  | _ => true
  end.

End Js.

(** ** Clock readings and [Date.prototype.toISOString] *)

Module JsDate.

Definition digit_char (d : Z) : ascii := ascii_of_N (48 + Z.to_N (d mod 10)).

(** The last [width] decimal digits of [n], most significant first. *)
Fixpoint fixed_digits (width : nat) (n : Z) : string :=
  match width with
  | O => EmptyString
  | S w => String (digit_char (n / 10 ^ Z.of_nat w)) (fixed_digits w n)
  end.

(** Year, month and day of a day count since 1970-01-01 (proleptic
    Gregorian calendar). *)
Definition civil_from_days (days : Z) : Z * Z * Z :=
  let z := days + 719468 in
  let era := z / 146097 in
  let doe := z - era * 146097 in
  let yoe := (doe - doe / 1460 + doe / 36524 - doe / 146096) / 365 in
  let doy := doe - (365 * yoe + yoe / 4 - yoe / 100) in
  let mp := (5 * doy + 2) / 153 in
  let d := doy - (153 * mp + 2) / 5 + 1 in
  let m := if mp <? 10 then mp + 3 else mp - 9 in
  let y := yoe + era * 400 + (if m <=? 2 then 1 else 0) in
  (y, m, d).

(** Years 0 to 9999 take four digits, the others a sign and six. *)
Definition year_digits (y : Z) : string :=
  if (0 <=? y) && (y <=? 9999) then fixed_digits 4 y
  else (if y <? 0 then "-" else "+") +:+ fixed_digits 6 (Z.abs y).

(** [new Date(ms).toISOString()], [ms] being milliseconds since the epoch. *)
Definition toISOString (ms : Z) : string :=
  let days := ms / 86400000 in
  let rest := ms mod 86400000 in
  let '(y, m, d) := civil_from_days days in
  year_digits y +:+ "-" +:+ fixed_digits 2 m +:+ "-" +:+ fixed_digits 2 d +:+ "T"
  +:+ fixed_digits 2 (rest / 3600000) +:+ ":" +:+ fixed_digits 2 ((rest / 60000) mod 60)
  +:+ ":" +:+ fixed_digits 2 ((rest / 1000) mod 60) +:+ "." +:+ fixed_digits 3 (rest mod 1000)
  +:+ "Z".

Definition all_digits (s : string) : bool :=
  forallb Js.is_digit (list_ascii_of_string s).

(** Splits [s] after its first [n] characters. *)
Fixpoint split_at (n : nat) (s : string) : option (string * string) :=
  match n, s with
  | O, _ => Some (EmptyString, s)
  | S n', String c rest => p ← split_at n' rest; Some (String c (fst p), snd p)
  | S _, EmptyString => None
  end.

(** [MM-DDTHH:mm:ss.sssZ], what follows the year and its dash. *)
Definition is_iso_tail (s : string) : bool :=
  match split_at 2 s with
  | Some (mo, String "-" s1) =>
    match split_at 2 s1 with
    | Some (dd, String "T" s2) =>
      match split_at 2 s2 with
      | Some (hh, String ":" s3) =>
        match split_at 2 s3 with
        | Some (mi, String ":" s4) =>
          match split_at 2 s4 with
          | Some (ss, String "." s5) =>
            match split_at 3 s5 with
            | Some (mmm, String "Z" EmptyString) =>
                all_digits mo && all_digits dd && all_digits hh && all_digits mi
                && all_digits ss && all_digits mmm
            | _ => false
            end
          | _ => false
          end
        | _ => false
        end
      | _ => false
      end
    | _ => false
    end
  | _ => false
  end.

(** The ISO-8601 date-time forms of ECMAScript: [YYYY-MM-DDTHH:mm:ss.sssZ]
    and the expanded-year form [(+|-)YYYYYY-MM-DDTHH:mm:ss.sssZ]. *)
Definition is_iso8601 (s : string) : bool :=
  match s with
  | String c rest =>
      if Js.is_digit c then
        match split_at 4 s with
        | Some (y, String "-" tail) => all_digits y && is_iso_tail tail
        | _ => false
        end
      else if ((Js.code c =? 43) || (Js.code c =? 45))%N then
        match split_at 6 rest with
        | Some (y, String "-" tail) => all_digits y && is_iso_tail tail
        | _ => false
        end
      else false
  | EmptyString => false
  end.

End JsDate.

(** ** The OpenTelemetry API the programs call *)

Module Otel.

Record SpanContext : Type := { traceId : string; spanId : string }.

(** A context holds at most one baggage (entry name to entry value) and at
    most one span.  Contexts are values: setting the baggage gives a new
    context. *)
Record Context : Type := {
  ctx_baggage : option (gmap string string);
  ctx_span : option SpanContext
}.

Definition ROOT_CONTEXT : Context := {| ctx_baggage := None; ctx_span := None |}.

Definition getBaggage (c : Context) : option (gmap string string) := ctx_baggage c.

Definition setBaggage (c : Context) (b : gmap string string) : Context :=
  {| ctx_baggage := Some b; ctx_span := ctx_span c |}.

Definition createBaggage : gmap string string := ∅.

Definition setEntry (b : gmap string string) (key value : string) : gmap string string :=
  <[key := value]> b.

Definition getEntry (b : gmap string string) (key : string) : option string := b !! key.

Definition getAllEntries (b : gmap string string) : list (string * string) := map_to_list b.

Definition getSpan (c : Context) : option SpanContext := ctx_span c.

(** The baggage entries of a context, none when it has no baggage. *)
Definition entries (c : Context) : gmap string string := default ∅ (ctx_baggage c).

(** *** The carrier codec *)

(** Modelled from the spec: the prefix of the carrier keys of baggage
    entries and the well-known keys of the trace reference (section 4.1
    leaves their spelling to the implementation). *)
Definition BAGGAGE_PREFIX : string := "baggage-".
Definition TRACE_ID_KEY : string := "trace-id".
Definition SPAN_ID_KEY : string := "span-id".

Fixpoint strip_prefix (p s : string) : option string :=
  match p, s with
  | EmptyString, _ => Some s
  | String a p', String b s' => if Ascii.eqb a b then strip_prefix p' s' else None
  | String _ _, EmptyString => None
  end.

(** Modelled from the spec: the carrier entries of the trace reference. *)
Definition trace_fields (c : Context) : gmap string string :=
  match ctx_span c with
  | Some sc => <[TRACE_ID_KEY := traceId sc]> (<[SPAN_ID_KEY := spanId sc]> ∅)
  | None => ∅
  end.

(** Modelled from the spec: the propagator behind [api.propagation.inject]
    is registered outside the sources, so [encode] follows section 4.1: one
    carrier key per baggage entry under a fixed prefix, and the fields of the
    trace reference under well-known keys. *)
Definition encode (c : Context) : gmap string string :=
  kmap (M2 := gmap string) (String.append BAGGAGE_PREFIX) (entries c) ∪ trace_fields c.

(** Modelled from the spec: a carrier entry read back as a baggage entry,
    [None] for a key without the prefix. *)
Definition decode_entry (kv : string * string) : option (string * string) :=
  k ← strip_prefix BAGGAGE_PREFIX (fst kv); Some (k, snd kv).

Definition decode_baggage (carrier : gmap string string) : gmap string string :=
  list_to_map (omap decode_entry (map_to_list carrier)).

(** Modelled from the spec: the extraction the instrumentation performs on
    an incoming carrier is not in the sources, so [decode] follows section
    4.1: the inverse of [encode]; keys it does not know are ignored, and a
    carrier without propagation keys gives the empty context. *)
Definition decode (carrier : gmap string string) : Context :=
  let b := decode_baggage carrier in
  {| ctx_baggage := if decide (b = ∅) then None else Some b;
     ctx_span :=
       t ← carrier !! TRACE_ID_KEY; s ← carrier !! SPAN_ID_KEY;
       Some {| traceId := t; spanId := s |} |}.

(** [api.propagation.inject(context, carrier)] writes the encoded context
    into the carrier object. *)
Definition inject (c : Context) (carrier : gmap string string) : gmap string string :=
  encode c ∪ carrier.

End Otel.

(** ** Effects: the world, events and the monad *)

Module Eff.
Import Js Otel.

Record JsError : Type := { err_name : string; err_message : string }.

Definition Error (message : string) : JsError :=
  {| err_name := "Error"; err_message := message |}.

Definition TypeError (message : string) : JsError :=
  {| err_name := "TypeError"; err_message := message |}.

(** The [SyntaxError] of [JSON.parse]; the engine's wording is not modelled,
    the message holds the rejected text. *)
Definition SyntaxError (input : string) : JsError :=
  {| err_name := "SyntaxError"; err_message := input |}.

(** [`${error}`] *)
Definition Error_toString (e : JsError) : string :=
  err_name e +:+ ": " +:+ err_message e.

(** A connection remembers which call of [amqp.connect] opened it. *)
Inductive Connection : Type := Conn (attempt : nat).
Inductive Channel : Type := Chan (connection : Connection).

(** The options object given to [http.request]; [headers] is [None] when
    the object has no such property. *)
Record RequestOptions : Type := {
  hostname : string;
  port : string;
  path : string;
  method : string;
  headers : option (gmap string string)
}.

Inductive LogArg : Type :=
| AStr (s : string)
| ANum (n : Z)
| AQuot (n d : Z)
| AJson (v : JsValue)
| AErr (e : JsError).

Inductive Level : Type := Log | Err.

(** A console line is kept as the template of the source and the values
    interpolated into it, in order. *)
Inductive Event : Type :=
| Console (level : Level) (template : string) (args : list LogArg)
| Slept (ms : Z)
| Connect (url : string) (attempt : nat)
| CreateChannel
| AssertQueue (queue : string) (durable : bool)
| SendToQueue (queue content : string) (active : Context)
| ConsumeFrom (queue : string)
| ChannelClose
| ConnectionClose
| HttpRequest (options : RequestOptions) (body : string)
| Ack (deliveryTag : Z)
| Nack (deliveryTag : Z) (allUpTo requeue : bool).

Record World : Type := {
  now : Z;
  connects : nat;
  sends : nat;
  connection : option Connection;
  channel : option Channel
}.

(** The world a process starts in, at clock reading [t]. *)
Definition start (t : Z) : World :=
  {| now := t; connects := 0; sends := 0; connection := None; channel := None |}.

(** How a computation ends: it returns, it throws, it ends the process, or
    it waits for ever on a promise that never settles. *)
Inductive Outcome (A : Type) : Type :=
| Return (a : A)
| Throw (e : JsError)
| Exit (code : Z)
| Pending.
Arguments Return {A} a.
Arguments Throw {A} e.
Arguments Exit {A} code.
Arguments Pending {A}.

(** What a computation leaves: how it ended, the world after it, and the
    events it caused, oldest first. *)
Record Result (A : Type) : Type := {
  outcome : Outcome A;
  world : World;
  events : list Event
}.
Arguments outcome {A} r.
Arguments world {A} r.
Arguments events {A} r.

Definition M (A : Type) : Type := World -> Result A.

(** [r], after the events [evs]. *)
Definition after {A} (evs : list Event) (r : Result A) : Result A :=
  {| outcome := outcome r; world := world r; events := evs ++ events r |}.

Definition ret {A} (a : A) : M A :=
  fun w => {| outcome := Return a; world := w; events := [] |}.

Definition bind {A B} (m : M A) (k : A -> M B) : M B :=
  fun w =>
    let r := m w in
    match outcome r with
    | Return a => after (events r) (k a (world r))
    | Throw e => {| outcome := Throw e; world := world r; events := events r |}
    | Exit c => {| outcome := Exit c; world := world r; events := events r |}
    | Pending => {| outcome := Pending; world := world r; events := events r |}
    end.

Definition throw {A} (e : JsError) : M A :=
  fun w => {| outcome := Throw e; world := w; events := [] |}.

(** [process.exit(code)] *)
Definition exit {A} (code : Z) : M A :=
  fun w => {| outcome := Exit code; world := w; events := [] |}.

(** [await] on a promise that nothing settles. *)
Definition never {A} : M A :=
  fun w => {| outcome := Pending; world := w; events := [] |}.

(** [try { body } catch (error) { handler }] *)
Definition try_catch {A} (body : M A) (handler : JsError -> M A) : M A :=
  fun w =>
    let r := body w in
    match outcome r with
    | Throw e => after (events r) (handler e (world r))
    | _ => r
    end.

Definition emit (e : Event) : M unit :=
  fun w => {| outcome := Return tt; world := w; events := [e] |}.

Definition console_log (template : string) (args : list LogArg) : M unit :=
  emit (Console Log template args).

Definition console_error (template : string) (args : list LogArg) : M unit :=
  emit (Console Err template args).

(** [Date.now()] *)
Definition Date_now : M Z := fun w => {| outcome := Return (now w); world := w; events := [] |}.

Definition get_connection : M (option Connection) :=
  fun w => {| outcome := Return (connection w); world := w; events := [] |}.

Definition get_channel : M (option Channel) :=
  fun w => {| outcome := Return (channel w); world := w; events := [] |}.

Definition set_connection (c : Connection) : M unit :=
  fun w =>
    {| outcome := Return tt;
       world := {| now := now w; connects := connects w; sends := sends w;
                   connection := Some c; channel := channel w |};
       events := [] |}.

Definition set_channel (c : Channel) : M unit :=
  fun w =>
    {| outcome := Return tt;
       world := {| now := now w; connects := connects w; sends := sends w;
                   connection := connection w; channel := Some c |};
       events := [] |}.

(** [await sleep(ms)]: the clock moves on by [ms]. *)
Definition sleep (ms : Z) : M unit :=
  fun w =>
    {| outcome := Return tt;
       world := {| now := now w + Z.max 0 ms; connects := connects w; sends := sends w;
                   connection := connection w; channel := channel w |};
       events := [Slept ms] |}.

(** [for (const x of xs) body(x)] *)
Fixpoint for_each {A} (xs : list A) (body : A -> M unit) : M unit :=
  match xs with
  | [] => ret tt
  | x :: rest => bind (body x) (fun _ => for_each rest body)
  end.

(** [for (let i = from; i <= to; i++) body(i)], at most [fuel] rounds. *)
Fixpoint for_upto (fuel : nat) (i upto : Z) (body : Z -> M unit) : M unit :=
  match fuel with
  | O => ret tt
  | S fuel' =>
      if i <=? upto then bind (body i) (fun _ => for_upto fuel' (i + 1) upto body)
      else ret tt
  end.

(** [if (x) body(x)] for an [x] that is an object or [undefined]. *)
Definition when_defined {A} (x : option A) (body : A -> M unit) : M unit :=
  match x with
  | Some a => body a
  | None => ret tt
  end.

(** The exit code of the process once the entry point has settled: the code
    given to [process.exit], and 0 when the event loop just runs empty (the
    entry points end in [.catch(console.error)]). *)
Definition exit_code {A} (o : Outcome A) : Z :=
  match o with
  | Exit c => c
  | _ => 0
  end.

End Eff.

Declare Scope js_scope.
Delimit Scope js_scope with js.
Notation "'let!' x ':=' m 'in' k" := (Eff.bind m (fun x => k))
  (at level 10, x name, m at level 100, k at level 200) : js_scope.
Notation "m ';;' k" := (Eff.bind m (fun _ => k))
  (at level 100, k at level 200, right associativity) : js_scope.

(** ** Configuration and the broker *)

Module Amqp.
Import Js Otel Eff.
Local Open Scope js_scope.

(** [process.env.RABBITMQ_URL || 'amqp://localhost:5672'] and the like,
    with the host and port [new URL('/process', API_SERVICE_URL)] reads off
    the service URL ([api_port] is empty when the URL names no port). *)
Record Config : Type := {
  RABBITMQ_URL : string;
  API_SERVICE_URL : string;
  api_hostname : string;
  api_port : string
}.

Definition default_config : Config :=
  {| RABBITMQ_URL := "amqp://localhost:5672";
     API_SERVICE_URL := "http://localhost:3000";
     api_hostname := "localhost";
     api_port := "3000" |}.

Definition QUEUE_NAME : string := "otel-baggage-demo".

(** What the broker answers, [None] for success and [Some e] for the error
    raised: to the n-th call of [amqp.connect] and to the n-th call of
    [channel.sendToQueue] of the process, and to the calls of
    [connection.createChannel], [channel.assertQueue], [channel.consume],
    [channel.close] and [connection.close]. *)
Record Broker : Type := {
  connect_reply : nat -> option JsError;
  send_reply : nat -> option JsError;
  createChannel_reply : option JsError;
  assertQueue_reply : option JsError;
  consume_reply : option JsError;
  channel_close_reply : option JsError;
  connection_close_reply : option JsError
}.

Section WithBroker.
Variable cfg : Config.
Variable broker : Broker.

(** [await amqp.connect(url)] *)
Definition amqp_connect (url : string) : M Connection :=
  fun w =>
    let n := S (connects w) in
    {| outcome :=
         match connect_reply broker n with
         | None => Return (Conn n)
         | Some e => Throw e
         end;
       world := {| now := now w; connects := n; sends := sends w;
                   connection := connection w; channel := channel w |};
       events := [Connect url n] |}.

(** The promise of a call the broker answers with [reply]. *)
Definition answered (reply : option JsError) : M unit :=
  match reply with
  | None => ret tt
  | Some e => throw e
  end.

(** [await connection.createChannel()] *)
Definition createChannel (c : Connection) : M Channel :=
  emit CreateChannel ;; answered (createChannel_reply broker) ;; ret (Chan c).

(** [await channel.assertQueue(queue, { durable })] *)
Definition assertQueue (ch : Channel) (queue : string) (durable : bool) : M unit :=
  emit (AssertQueue queue durable) ;; answered (assertQueue_reply broker).

(** [await channel.consume(queue, callback)] *)
Definition consume (ch : Channel) (queue : string) : M unit :=
  emit (ConsumeFrom queue) ;; answered (consume_reply broker).

(** [await channel.close()] *)
Definition channel_close (ch : Channel) : M unit :=
  emit ChannelClose ;; answered (channel_close_reply broker).

(** [await connection.close()] *)
Definition connection_close (c : Connection) : M unit :=
  emit ConnectionClose ;; answered (connection_close_reply broker).

(** [await promise.catch(() => { })] *)
Definition catch_ignore (m : M unit) : M unit :=
  try_catch m (fun _ => ret tt).

(** [channel.sendToQueue(queue, Buffer.from(content))], called while
    [active] is the active context (the one the instrumentation injects
    into the message). *)
Definition sendToQueue (ch : Channel) (active : Context) (queue content : string) : M unit :=
  fun w =>
    let n := S (sends w) in
    let w' :=
      {| now := now w; connects := connects w; sends := n;
         connection := connection w; channel := channel w |} in
    match send_reply broker n with
    | None =>
        {| outcome := Return tt; world := w'; events := [SendToQueue queue content active] |}
    | Some e => {| outcome := Throw e; world := w'; events := [] |}
    end.

(** The loop of [connectWithRetry], entered with [attempt]; [fuel] bounds
    the rounds left. *)
Fixpoint connect_loop (fuel : nat) (maxRetries delayMs attempt : Z) : M Connection :=
  match fuel with
  | O => throw (Error "Failed to connect to RabbitMQ")
  | S fuel' =>
      if attempt <=? maxRetries then
        let! r :=
          try_catch
            (console_log
               "Connecting to RabbitMQ at ${RABBITMQ_URL}... (attempt ${attempt}/${maxRetries})"
               [AStr (RABBITMQ_URL cfg); ANum attempt; ANum maxRetries] ;;
             let! connection := amqp_connect (RABBITMQ_URL cfg) in
             console_log "✅ Connected to RabbitMQ successfully!" [] ;;
             ret (Some connection))
            (fun error =>
               if attempt =? maxRetries then throw error
               else
                 console_log "⚠️  Connection failed, retrying in ${delayMs / 1000}s..."
                   [AQuot delayMs 1000] ;;
                 sleep delayMs ;;
                 ret None) in
        match r with
        | Some connection => ret connection
        | None => connect_loop fuel' maxRetries delayMs (attempt + 1)
        end
      else throw (Error "Failed to connect to RabbitMQ")
  end.

(** [connectWithRetry(maxRetries = 10, delayMs = 2000)]: the loop runs for
    [attempt] from 1 to [maxRetries], so [maxRetries] rounds are enough. *)
Definition connectWithRetry (maxRetries delayMs : Z) : M Connection :=
  connect_loop (Z.to_nat maxRetries) maxRetries delayMs 1.

End WithBroker.
End Amqp.

(** ** The publisher *)

Module Publisher.
Import Js JsDate Otel Eff Amqp.
Local Open Scope js_scope.

Section Program.
Variable cfg : Config.
Variable broker : Broker.
(** [api.context.active()] where the publisher runs. *)
Variable active : Context.

(** The [baggageEntries] object of message [messageNumber] built at clock
    reading [t], in the order of its properties. *)
Definition baggageEntries (t messageNumber : Z) : list (string * string) :=
  [ ("user.id", "user-" +:+ Number_toString (1000 + messageNumber));
    ("request.source", "api-gateway");
    ("session.id", "session-" +:+ Number_toString t);
    ("message.number", Number_toString messageNumber) ].

Definition publishMessageWithBaggage (ch : Channel) (messageNumber : Z) : M unit :=
  try_catch
    (let! t := Date_now in
     let entries := baggageEntries t messageNumber in
     let currentBaggage :=
       fold_left (fun b kv => setEntry b (fst kv) (snd kv)) entries
         (default createBaggage (getBaggage active)) in
     let ctxWithBaggage := setBaggage active currentBaggage in
     let! t' := Date_now in
     let message :=
       JObject [ ("id", JNumber messageNumber);
                 ("timestamp", JString (toISOString t'));
                 ("data", JString ("Message " +:+ Number_toString messageNumber)) ] in
     console_log "\n📤 Publishing message ${messageNumber}:" [ANum messageNumber] ;;
     console_log "   Content: ${JSON.stringify(message)}" [AJson message] ;;
     console_log "   Baggage:" [] ;;
     for_each entries
       (fun kv => console_log "     - ${key}: ${value}" [AStr (fst kv); AStr (snd kv)]) ;;
     sendToQueue broker ch ctxWithBaggage QUEUE_NAME (JSON_stringify message) ;;
     console_log "   ✅ Message ${messageNumber} published with trace and baggage"
       [ANum messageNumber])
    (fun error =>
       console_error "Error publishing message ${messageNumber}:" [ANum messageNumber; AErr error] ;;
       throw error).

Definition publishMessages : M unit :=
  try_catch
    (let! connection := connectWithRetry cfg broker 10 2000 in
     set_connection connection ;;
     let! channel := createChannel broker connection in
     set_channel channel ;;
     assertQueue broker channel QUEUE_NAME false ;;
     console_log "Queue '${QUEUE_NAME}' is ready" [AStr QUEUE_NAME] ;;
     for_upto 5 1 5 (fun i => publishMessageWithBaggage channel i ;; sleep 2000) ;;
     console_log "\nAll messages published successfully!" [] ;;
     channel_close broker channel ;;
     connection_close broker connection ;;
     console_log "Connection closed" [])
    (fun error =>
       console_error "Error in publisher:" [AErr error] ;;
       let! channel := get_channel in
       when_defined channel (fun ch => catch_ignore (channel_close broker ch)) ;;
       let! connection := get_connection in
       when_defined connection (fun c => catch_ignore (connection_close broker c)) ;;
       exit 1).

(** The script: [console.log('🚀 Starting AMQP Publisher\n');
    publishMessages().catch(console.error);] *)
Definition main : M unit :=
  console_log "🚀 Starting AMQP Publisher\n" [] ;;
  try_catch publishMessages (fun error => console_error "" [AErr error]).

End Program.
End Publisher.

(** ** The consumer *)

Module Consumer.
Import Js JsDate Otel Eff Amqp.
Local Open Scope js_scope.

(** A delivery: the payload as text ([msg.content.toString()]) and the tag
    that [channel.ack] and [channel.nack] resolve. *)
Record ConsumeMessage : Type := { content : string; deliveryTag : Z }.

(** What comes of an HTTP exchange: an ['error'] event on the request, a
    response whose body has been read to its ['end'], or neither of the
    two, for a service that does not answer (the request has no timeout,
    and nothing else settles the promise of [callApiService]). *)
Inductive HttpOutcome : Type :=
| TransportError (e : JsError)
| Response (statusCode : Z) (body : string)
| NoAnswer.

Section Program.
Variable cfg : Config.
Variable broker : Broker.
(** The downstream service, as seen from the client. *)
Variable server : RequestOptions -> string -> HttpOutcome.

(** [JSON.parse(text)], throwing. *)
Definition JSON_parse_or_throw (text : string) : M JsValue :=
  match JSON_parse text with
  | Some v => ret v
  | None => throw (SyntaxError text)
  end.

(** [v.k]: a [TypeError] on [null]. *)
Definition member (v : JsValue) (k : string) : M (option JsValue) :=
  if JsValue_is_null v then
    throw (TypeError ("Cannot read properties of null (reading '" +:+ k +:+ "')"))
  else ret (get_prop v k).

(** [http.request(options, ...); req.write(postData); req.end()], and
    what comes of the exchange. *)
Definition http_request (options : RequestOptions) (postData : string) : M HttpOutcome :=
  emit (HttpRequest options postData) ;; ret (server options postData).

(** [channel.ack(msg)] and [channel.nack(msg, allUpTo, requeue)], on a
    channel that is open: the calls return. *)
Definition channel_ack (msg : ConsumeMessage) : M unit := emit (Ack (deliveryTag msg)).

Definition channel_nack (msg : ConsumeMessage) (allUpTo requeue : bool) : M unit :=
  emit (Nack (deliveryTag msg) allUpTo requeue).

(** The [headers] object of [callApiService] once the carrier has been
    merged into it. *)
Definition merged_headers (active : Context) (currentBaggage : option (gmap string string))
    (postData : string) : gmap string string :=
  let headers : gmap string string :=
    <["Content-Type" := "application/json"]>
      (<["Content-Length" := Number_toString (Z.of_nat (String.length postData))]> ∅) in
  let carrier : gmap string string := ∅ in
  let contextWithBaggage :=
    match currentBaggage with
    | Some b => setBaggage active b
    | None => active
    end in
  let carrier := inject contextWithBaggage carrier in
  carrier ∪ headers.

(** The [options] object: its [headers] property is commented out in the
    source. *)
Definition request_options : RequestOptions :=
  {| hostname := api_hostname cfg;
     port := if String.eqb (api_port cfg) "" then "3000" else api_port cfg;
     path := "/process";
     method := "POST";
     headers := None |}.

Definition callApiService (active : Context) (messageContent : JsValue)
    (currentBaggage : option (gmap string string)) : M unit :=
  let! id := member messageContent "id" in
  let! timestamp := member messageContent "timestamp" in
  let! data := member messageContent "data" in
  let postData :=
    JSON_stringify
      (object_literal [("messageId", id); ("timestamp", timestamp); ("data", data)]) in
  let headers := merged_headers active currentBaggage postData in
  let options := request_options in
  console_log "   🌐 Calling API service at ${API_SERVICE_URL}/process..."
    [AStr (API_SERVICE_URL cfg)] ;;
  let! outcome := http_request options postData in
  match outcome with
  | Response _ responseData =>
      try_catch
        (let! response := JSON_parse_or_throw responseData in
         console_log "   ✅ API service response: ${JSON.stringify(response)}" [AJson response])
        (fun error => throw (Error ("Failed to parse API response: " +:+ Error_toString error)))
  | TransportError error =>
      console_error "   ❌ API service call failed: ${error.message}" [AStr (err_message error)] ;;
      throw error
  | NoAnswer => never
  end.

Definition processMessage (active : Context) (msg : ConsumeMessage) : M unit :=
  try_catch
    (let! messageContent := JSON_parse_or_throw (content msg) in
     console_log "\n📥 Received message:" [] ;;
     console_log "   Content: ${JSON.stringify(messageContent)}" [AJson messageContent] ;;
     let currentBaggage := getBaggage active in
     let allBaggage :=
       match currentBaggage with
       | Some b => getAllEntries b
       | None => []
       end in
     console_log "   🎒 Extracted Baggage:" [] ;;
     (if (length allBaggage =? 0)%nat then console_log "     ⚠️  No baggage found!" []
      else
        for_each allBaggage
          (fun kv => console_log "     - ${key}: ${entry.value}" [AStr (fst kv); AStr (snd kv)])) ;;
     let userId := b ← currentBaggage; getEntry b "user.id" in
     let requestSource := b ← currentBaggage; getEntry b "request.source" in
     let sessionId := b ← currentBaggage; getEntry b "session.id" in
     when_defined userId
       (fun v => console_log "   👤 User ID from baggage: ${userId.value}" [AStr v]) ;;
     when_defined requestSource
       (fun v => console_log "   🔗 Request source from baggage: ${requestSource.value}" [AStr v]) ;;
     when_defined sessionId
       (fun v => console_log "   🔑 Session ID from baggage: ${sessionId.value}" [AStr v]) ;;
     when_defined (getSpan active)
       (fun spanContext =>
          console_log "   🔍 Trace ID: ${spanContext.traceId}" [AStr (traceId spanContext)] ;;
          console_log "   🔍 Span ID: ${spanContext.spanId}" [AStr (spanId spanContext)]) ;;
     callApiService active messageContent currentBaggage ;;
     console_log "   ✅ Message processed successfully" [] ;;
     channel_ack msg)
    (fun error =>
       console_error "Error processing message:" [AErr error] ;;
       channel_nack msg false true).

(** The callback given to [channel.consume]: the queue client calls it with
    [null] when the consumer is cancelled.  [active] is the context the
    instrumentation has made active for the delivery. *)
Definition on_message (active : Context) (msg : option ConsumeMessage) : M unit :=
  match msg with
  | Some m => processMessage active m
  | None => ret tt
  end.

(** A call whose promise the caller drops: the caller goes on whether the
    promise is fulfilled or stays pending ([processMessage] does not
    reject). *)
Definition not_awaited (m : M unit) : M unit :=
  fun w =>
    let r := m w in
    match outcome r with
    | Pending => {| outcome := Return tt; world := world r; events := events r |}
    | _ => r
    end.

(** [consumeMessages], followed by the deliveries the queue client makes
    once the callback is registered, one after the other; the callback
    does not wait for [processMessage]. *)
Definition consumeMessages (deliveries : list (Context * option ConsumeMessage)) : M unit :=
  try_catch
    (let! connection := connectWithRetry cfg broker 10 2000 in
     set_connection connection ;;
     let! channel := createChannel broker connection in
     set_channel channel ;;
     assertQueue broker channel QUEUE_NAME false ;;
     console_log "Queue '${QUEUE_NAME}' is ready" [AStr QUEUE_NAME] ;;
     console_log "Waiting for messages... (Press Ctrl+C to exit)\n" [] ;;
     consume broker channel QUEUE_NAME)
    (fun error =>
       console_error "Error in consumer:" [AErr error] ;;
       let! channel := get_channel in
       when_defined channel (fun ch => catch_ignore (channel_close broker ch)) ;;
       let! connection := get_connection in
       when_defined connection (fun c => catch_ignore (connection_close broker c)) ;;
       exit 1) ;;
  for_each deliveries (fun d => not_awaited (on_message (fst d) (snd d))).

End Program.
End Consumer.

(** ** The API service *)

Module ApiService.
Import Js JsDate Otel Eff Consumer.
Local Open Scope js_scope.

(** [res.status(status).json(json)] *)
Record HttpResponse : Type := { status : Z; json : JsValue }.

(** [requestData.k] where [requestData = req.body] may be [undefined]. *)
Definition body_member (body : option JsValue) (k : string) : M (option JsValue) :=
  match body with
  | Some v => member v k
  | None => throw (TypeError ("Cannot read properties of undefined (reading '" +:+ k +:+ "')"))
  end.

Definition arg_of (v : option JsValue) : LogArg :=
  match v with
  | Some x => AJson x
  | None => AStr "undefined"
  end.

(** The conversion [`${v}`] of a template literal makes, where [v] is what
    a property access gave: [undefined] is written as such, any other
    value must convert. *)
Definition interpolate (v : option JsValue) : M unit :=
  match v with
  | Some x =>
      if converts_to_string x then ret tt
      else throw (TypeError "Cannot convert object to primitive value")
  | None => ret tt
  end.

(** The handler of [POST /process], run with the context the
    instrumentation extracted from the request headers and with [req.body]
    as the JSON middleware left it. *)
Definition process_route (active : Context) (body : option JsValue) : M HttpResponse :=
  try_catch
    (let requestData := body in
     console_log "\n📨 Received HTTP request:" [] ;;
     let! messageId := body_member requestData "messageId" in
     interpolate messageId ;;
     console_log "   Message ID: ${requestData.messageId}" [arg_of messageId] ;;
     let! data := body_member requestData "data" in
     interpolate data ;;
     console_log "   Data: ${requestData.data}" [arg_of data] ;;
     let currentBaggage := getBaggage active in
     let allBaggage :=
       match currentBaggage with
       | Some b => getAllEntries b
       | None => []
       end in
     console_log "   🎒 Extracted Baggage:" [] ;;
     let! baggageReceived :=
       (if (length allBaggage =? 0)%nat then
          console_log "     ⚠️  No baggage found!" [] ;; ret []
        else
          for_each allBaggage
            (fun kv => console_log "     - ${key}: ${entry.value}" [AStr (fst kv); AStr (snd kv)]) ;;
          ret (fold_left (fun o kv => obj_set o (fst kv) (JString (snd kv))) allBaggage [])) in
     let! messageId' := body_member requestData "messageId" in
     let! t := Date_now in
     let response :=
       object_literal
         [ ("success", Some (JBool true));
           ("messageId", messageId');
           ("processedAt", Some (JString (toISOString t)));
           ("baggageReceived", Some (JObject baggageReceived)) ] in
     console_log "   ✅ Request processed successfully" [] ;;
     ret {| status := 200; json := response |})
    (fun error =>
       console_error "Error processing request:" [AErr error] ;;
       ret {| status := 500; json := JObject [("error", JString "Internal server error")] |}).

(** The routes of the application, in the order they are registered. *)
Definition app (active : Context) (meth route : string) (body : option JsValue)
  : M HttpResponse :=
  if String.eqb meth "GET" && String.eqb route "/health" then
    ret {| status := 200; json := JObject [("status", JString "healthy")] |}
  else if String.eqb meth "POST" && String.eqb route "/process" then
    process_route active body
  else ret {| status := 404; json := JObject [("error", JString "Not found")] |}.

(** The service as the consumer's downstream: the context is extracted
    from the headers of the request ([decode]), [body_parser] stands for
    the JSON middleware that fills [req.body], and the response is written
    as JSON.  [t] is the clock of the service. *)
Definition serve (body_parser : RequestOptions -> string -> option JsValue) (t : Z)
    (options : RequestOptions) (postData : string) : HttpOutcome :=
  let active := decode (default ∅ (headers options)) in
  match outcome (app active (method options) (path options) (body_parser options postData) (start t)) with
  | Return r => Response (status r) (JSON_stringify (json r))
  | Throw e => TransportError e
  | Exit _ => TransportError (Error "socket hang up")
  | Pending => NoAnswer
  end.

End ApiService.

(** ** What is observed of a run *)

Module Obs.
Import Js JsDate Otel Eff Amqp Consumer.

Definition is_console (e : Event) : bool :=
  match e with Console _ _ _ => true | _ => false end.

Definition is_resolution (e : Event) : bool :=
  match e with Ack _ | Nack _ _ _ => true | _ => false end.

Definition is_http_request (e : Event) : bool :=
  match e with HttpRequest _ _ => true | _ => false end.

Definition is_published (e : Event) : bool :=
  match e with SendToQueue _ _ _ => true | _ => false end.

Definition is_connect (e : Event) : bool :=
  match e with Connect _ _ => true | _ => false end.

(** The acks and nacks among the events, in order. *)
Definition resolutions (evs : list Event) : list Event := List.filter is_resolution evs.

(** The requests sent downstream. *)
Definition http_requests (evs : list Event) : list Event := List.filter is_http_request evs.

(** The messages handed to the queue. *)
Definition published (evs : list Event) : list Event := List.filter is_published evs.

(** The calls of [amqp.connect]. *)
Definition connect_attempts (evs : list Event) : list Event := List.filter is_connect evs.


Definition session_id (e : Event) : option string :=
  match e with
  | SendToQueue _ _ active => entries active !! "session.id"
  | _ => None
  end.

(** The body [callApiService] posts for a message content that is not
    [null]. *)
Definition post_data (messageContent : JsValue) : string :=
  JSON_stringify
    (object_literal
       [ ("messageId", get_prop messageContent "id");
         ("timestamp", get_prop messageContent "timestamp");
         ("data", get_prop messageContent "data") ]).

(** The exchanges [callApiService] rejects on: a transport error, or a
    response whose body is not JSON.  The status code plays no part. *)
Definition downstream_fails (o : HttpOutcome) : bool :=
  match o with
  | TransportError _ => true
  | Response _ body => match JSON_parse body with Some _ => false | None => true end
  | NoAnswer => false
  end.

(** How [processMessage] resolves delivery [tag] once its call downstream
    has come to [o]: a nack with requeue when the call is rejected, an ack
    when it is fulfilled, and nothing as long as there is no answer. *)
Definition resolution_of (tag : Z) (o : HttpOutcome) : list Event :=
  match o with
  | NoAnswer => []
  | _ => [if downstream_fails o then Nack tag false true else Ack tag]
  end.

(** The payload has the three fields of a [Message]. *)
Definition has_required_fields (v : JsValue) : bool :=
  match get_prop v "id", get_prop v "timestamp", get_prop v "data" with
  | Some _, Some _, Some _ => true
  | _, _, _ => false
  end.

Section ConnectEvents.
Variable cfg : Config.
Variable maxRetries delayMs : Z.

Definition connecting_line (attempt : Z) : Event :=
  Console Log "Connecting to RabbitMQ at ${RABBITMQ_URL}... (attempt ${attempt}/${maxRetries})"
    [AStr (RABBITMQ_URL cfg); ANum attempt; ANum maxRetries].

(** A refused attempt that is followed by another one: [n] counts the
    calls of [amqp.connect] of the process, [attempt] is the loop's
    variable. *)
Definition refused_round (n : nat) (attempt : Z) : list Event :=
  [ connecting_line attempt;
    Connect (RABBITMQ_URL cfg) n;
    Console Log "⚠️  Connection failed, retrying in ${delayMs / 1000}s..." [AQuot delayMs 1000];
    Slept delayMs ].

(** [k] refused attempts in a row, each followed by the delay. *)
Fixpoint refused_rounds (k : nat) (n : nat) (attempt : Z) : list Event :=
  match k with
  | O => []
  | S k' => refused_round n attempt ++ refused_rounds k' (S n) (attempt + 1)
  end.

Definition accepted_round (n : nat) (attempt : Z) : list Event :=
  [ connecting_line attempt;
    Connect (RABBITMQ_URL cfg) n;
    Console Log "✅ Connected to RabbitMQ successfully!" [] ].

(** The last attempt, refused: no line and no delay follow it. *)
Definition final_refused_round (n : nat) (attempt : Z) : list Event :=
  [ connecting_line attempt; Connect (RABBITMQ_URL cfg) n ].

End ConnectEvents.

(** The broker refuses the calls [from + 1 .. from + k] of [amqp.connect]. *)
Definition refuses (broker : Broker) (from k : nat) : Prop :=
  forall i, (1 <= i <= k)%nat -> connect_reply broker (from + i)%nat <> None.

(** Message [n] as the publisher sends it at clock reading [t]. *)
Definition sent (active : Context) (t n : Z) : Event :=
  SendToQueue QUEUE_NAME
    (JSON_stringify
       (JObject [ ("id", JNumber n);
                  ("timestamp", JString (toISOString t));
                  ("data", JString ("Message " +:+ Number_toString n)) ]))
    (setBaggage active
       (fold_left (fun b kv => setEntry b (fst kv) (snd kv)) (Publisher.baggageEntries t n)
          (default createBaggage (getBaggage active)))).

(** The payload of message [n]: [{id: n, timestamp: ..., data: "Message n"}]
    with an ISO-8601 timestamp. *)
Definition is_payload (n : Z) (text : string) : Prop :=
  exists timestamp,
    JsDate.is_iso8601 timestamp = true /\
    text = JSON_stringify
             (JObject [ ("id", JNumber n);
                        ("timestamp", JString timestamp);
                        ("data", JString ("Message " +:+ Number_toString n)) ]).

(** The three baggage entries of message [n] that do not depend on the
    clock. *)
Definition has_message_baggage (n : Z) (c : Context) : Prop :=
  entries c !! "user.id" = Some ("user-" +:+ Number_toString (1000 + n))
  /\ entries c !! "request.source" = Some "api-gateway"
  /\ entries c !! "message.number" = Some (Number_toString n).

Definition is_message (n : Z) (e : Event) : Prop :=
  exists text c,
    e = SendToQueue QUEUE_NAME text c /\ is_payload n text /\ has_message_baggage n c.

(** [e] is a message with the baggage of message [n], whatever its payload. *)
Definition carries_message_baggage (n : Z) (e : Event) : Prop :=
  exists queue text c, e = SendToQueue queue text c /\ has_message_baggage n c.

(** The lines logged before message [n] goes out at clock reading [t]. *)
Definition publish_lines (t n : Z) : list Event :=
  [ Console Log "\n📤 Publishing message ${messageNumber}:" [ANum n];
    Console Log "   Content: ${JSON.stringify(message)}"
      [AJson (JObject [ ("id", JNumber n);
                        ("timestamp", JString (toISOString t));
                        ("data", JString ("Message " +:+ Number_toString n)) ])];
    Console Log "   Baggage:" [] ]
  ++ List.map (fun kv => Console Log "     - ${key}: ${value}" [AStr (fst kv); AStr (snd kv)])
       (Publisher.baggageEntries t n).

Definition is_console_error (e : Event) : bool :=
  match e with Console Err _ _ => true | _ => false end.

(** What was written with [console.error]. *)
Definition console_errors (evs : list Event) : list Event := List.filter is_console_error evs.

(** The messages [from .. from + count - 1], the first one sent at clock
    reading [t] and each next one 2000 ms after the one before. *)
Fixpoint sent_run (active : Context) (count : nat) (t from : Z) : list Event :=
  match count with
  | O => []
  | S k => sent active t from :: sent_run active k (t + 2000) (from + 1)
  end.

(** *** Predicates on computations *)


Definition quiet (e : Event) : Prop := is_console e = true.

(** [m] only writes console lines. *)
Definition logs_only (m : M unit) : Prop :=
  forall w, outcome (m w) = Return tt /\ world (m w) = w /\ Forall quiet (events (m w)).

(** What the theorems on the consumer look at: how the computation ended,
    its acks and nacks, and its requests. *)
Definition obs {A} (r : Result A) : Outcome A * list Event * list Event :=
  (outcome r, resolutions (events r), http_requests (events r)).

End Obs.

(** ** Brokers, services and deliveries the examples run on *)

Module Examples.
Import Js JsDate Otel Eff Amqp Consumer ApiService.

(** A broker that answers the connections with [connect] and the messages
    with [send], and accepts every other call. *)
Definition broker_of (connect send : nat -> option JsError) : Broker :=
  {| connect_reply := connect;
     send_reply := send;
     createChannel_reply := None;
     assertQueue_reply := None;
     consume_reply := None;
     channel_close_reply := None;
     connection_close_reply := None |}.

(** A broker that accepts every connection and every message. *)
Definition accepting : Broker := broker_of (fun _ => None) (fun _ => None).

Definition ECONNREFUSED : JsError := Error "connect ECONNREFUSED 127.0.0.1:5672".

(** A broker that refuses the first two connections. *)
Definition refusing_twice : Broker :=
  broker_of (fun n => if (n <=? 2)%nat then Some ECONNREFUSED else None) (fun _ => None).

(** A broker that refuses every connection. *)
Definition refusing : Broker := broker_of (fun _ => Some ECONNREFUSED) (fun _ => None).

(** A broker whose channel fails the third message. *)
Definition failing_third : Broker :=
  broker_of (fun _ => None)
    (fun n => if (n =? 3)%nat then Some (Error "Channel closed") else None).

(** A broker that takes the five messages and then fails to close the
    connection. *)
Definition failing_to_close : Broker :=
  {| connect_reply := fun _ => None;
     send_reply := fun _ => None;
     createChannel_reply := None;
     assertQueue_reply := None;
     consume_reply := None;
     channel_close_reply := None;
     connection_close_reply := Some (Error "Connection closed") |}.

(** The end-to-end scenario of the specification: message 1 with the
    baggage [user.id] and [message.number]. *)
Definition scenario_baggage : gmap string string :=
  <["user.id" := "user-1001"]> (<["message.number" := "1"]> ∅).

Definition scenario_context : Context := setBaggage ROOT_CONTEXT scenario_baggage.

Definition scenario_content : JsValue :=
  JObject [ ("id", JNumber 1);
            ("timestamp", JString "2024-01-01T00:00:00Z");
            ("data", JString "Message 1") ].

Definition scenario_message : ConsumeMessage :=
  {| content := JSON_stringify scenario_content; deliveryTag := 1 |}.

(** The JSON middleware on a request that has no [Content-Type] header:
    the body is not parsed, and [req.body] is the empty object the
    middleware of express 4 starts from (express 5 leaves it [undefined],
    on which the route answers 500). *)
Definition unparsed_body (options : RequestOptions) (postData : string) : option JsValue :=
  Some (JObject []).

(** The answer of the service to an internal failure, as any client
    receives it: status 500 and a JSON body. *)
Definition internal_server_error (options : RequestOptions) (postData : string) : HttpOutcome :=
  Response 500 (JSON_stringify (JObject [("error", JString "Internal server error")])).

Definition connection_reset (options : RequestOptions) (postData : string) : HttpOutcome :=
  TransportError (Error "socket hang up").


End Examples.

(** ** The text of a JSON value, token by token *)

Module JsonText.
Import Js.

(** [JSON.stringify] writes a value as a sequence of tokens. *)
Fixpoint sep_tokens (parts : list (list Token)) : list Token :=
  match parts with
  | [] => []
  | [p] => p
  | p :: rest => p ++ TComma :: sep_tokens rest
  end.

Fixpoint tokens_of (v : JsValue) : list Token :=
  match v with
  | JString s => [TString s]
  | JArray items => TLBracket :: sep_tokens (List.map tokens_of items) ++ [TRBracket]
  | JObject props =>
      TLBrace
        :: sep_tokens (List.map (fun kv => TString (fst kv) :: TColon :: tokens_of (snd kv)) props)
        ++ [TRBrace]
  | _ => [TValue v]
  end.

(** The values that [JSON.stringify] writes and [JSON.parse] reads back as
    they are: numbers are whole and in the range in which a double is exact
    (so that they are written in digits), and no object has a key twice. *)
Fixpoint plain (v : JsValue) : bool :=
  match v with
  | JNumber n => Z.abs n <? 2 ^ 53
  | JDecimal _ => false
  | JArray items => forallb plain items
  | JObject props =>
      forallb (fun kv => plain (snd kv)) props && bool_decide (NoDup (List.map fst props))
  | _ => true
  end.

(** What may follow a value in the text of a value. *)
Definition closes (rest : string) : Prop :=
  rest = EmptyString
  \/ exists c r, rest = String c r /\ (c = "," \/ c = "]" \/ c = "}")%char.

(** The lexer reads the tokens [ts] off the text [s], whatever follows. *)
Definition lexes (s : string) (ts : list Token) : Prop :=
  forall rest, closes rest ->
    lex LDefault (s +:+ rest) = more ← lex LDefault rest; Some (ts ++ more).

(** A value is read where one may start: its tokens leave the parser as
    [close_value] does. *)
Definition reads (v : JsValue) : Prop :=
  forall stack e rest,
    e = EValue \/ e = EValueOrClose ->
    parse_tokens stack e (tokens_of v ++ rest)
    = parse_tokens (fst (close_value stack v)) (snd (close_value stack v)) rest.

Section Induction.
Variable P : JsValue -> Prop.
Hypothesis Hnull : P JNull.
Hypothesis Hbool : forall b, P (JBool b).
Hypothesis Hnumber : forall n, P (JNumber n).
Hypothesis Hdecimal : forall s, P (JDecimal s).
Hypothesis Hstring : forall s, P (JString s).
Hypothesis Harray : forall items, Forall P items -> P (JArray items).
Hypothesis Hobject : forall props, Forall (fun kv => P (snd kv)) props -> P (JObject props).

Fixpoint JsValue_nested_ind (v : JsValue) : P v :=
  match v with
  | JNull => Hnull
  | JBool b => Hbool b
  | JNumber n => Hnumber n
  | JDecimal s => Hdecimal s
  | JString s => Hstring s
  | JArray items =>
      Harray items
        ((fix go (l : list JsValue) : Forall P l :=
            match l with
            | [] => @List.Forall_nil _ P
            | x :: r => @List.Forall_cons _ P x r (JsValue_nested_ind x) (go r)
            end) items)
  | JObject props =>
      Hobject props
        ((fix go (l : list (string * JsValue)) : Forall (fun kv => P (snd kv)) l :=
            match l with
            | [] => @List.Forall_nil _ _
            | x :: r =>
                @List.Forall_cons _ (fun kv => P (snd kv)) x r (JsValue_nested_ind (snd x)) (go r)
            end) props)
  end.
End Induction.

End JsonText.

(** ** More of what is observed: rounds, broker calls *)

Module Trace.
Import Js JsDate Otel Eff Amqp Consumer Obs.

(** The round of message [n] at clock reading [t], when the broker takes
    the message: the lines, the message, the line after it and the pause. *)
Definition round_events (active : Context) (t n : Z) : list Event :=
  publish_lines t n
  ++ [ sent active t n;
       Console Log "   ✅ Message ${messageNumber} published with trace and baggage" [ANum n];
       Slept 2000 ].

(** [count] rounds in a row, from message [from] at clock reading [t]. *)
Fixpoint rounds_events (active : Context) (count : nat) (t from : Z) : list Event :=
  match count with
  | O => []
  | S k => round_events active t from ++ rounds_events active k (t + 2000) (from + 1)
  end.

(** The keys [publishMessageWithBaggage] sets. *)
Definition message_keys : list string :=
  ["user.id"; "request.source"; "session.id"; "message.number"].

Definition is_broker_call (e : Event) : bool :=
  match e with
  | CreateChannel | AssertQueue _ _ | ConsumeFrom _ | ChannelClose | ConnectionClose => true
  | _ => false
  end.

(** What is done on the connection besides sending: channels, queues,
    consumers and closing. *)
Definition broker_calls (evs : list Event) : list Event := List.filter is_broker_call evs.

(** The calls the [catch] block of an entry point makes: [close] on the
    channel and on the connection, for those of the two variables that
    have been assigned. *)
Definition closing (ch : option Channel) (c : option Connection) : list Event :=
  match ch with Some _ => [ChannelClose] | None => [] end
  ++ match c with Some _ => [ConnectionClose] | None => [] end.

End Trace.

(** ** The lines and the errors of the consumer *)

Module ConsumerTrace.
Import Js JsDate Otel Eff Amqp Consumer Obs.

(** The lines [processMessage] and the [/process] route write for the
    baggage of the active context: one line per entry, or the line that
    says there is none. *)
Definition baggage_lines (active : Context) : list Event :=
  let allBaggage :=
    match getBaggage active with
    | Some b => getAllEntries b
    | None => []
    end in
  if (length allBaggage =? 0)%nat then [Console Log "     ⚠️  No baggage found!" []]
  else List.map (fun kv => Console Log "     - ${key}: ${entry.value}" [AStr (fst kv); AStr (snd kv)])
         allBaggage.

Definition entry_line (template : string) (value : option string) : list Event :=
  match value with
  | Some v => [Console Log template [AStr v]]
  | None => []
  end.

(** What [processMessage] writes between parsing the payload and calling
    the service. *)
Definition received_lines (active : Context) (messageContent : JsValue) : list Event :=
  [ Console Log "\n📥 Received message:" [];
    Console Log "   Content: ${JSON.stringify(messageContent)}" [AJson messageContent];
    Console Log "   🎒 Extracted Baggage:" [] ]
  ++ baggage_lines active
  ++ entry_line "   👤 User ID from baggage: ${userId.value}" (entries active !! "user.id")
  ++ entry_line "   🔗 Request source from baggage: ${requestSource.value}"
       (entries active !! "request.source")
  ++ entry_line "   🔑 Session ID from baggage: ${sessionId.value}" (entries active !! "session.id")
  ++ match getSpan active with
     | Some sc =>
         [ Console Log "   🔍 Trace ID: ${spanContext.traceId}" [AStr (traceId sc)];
           Console Log "   🔍 Span ID: ${spanContext.spanId}" [AStr (spanId sc)] ]
     | None => []
     end.

(** The error [callApiService] rejects with, if it does. *)
Definition call_error (o : HttpOutcome) : option JsError :=
  match o with
  | TransportError e => Some e
  | Response _ body =>
      match JSON_parse body with
      | Some _ => None
      | None => Some (Error ("Failed to parse API response: " +:+ Error_toString (SyntaxError body)))
      end
  | NoAnswer => None
  end.

(** What [callApiService] writes once the exchange has ended. *)
Definition call_lines (o : HttpOutcome) : list Event :=
  match o with
  | TransportError e =>
      [Console Err "   ❌ API service call failed: ${error.message}" [AStr (err_message e)]]
  | Response _ body =>
      match JSON_parse body with
      | Some response =>
          [Console Log "   ✅ API service response: ${JSON.stringify(response)}" [AJson response]]
      | None => []
      end
  | NoAnswer => []
  end.

(** How [callApiService] ends on the exchange [o]. *)
Definition call_outcome (o : HttpOutcome) : Outcome unit :=
  match o with
  | NoAnswer => Pending
  | _ => match call_error o with Some e => Throw e | None => Return tt end
  end.

(** What [processMessage] does once the call has come to [o]: the report
    and the nack, or the line of success and the ack; nothing as long as
    there is no answer. *)
Definition call_end (tag : Z) (o : HttpOutcome) : list Event :=
  match call_outcome o with
  | Throw e => [Console Err "Error processing message:" [AErr e]; Nack tag false true]
  | Return _ => [Console Log "   ✅ Message processed successfully" []; Ack tag]
  | _ => []
  end.

(** The deliveries [processMessage] stays pending on: the payload is sent
    downstream, and the request gets no answer. *)
Definition unanswered (cfg : Config) (server : RequestOptions -> string -> HttpOutcome)
    (msg : ConsumeMessage) : bool :=
  match JSON_parse (content msg) with
  | Some v =>
      negb (JsValue_is_null v)
      && match server (request_options cfg) (post_data v) with
         | NoAnswer => true
         | _ => false
         end
  | None => false
  end.



Definition is_baggage_line (e : Event) : bool :=
  match e with
  | Console Log template _ =>
      String.eqb template "     ⚠️  No baggage found!"
      || String.eqb template "     - ${key}: ${entry.value}"
  | _ => false
  end.

(** The lines about the entries of the baggage, among the events. *)
Definition baggage_report (evs : list Event) : list Event := List.filter is_baggage_line evs.

Definition is_log_line (e : Event) : bool :=
  match e with Console Log _ _ => true | _ => false end.

End ConsumerTrace.

(** ** What the route builds *)

Module ServiceTrace.
Import Js JsDate Otel Eff Amqp Consumer ApiService Obs.

(** The [baggageReceived] object the route builds from the entries of the
    active baggage. *)
Definition baggage_received (active : Context) : list (string * JsValue) :=
  fold_left (fun o kv => obj_set o (fst kv) (JString (snd kv)))
    (match getBaggage active with
     | Some b => getAllEntries b
     | None => []
     end) [].

(** [req.body] is [undefined] or [null]. *)
Definition no_body (body : option JsValue) : bool :=
  match body with
  | Some v => JsValue_is_null v
  | None => true
  end.

(** A property the route writes into a line has no conversion to a
    string. *)
Definition unprintable (v : option JsValue) : bool :=
  match v with
  | Some x => negb (converts_to_string x)
  | None => false
  end.

(** The bodies the route fails on: [req.body] is [undefined] or [null], or
    its [messageId] or its [data] cannot be written into the line that
    reports it. *)
Definition unreadable (body : option JsValue) : bool :=
  match body with
  | Some v =>
      JsValue_is_null v || unprintable (get_prop v "messageId") || unprintable (get_prop v "data")
  | None => true
  end.

(** What the route answers and writes when its handler catches [e], after
    the lines [lines]. *)
Definition failed_route (w : World) (lines : list Event) (e : JsError) : Result HttpResponse :=
  {| outcome :=
       Return {| status := 500; json := JObject [("error", JString "Internal server error")] |};
     world := w;
     events := lines ++ [Console Err "Error processing request:" [AErr e]] |}.

End ServiceTrace.

(** * Proofs *)

(** ** Events of composed computations *)

Module EffFacts.
Import Js Otel Eff Obs.
Local Open Scope js_scope.

Section Algebra.
Context {A B : Type}.

Lemma outcome_after (evs : list Event) (r : Result A) : outcome (after evs r) = outcome r.
Proof. reflexivity. Qed.

Lemma events_after (evs : list Event) (r : Result A) : events (after evs r) = evs ++ events r.
Proof. reflexivity. Qed.

Lemma world_after (evs : list Event) (r : Result A) : world (after evs r) = world r.
Proof. reflexivity. Qed.

(** A bind whose first part returns. *)
Lemma bind_return (m : M A) (k : A -> M B) (w : World) (a : A) :
  outcome (m w) = Return a -> bind m k w = after (events (m w)) (k a (world (m w))).
Proof. intros H. unfold bind. now rewrite H. Qed.

Lemma bind_throw (m : M A) (k : A -> M B) (w : World) (e : JsError) :
  outcome (m w) = Throw e ->
  bind m k w = {| outcome := Throw e; world := world (m w); events := events (m w) |}.
Proof. intros H. unfold bind. now rewrite H. Qed.

Lemma bind_exit (m : M A) (k : A -> M B) (w : World) (c : Z) :
  outcome (m w) = Exit c ->
  bind m k w = {| outcome := Exit c; world := world (m w); events := events (m w) |}.
Proof. intros H. unfold bind. now rewrite H. Qed.

Lemma bind_pending (m : M A) (k : A -> M B) (w : World) :
  outcome (m w) = Pending ->
  bind m k w = {| outcome := Pending; world := world (m w); events := events (m w) |}.
Proof. intros H. unfold bind. now rewrite H. Qed.

End Algebra.

(** *** Closure of [tame] under the combinators *)

Section Tame.
Variable P : Event -> Prop.









End Tame.

Lemma quiet_no_resolution (evs : list Event) : Forall quiet evs -> resolutions evs = [].
Proof.
  induction 1 as [|e evs He _ IH]; [reflexivity|].
  unfold resolutions in *. simpl. destruct e; try discriminate He. exact IH.
Qed.

Lemma resolutions_app (a b : list Event) : resolutions (a ++ b) = resolutions a ++ resolutions b.
Proof. unfold resolutions. apply List.filter_app. Qed.

Lemma http_requests_app (a b : list Event) :
  http_requests (a ++ b) = http_requests a ++ http_requests b.
Proof. unfold http_requests. apply List.filter_app. Qed.

Lemma Forall_filter_nil (f : Event -> bool) (evs : list Event) :
  Forall (fun e => f e = false) evs -> List.filter f evs = [].
Proof.
  induction 1 as [|e evs He _ IH]; [reflexivity|]. simpl. now rewrite He.
Qed.

End EffFacts.

(** ** The consumer *)

Module ConsumerFacts.
Import Js JsDate Otel Eff Amqp Consumer ApiService Obs EffFacts.
Local Open Scope js_scope.

#[local] Arguments JSON_stringify : simpl never.
#[local] Arguments toISOString : simpl never.
#[local] Arguments Number_toString : simpl never.

(** *** Computations that only write console lines *)

Lemma logs_only_ret : logs_only (ret tt).
Proof. intros w. repeat split. constructor. Qed.

Lemma logs_only_console (level : Level) (template : string) (args : list LogArg) :
  logs_only (emit (Console level template args)).
Proof. intros w. repeat split. repeat constructor. Qed.

Lemma logs_only_bind (m : M unit) (k : unit -> M unit) :
  logs_only m -> logs_only (k tt) -> logs_only (bind m k).
Proof.
  intros Hm Hk w. destruct (Hm w) as (Ho & Hw & He).
  rewrite (bind_return _ _ _ _ Ho), Hw.
  destruct (Hk w) as (Ho' & Hw' & He'). repeat split; simpl; try assumption.
  apply Forall_app. split; assumption.
Qed.

Lemma logs_only_for_each {A} (xs : list A) (body : A -> M unit) :
  (forall x, logs_only (body x)) -> logs_only (for_each xs body).
Proof.
  intros Hb. induction xs as [|x xs IH]; simpl.
  - apply logs_only_ret.
  - apply logs_only_bind; [apply Hb | exact IH].
Qed.

Lemma logs_only_when_defined {A} (x : option A) (body : A -> M unit) :
  (forall a, logs_only (body a)) -> logs_only (when_defined x body).
Proof. intros Hb. destruct x; simpl; [apply Hb | apply logs_only_ret]. Qed.

Ltac logs_only_tac :=
  unfold console_log, console_error;
  repeat first
    [ apply logs_only_console
    | apply logs_only_ret
    | apply logs_only_bind
    | apply logs_only_for_each; intros ?
    | apply logs_only_when_defined; intros ?
    | match goal with |- logs_only (if ?b then _ else _) => destruct b end ].

Lemma quiet_no_request (evs : list Event) : Forall quiet evs -> http_requests evs = [].
Proof.
  induction 1 as [|e evs He _ IH]; [reflexivity|].
  unfold http_requests in *. simpl. destruct e; try discriminate He. exact IH.
Qed.

(** A logging step in front changes nothing of what is observed. *)
Lemma obs_bind_logs {A} (m : M unit) (k : unit -> M A) (w : World) :
  logs_only m -> obs (bind m k w) = obs (k tt w).
Proof.
  intros Hm. destruct (Hm w) as (Ho & Hw & He).
  rewrite (bind_return _ _ _ _ Ho), Hw. unfold obs. simpl.
  rewrite resolutions_app, http_requests_app.
  now rewrite (quiet_no_resolution _ He), (quiet_no_request _ He).
Qed.

Section Facts.
Variable cfg : Config.
Variable server : RequestOptions -> string -> HttpOutcome.





(** *** The downstream call decides *)

Lemma callApiService_obs active v currentBaggage w :
  JsValue_is_null v = false ->
  obs (callApiService cfg server active v currentBaggage w)
  = (outcome (callApiService cfg server active v currentBaggage w), [],
     [HttpRequest (request_options cfg) (post_data v)])
  /\ match server (request_options cfg) (post_data v) with
     | NoAnswer => outcome (callApiService cfg server active v currentBaggage w) = Pending
     | o =>
         if downstream_fails o
         then exists e, outcome (callApiService cfg server active v currentBaggage w) = Throw e
         else outcome (callApiService cfg server active v currentBaggage w) = Return tt
     end.
Proof.
  intros Hv. unfold callApiService, member, obs, post_data. rewrite Hv.
  unfold bind, console_log, http_request, emit, ret. cbn [outcome world events after app].
  destruct (server (request_options cfg) _) as [e | st body |]; simpl.
  - split; [reflexivity | eexists; reflexivity].
  - unfold try_catch, JSON_parse_or_throw. destruct (JSON_parse body); simpl.
    + split; reflexivity.
    + split; [reflexivity | eexists; reflexivity].
  - split; reflexivity.
Qed.

Lemma obs_bind_ret {A B} (a : A) (k : A -> M B) (w : World) :
  obs (bind (ret a) k w) = obs (k a w).
Proof. reflexivity. Qed.

(** Once the payload has been parsed, what is observed of the body of
    [processMessage] is what is observed of the call and what follows it:
    the lines logged before change nothing. *)
Lemma processMessage_body_obs active msg w v :
  JSON_parse (content msg) = Some v ->
  exists body handler,
    processMessage cfg server active msg = try_catch body handler
    /\ handler = (fun error =>
                    console_error "Error processing message:" [AErr error] ;;
                    channel_nack msg false true)%js
    /\ obs (body w)
       = obs ((callApiService cfg server active v (getBaggage active) ;;
               console_log "   ✅ Message processed successfully" [] ;;
               channel_ack msg)%js w).
Proof.
  intros Hparse. unfold processMessage.
  lazymatch goal with
  | |- context [try_catch ?body ?handler] => exists body, handler
  end.
  split; [reflexivity | split; [reflexivity|]].
  unfold JSON_parse_or_throw. rewrite Hparse, obs_bind_ret.
  repeat (rewrite obs_bind_logs by logs_only_tac). reflexivity.
Qed.

(** The call decides [processMessage] once the payload has been parsed to
    a value other than [null]. *)
Lemma processMessage_obs active msg w v :
  JSON_parse (content msg) = Some v ->
  JsValue_is_null v = false ->
  obs (processMessage cfg server active msg w)
  = (match server (request_options cfg) (post_data v) with
     | NoAnswer => Pending
     | _ => Return tt
     end,
     resolution_of (deliveryTag msg) (server (request_options cfg) (post_data v)),
     [HttpRequest (request_options cfg) (post_data v)]).
Proof.
  intros Hparse Hv.
  destruct (processMessage_body_obs active msg w v Hparse) as (body & handler & -> & -> & Hbody).
  destruct (callApiService_obs active v (getBaggage active) w Hv) as [Hcall Hout].
  unfold obs in Hcall. injection Hcall as Hres Hreq.
  unfold try_catch, resolution_of.
  assert (Hthrow : forall e,
            outcome (callApiService cfg server active v (getBaggage active) w) = Throw e ->
            obs (after (events (body w))
                   ((console_error "Error processing message:" [AErr e] ;;
                     channel_nack msg false true)%js (world (body w))))
            = (Return tt, [Nack (deliveryTag msg) false true],
               [HttpRequest (request_options cfg) (post_data v)])
            /\ outcome (body w) = Throw e).
  { intros e He. rewrite (bind_throw _ _ _ _ He) in Hbody.
    unfold obs in Hbody. simpl in Hbody. rewrite Hres, Hreq in Hbody.
    injection Hbody as Ho Hr Hh. split; [|exact Ho]. unfold obs. simpl.
    rewrite resolutions_app, http_requests_app, Hr, Hh. reflexivity. }
  assert (Hreturn :
            outcome (callApiService cfg server active v (getBaggage active) w) = Return tt ->
            obs (body w)
            = (Return tt, [Ack (deliveryTag msg)],
               [HttpRequest (request_options cfg) (post_data v)])).
  { intros Ho. rewrite (bind_return _ _ _ _ Ho) in Hbody.
    unfold obs in Hbody. simpl in Hbody.
    rewrite resolutions_app, http_requests_app, Hres, Hreq in Hbody. exact Hbody. }
  destruct (server (request_options cfg) (post_data v)) as [e | st text |] eqn:Hs.
  - destruct Hout as [e' He']. destruct (Hthrow e' He') as [H Ho]. now rewrite Ho.
  - simpl downstream_fails in *. destruct (JSON_parse text).
    + specialize (Hreturn Hout). unfold obs in Hreturn. injection Hreturn as Ho Hr Hh.
      rewrite Ho. unfold obs. now rewrite Ho, Hr, Hh.
    + destruct Hout as [e' He']. destruct (Hthrow e' He') as [H Ho]. now rewrite Ho.
  - rewrite (bind_pending _ _ _ Hout) in Hbody.
    unfold obs in Hbody. simpl in Hbody. rewrite Hres, Hreq in Hbody.
    injection Hbody as Ho Hr Hh. rewrite Ho. unfold obs. now rewrite Ho, Hr, Hh.
Qed.


Lemma processMessage_resolution active msg w v :
  JSON_parse (content msg) = Some v ->
  JsValue_is_null v = false ->
  resolutions (events (processMessage cfg server active msg w))
  = resolution_of (deliveryTag msg) (server (request_options cfg) (post_data v)).
Proof.
  intros Hparse Hv. pose proof (processMessage_obs active msg w v Hparse Hv) as H.
  unfold obs in H. now injection H.
Qed.


(** A payload that is not JSON: the whole run. *)
Lemma processMessage_unparsed active msg w :
  JSON_parse (content msg) = None ->
  processMessage cfg server active msg w
  = {| outcome := Return tt;
       world := w;
       events := [ Console Err "Error processing message:" [AErr (SyntaxError (content msg))];
                   Nack (deliveryTag msg) false true ] |}.
Proof.
  intros Hparse. unfold processMessage, try_catch, JSON_parse_or_throw. rewrite Hparse. reflexivity.
Qed.


(** C2, as amended.  Once the payload has been parsed (to a value other
    than [null]), the delivery is nacked with requeue exactly when the
    downstream exchange ends in a transport error or in a body that is not
    JSON, and acked when it ends otherwise; the status code of the response
    is not looked at.  An exchange that does not end leaves the delivery
    unresolved. *)
Theorem downstream_failure_is_requeued active msg w v :
  JSON_parse (content msg) = Some v ->
  JsValue_is_null v = false ->
  resolutions (events (processMessage cfg server active msg w))
  = match server (request_options cfg) (post_data v) with
    | NoAnswer => []
    | o => [if downstream_fails o
            then Nack (deliveryTag msg) false true else Ack (deliveryTag msg)]
    end.
Proof.
  intros Hparse Hv. pose proof (processMessage_obs active msg w v Hparse Hv) as H.
  unfold obs in H. injection H as _ Hr _. rewrite Hr. unfold resolution_of.
  now destruct (server (request_options cfg) (post_data v)).
Qed.

(** C9.  The delivery callback does nothing on [null]: it returns, leaves
    the world as it is and causes no event; a delivery that is not [null]
    is what [processMessage] is run on. *)
Theorem null_delivery_is_ignored active w :
  on_message cfg server active None w = {| outcome := Return tt; world := w; events := [] |}
  /\ (forall m, on_message cfg server active (Some m) w = processMessage cfg server active m w).
Proof. split; [reflexivity | intros m; reflexivity]. Qed.

End Facts.

Import Examples.


(** C2, as stated, fails: the service's own 500 answer has a JSON body, and
    the delivery is acked. *)
Lemma http_500_is_acked :
  internal_server_error (request_options default_config) (post_data scenario_content)
  = Response 500 (JSON_stringify (JObject [("error", JString "Internal server error")]))
  /\ resolutions
       (events (processMessage default_config internal_server_error ROOT_CONTEXT
                  scenario_message (start 0)))
     = [Ack 1].
Proof. split; vm_compute; reflexivity. Qed.

Lemma downstream_failure_is_requeued_witness :
  JSON_parse (content scenario_message) = Some scenario_content
  /\ JsValue_is_null scenario_content = false
  /\ resolutions
       (events (processMessage default_config connection_reset scenario_context
                  scenario_message (start 0)))
     = [Nack 1 false true].
Proof.
  split; [vm_compute; reflexivity | split; [reflexivity|]].
  exact (downstream_failure_is_requeued default_config connection_reset scenario_context
           scenario_message (start 0) scenario_content eq_refl eq_refl).
Defined.


End ConsumerFacts.

(** ** The carrier codec *)

Module CodecFacts.
Import Otel.

Lemma strip_prefix_app (p s : string) : strip_prefix p (p +:+ s) = Some s.
Proof.
  induction p as [|a p IH]; [reflexivity|].
  change (String a p +:+ s) with (String a (p +:+ s)). simpl.
  now rewrite Ascii.eqb_refl.
Qed.

Lemma strip_prefix_Some (p s k : string) : strip_prefix p s = Some k -> s = p +:+ k.
Proof.
  revert s. induction p as [|a p IH]; intros s H.
  - simpl in H. now injection H.
  - destruct s as [|b s]; [discriminate H|]. simpl in H.
    destruct (Ascii.eqb a b) eqn:E; [|discriminate H].
    apply Ascii.eqb_eq in E. subst b.
    change (String a p +:+ k) with (String a (p +:+ k)). f_equal. now apply IH.
Qed.

(** An entry is decoded from the carrier key that [encode] gives it. *)
Lemma decode_baggage_lookup (carrier : gmap string string) (k : string) :
  decode_baggage carrier !! k = carrier !! (BAGGAGE_PREFIX +:+ k).
Proof.
  apply option_eq. intros v. unfold decode_baggage.
  assert (Hinv : forall k' v', (k', v') ∈ omap decode_entry (map_to_list carrier) ->
                               carrier !! (BAGGAGE_PREFIX +:+ k') = Some v').
  { intros k' v'. rewrite list_elem_of_omap. intros [[k0 v0] [Hin Hdec]].
    apply elem_of_map_to_list in Hin. unfold decode_entry in Hdec.
    cbn [fst snd] in Hdec.
    destruct (strip_prefix BAGGAGE_PREFIX k0) as [k1|] eqn:Hs; [|discriminate Hdec].
    injection Hdec as -> ->.
    apply strip_prefix_Some in Hs. now subst k0. }
  rewrite <- elem_of_list_to_map'.
  - split; [apply Hinv|].
    intros Hv. apply list_elem_of_omap. exists (BAGGAGE_PREFIX +:+ k, v). split.
    + now apply elem_of_map_to_list.
    + unfold decode_entry. simpl fst. now rewrite strip_prefix_app.
  - intros v' H1 H2. apply Hinv in H1, H2. congruence.
Qed.

Lemma not_prefixed (key k : string) :
  strip_prefix BAGGAGE_PREFIX key = None -> key <> BAGGAGE_PREFIX +:+ k.
Proof. intros Hkey ->. now rewrite strip_prefix_app in Hkey. Qed.

Lemma trace_fields_not_baggage (c : Context) (k : string) :
  trace_fields c !! (BAGGAGE_PREFIX +:+ k) = None.
Proof.
  unfold trace_fields. destruct (ctx_span c); [|apply lookup_empty].
  rewrite !lookup_insert_ne by (apply not_prefixed; reflexivity). apply lookup_empty.
Qed.

Lemma encode_lookup_baggage (c : Context) (k : string) :
  encode c !! (BAGGAGE_PREFIX +:+ k) = entries c !! k.
Proof.
  unfold encode. rewrite lookup_union_l by apply trace_fields_not_baggage.
  apply (lookup_kmap (String.append BAGGAGE_PREFIX)).
Qed.

(** The well-known keys are not keys of baggage entries. *)
Lemma encode_lookup_field (c : Context) (key : string) :
  strip_prefix BAGGAGE_PREFIX key = None ->
  encode c !! key = trace_fields c !! key.
Proof.
  intros Hkey. unfold encode. apply lookup_union_r.
  apply (lookup_kmap_None (String.append BAGGAGE_PREFIX)).
  intros k Hk. now apply not_prefixed with (k := k) in Hkey.
Qed.

Lemma decode_entries (carrier : gmap string string) :
  entries (decode carrier) = decode_baggage carrier.
Proof.
  unfold entries, decode. simpl. destruct (decide (decode_baggage carrier = ∅)) as [->|]; reflexivity.
Qed.

(** C4.  Decoding an encoded context gives back its baggage entries, key
    by key and as a whole, and its trace reference; this holds for every
    baggage, whatever its keys and values (empty values, punctuation in
    keys, no entry at all). *)
Theorem decode_encode_round_trip (c : Context) :
  entries (decode (encode c)) = entries c
  /\ (forall k, entries (decode (encode c)) !! k = entries c !! k)
  /\ ctx_span (decode (encode c)) = ctx_span c.
Proof.
  assert (He : entries (decode (encode c)) = entries c).
  { rewrite decode_entries. apply map_eq. intros k.
    now rewrite decode_baggage_lookup, encode_lookup_baggage. }
  split; [exact He | split; [intros k; now rewrite He|]].
  unfold decode. simpl.
  rewrite !encode_lookup_field by reflexivity.
  unfold trace_fields. destruct (ctx_span c) as [[t s]|]; [|reflexivity].
  rewrite lookup_insert_eq, lookup_insert_ne, lookup_insert_eq by discriminate.
  reflexivity.
Qed.

End CodecFacts.

(** ** Connecting with retries *)

Module ConnectFacts.
Import Js JsDate Otel Eff Amqp Obs EffFacts.
Local Open Scope js_scope.

Section Loop.
Variable cfg : Config.
Variable broker : Broker.
Variable maxRetries delayMs : Z.

Abbreviation loop := (connect_loop cfg broker).

(** The loop is over once [attempt] has passed [maxRetries]. *)
Lemma connect_loop_over (fuel : nat) (attempt : Z) (w : World) :
  maxRetries < attempt ->
  loop fuel maxRetries delayMs attempt w
  = {| outcome := Throw (Error "Failed to connect to RabbitMQ"); world := w; events := [] |}.
Proof.
  intros H. destruct fuel; [reflexivity|]. simpl.
  now rewrite (proj2 (Z.leb_gt attempt maxRetries) H).
Qed.

(** A round whose attempt the broker accepts. *)
Lemma connect_round_accepted (fuel : nat) (attempt : Z) (w : World) :
  attempt <= maxRetries ->
  connect_reply broker (S (connects w)) = None ->
  loop (S fuel) maxRetries delayMs attempt w
  = {| outcome := Return (Conn (S (connects w)));
       world := {| now := now w; connects := S (connects w); sends := sends w;
                   connection := connection w; channel := channel w |};
       events := accepted_round cfg maxRetries (S (connects w)) attempt |}.
Proof.
  intros Hle Hreply. simpl. rewrite (proj2 (Z.leb_le attempt maxRetries) Hle).
  unfold bind, try_catch, amqp_connect, console_log, emit. simpl. rewrite Hreply. reflexivity.
Qed.

(** A round whose attempt is refused before the last one: the next round
    starts after the delay. *)
Lemma connect_round_refused (fuel : nat) (attempt : Z) (w : World) (e : JsError) :
  attempt < maxRetries ->
  connect_reply broker (S (connects w)) = Some e ->
  loop (S fuel) maxRetries delayMs attempt w
  = after (refused_round cfg maxRetries delayMs (S (connects w)) attempt)
      (loop fuel maxRetries delayMs (attempt + 1)
         {| now := now w + Z.max 0 delayMs; connects := S (connects w); sends := sends w;
            connection := connection w; channel := channel w |}).
Proof.
  intros Hlt Hreply. simpl.
  rewrite (proj2 (Z.leb_le attempt maxRetries)) by lia.
  unfold bind, try_catch, amqp_connect, console_log, emit. simpl. rewrite Hreply. simpl.
  rewrite (proj2 (Z.eqb_neq attempt maxRetries)) by lia. reflexivity.
Qed.

(** The last round, refused: its error is thrown. *)
Lemma connect_round_last (fuel : nat) (w : World) (e : JsError) :
  connect_reply broker (S (connects w)) = Some e ->
  loop (S fuel) maxRetries delayMs maxRetries w
  = {| outcome := Throw e;
       world := {| now := now w; connects := S (connects w); sends := sends w;
                   connection := connection w; channel := channel w |};
       events := final_refused_round cfg maxRetries (S (connects w)) maxRetries |}.
Proof.
  intros Hreply. simpl. rewrite Z.leb_refl.
  unfold bind, try_catch, amqp_connect, console_log, emit. simpl. rewrite Hreply. simpl.
  rewrite Z.eqb_refl. reflexivity.
Qed.

Lemma refuses_first (from k : nat) :
  refuses broker from (S k) -> exists e, connect_reply broker (S from) = Some e.
Proof.
  intros H. specialize (H 1%nat). rewrite Nat.add_1_r in H.
  destruct (connect_reply broker (S from)) as [e|]; [now exists e|].
  exfalso. apply H; [lia | reflexivity].
Qed.

Lemma refuses_rest (from k : nat) : refuses broker from (S k) -> refuses broker (S from) k.
Proof.
  intros H i Hi. replace (S from + i)%nat with (from + S i)%nat by lia. apply H. lia.
Qed.

(** [k] refusals and then an acceptance. *)
Lemma connect_loop_accepts (k : nat) :
  forall (fuel : nat) (attempt : Z) (w : World),
    (k < fuel)%nat ->
    attempt + Z.of_nat k <= maxRetries ->
    refuses broker (connects w) k ->
    connect_reply broker (connects w + S k) = None ->
    outcome (loop fuel maxRetries delayMs attempt w) = Return (Conn (connects w + S k))
    /\ events (loop fuel maxRetries delayMs attempt w)
       = refused_rounds cfg maxRetries delayMs k (S (connects w)) attempt
         ++ accepted_round cfg maxRetries (connects w + S k) (attempt + Z.of_nat k).
Proof.
  induction k as [|k IH]; intros fuel attempt w Hfuel Hle Hrefused Haccepted;
    (destruct fuel as [|fuel]; [lia|]).
  - rewrite Nat.add_1_r in *. rewrite Z.add_0_r in *.
    rewrite connect_round_accepted by assumption. split; reflexivity.
  - destruct (refuses_first _ _ Hrefused) as [e He].
    rewrite (connect_round_refused fuel attempt w e) by (assumption || lia).
    rewrite outcome_after, events_after.
    match goal with |- context [loop fuel maxRetries delayMs (attempt + 1) ?w1] =>
      destruct (IH fuel (attempt + 1) w1) as [Ho Hev]
    end.
    + lia.
    + lia.
    + simpl connects. now apply refuses_rest.
    + simpl connects.
      now replace (S (connects w) + S k)%nat with (connects w + S (S k))%nat by lia.
    + rewrite Ho, Hev. simpl connects.
      replace (S (connects w) + S k)%nat with (connects w + S (S k))%nat by lia.
      replace (attempt + 1 + Z.of_nat k) with (attempt + Z.of_nat (S k)) by lia.
      split; reflexivity.
Qed.

(** Refusals up to and including the attempt numbered [maxRetries]. *)
Lemma connect_loop_exhausted (k : nat) :
  forall (fuel : nat) (attempt : Z) (w : World),
    (k < fuel)%nat ->
    attempt + Z.of_nat k = maxRetries ->
    refuses broker (connects w) (S k) ->
    exists e,
      connect_reply broker (connects w + S k) = Some e
      /\ outcome (loop fuel maxRetries delayMs attempt w) = Throw e
      /\ events (loop fuel maxRetries delayMs attempt w)
         = refused_rounds cfg maxRetries delayMs k (S (connects w)) attempt
           ++ final_refused_round cfg maxRetries (connects w + S k) maxRetries.
Proof.
  induction k as [|k IH]; intros fuel attempt w Hfuel Hle Hrefused;
    (destruct fuel as [|fuel]; [lia|]);
    destruct (refuses_first _ _ Hrefused) as [e He].
  - rewrite Nat.add_1_r. rewrite Z.add_0_r in Hle. subst attempt.
    exists e. rewrite (connect_round_last fuel w e He). repeat split. exact He.
  - rewrite (connect_round_refused fuel attempt w e) by (assumption || lia).
    rewrite outcome_after, events_after.
    match goal with |- context [loop fuel maxRetries delayMs (attempt + 1) ?w1] =>
      destruct (IH fuel (attempt + 1) w1) as (e' & He' & Ho & Hev)
    end.
    + lia.
    + lia.
    + simpl connects. now apply refuses_rest.
    + simpl connects in *.
      replace (S (connects w) + S k)%nat with (connects w + S (S k))%nat in * by lia.
      exists e'. rewrite Ho, Hev. repeat split. exact He'.
Qed.

(** Never more calls of [amqp.connect] than rounds. *)
Lemma connect_loop_attempts (fuel : nat) :
  forall (attempt : Z) (w : World),
    (length (connect_attempts (events (loop fuel maxRetries delayMs attempt w))) <= fuel)%nat.
Proof.
  induction fuel as [|fuel IH]; intros attempt w; [simpl; lia|].
  destruct (Z.lt_ge_cases maxRetries attempt) as [Hover | Hle].
  - rewrite connect_loop_over by assumption. simpl. lia.
  - destruct (connect_reply broker (S (connects w))) as [e|] eqn:Hreply.
    + destruct (Z.eq_dec attempt maxRetries) as [-> | Hne].
      * rewrite (connect_round_last fuel w e Hreply). simpl. lia.
      * rewrite (connect_round_refused fuel attempt w e) by (assumption || lia).
        rewrite events_after. unfold connect_attempts. rewrite List.filter_app.
        rewrite List.length_app. simpl.
        match goal with |- context [loop fuel maxRetries delayMs (attempt + 1) ?w1] =>
          specialize (IH (attempt + 1) w1)
        end.
        unfold connect_attempts in IH. lia.
    + rewrite connect_round_accepted by assumption. simpl. lia.
Qed.

Lemma refused_rounds_attempts (k n : nat) (attempt : Z) :
  length (connect_attempts (refused_rounds cfg maxRetries delayMs k n attempt)) = k.
Proof.
  revert n attempt. induction k as [|k IH]; intros n attempt; [reflexivity|].
  simpl. unfold connect_attempts in *. simpl. now rewrite IH.
Qed.

(** More fuel than rounds left changes nothing. *)
Lemma connect_loop_fuel (fuel : nat) :
  forall (attempt : Z) (w : World),
    (Z.to_nat (maxRetries - attempt + 1) <= fuel)%nat ->
    loop fuel maxRetries delayMs attempt w
    = loop (Z.to_nat (maxRetries - attempt + 1)) maxRetries delayMs attempt w.
Proof.
  induction fuel as [|fuel IH]; intros attempt w Hfuel.
  - now replace (Z.to_nat (maxRetries - attempt + 1)) with 0%nat by lia.
  - destruct (Z.lt_ge_cases maxRetries attempt) as [Hover | Hle].
    + now rewrite !connect_loop_over by assumption.
    + replace (Z.to_nat (maxRetries - attempt + 1))
        with (S (Z.to_nat (maxRetries - (attempt + 1) + 1))) by lia.
      destruct (connect_reply broker (S (connects w))) as [e|] eqn:Hreply.
      * destruct (Z.eq_dec attempt maxRetries) as [-> | Hne].
        -- now rewrite !(connect_round_last _ w e Hreply).
        -- rewrite !(connect_round_refused _ attempt w e) by (assumption || lia).
           f_equal. apply IH. lia.
      * now rewrite !connect_round_accepted by assumption.
Qed.

(** The loop touches neither the queue nor the variables of the entry
    point, writes no error line and never ends the process. *)
Lemma connect_loop_frame (fuel : nat) :
  forall (attempt : Z) (w : World),
    let r := loop fuel maxRetries delayMs attempt w in
    sends (world r) = sends w
    /\ connection (world r) = connection w
    /\ channel (world r) = channel w
    /\ published (events r) = []
    /\ console_errors (events r) = []
    /\ (forall c, outcome r <> Exit c).
Proof.
  induction fuel as [|fuel IH]; intros attempt w; [repeat split; discriminate|].
  destruct (Z.lt_ge_cases maxRetries attempt) as [Hover | Hle].
  - rewrite connect_loop_over by assumption. repeat split; discriminate.
  - destruct (connect_reply broker (S (connects w))) as [e|] eqn:Hreply.
    + destruct (Z.eq_dec attempt maxRetries) as [-> | Hne].
      * rewrite (connect_round_last fuel w e Hreply). repeat split; discriminate.
      * rewrite (connect_round_refused fuel attempt w e) by (assumption || lia).
        match goal with |- context [loop fuel maxRetries delayMs (attempt + 1) ?w1] =>
          destruct (IH (attempt + 1) w1) as (Hs & Hc & Hch & Hp & He & Hx)
        end.
        cbv zeta. rewrite world_after, events_after, outcome_after.
        unfold published, console_errors in *. rewrite !List.filter_app, Hp, He.
        repeat split; assumption.
    + rewrite connect_round_accepted by assumption. repeat split; discriminate.
Qed.

(** The loop does not wait for ever: it returns or throws. *)
Lemma connect_loop_not_pending (fuel : nat) :
  forall (attempt : Z) (w : World),
    outcome (loop fuel maxRetries delayMs attempt w) <> Pending.
Proof.
  induction fuel as [|fuel IH]; intros attempt w; [discriminate|].
  destruct (Z.lt_ge_cases maxRetries attempt) as [Hover | Hle].
  - rewrite connect_loop_over by assumption. discriminate.
  - destruct (connect_reply broker (S (connects w))) as [e|] eqn:Hreply.
    + destruct (Z.eq_dec attempt maxRetries) as [-> | Hne].
      * rewrite (connect_round_last fuel w e Hreply). discriminate.
      * rewrite (connect_round_refused fuel attempt w e) by (assumption || lia).
        rewrite outcome_after. apply IH.
    + rewrite connect_round_accepted by assumption. discriminate.
Qed.

End Loop.

Section Retry.
Variable cfg : Config.
Variable broker : Broker.

(** C5.  [connectWithRetry] calls [amqp.connect] at most [maxRetries]
    times.  When the broker refuses [k < maxRetries] calls and accepts the
    next one, the connection of call [k + 1] is returned after [k] refused
    rounds (each: the line with the attempt number, the call, the retry
    line and the constant delay) and the accepted one.  When it refuses
    [maxRetries >= 1] calls, the error of the last call is thrown after
    exactly [maxRetries] calls, with no delay after the last. *)
Theorem connectWithRetry_bounded (maxRetries delayMs : Z) (w : World) :
  let r := connectWithRetry cfg broker maxRetries delayMs w in
  (length (connect_attempts (events r)) <= Z.to_nat maxRetries)%nat
  /\ (forall k : nat,
        Z.of_nat k < maxRetries ->
        refuses broker (connects w) k ->
        connect_reply broker (connects w + S k) = None ->
        outcome r = Return (Conn (connects w + S k))
        /\ events r
           = refused_rounds cfg maxRetries delayMs k (S (connects w)) 1
             ++ accepted_round cfg maxRetries (connects w + S k) (Z.of_nat k + 1)
        /\ length (connect_attempts (events r)) = S k)
  /\ (1 <= maxRetries ->
      refuses broker (connects w) (Z.to_nat maxRetries) ->
      exists e,
        connect_reply broker (connects w + Z.to_nat maxRetries) = Some e
        /\ outcome r = Throw e
        /\ events r
           = refused_rounds cfg maxRetries delayMs (Z.to_nat maxRetries - 1) (S (connects w)) 1
             ++ final_refused_round cfg maxRetries (connects w + Z.to_nat maxRetries) maxRetries
        /\ length (connect_attempts (events r)) = Z.to_nat maxRetries).
Proof.
  unfold connectWithRetry. cbv zeta. split; [apply connect_loop_attempts | split].
  - intros k Hk Hrefused Haccepted.
    destruct (connect_loop_accepts cfg broker maxRetries delayMs k (Z.to_nat maxRetries) 1 w)
      as [Ho Hev]; try assumption; try lia.
    rewrite Ho, Hev. replace (1 + Z.of_nat k) with (Z.of_nat k + 1) by lia.
    repeat split. unfold connect_attempts. rewrite List.filter_app, List.length_app.
    fold (connect_attempts (refused_rounds cfg maxRetries delayMs k (S (connects w)) 1)).
    rewrite refused_rounds_attempts. simpl. lia.
  - intros Hmax Hrefused.
    destruct (connect_loop_exhausted cfg broker maxRetries delayMs (Z.to_nat maxRetries - 1)
                (Z.to_nat maxRetries) 1 w) as (e & He & Ho & Hev); try lia.
    + now replace (S (Z.to_nat maxRetries - 1)) with (Z.to_nat maxRetries) by lia.
    + replace (S (Z.to_nat maxRetries - 1)) with (Z.to_nat maxRetries) in * by lia.
      exists e. rewrite Ho, Hev. repeat split; [exact He|].
      unfold connect_attempts. rewrite List.filter_app, List.length_app.
      fold (connect_attempts
              (refused_rounds cfg maxRetries delayMs (Z.to_nat maxRetries - 1) (S (connects w)) 1)).
      rewrite refused_rounds_attempts. simpl. lia.
Qed.

End Retry.

Import Examples.

Lemma connectWithRetry_bounded_witness :
  Z.of_nat 2 < 10
  /\ refuses refusing_twice 0 2
  /\ connect_reply refusing_twice 3 = None
  /\ outcome (connectWithRetry default_config refusing_twice 10 2000 (start 0)) = Return (Conn 3)
  /\ length (connect_attempts
               (events (connectWithRetry default_config refusing_twice 10 2000 (start 0)))) = 3%nat.
Proof.
  assert (Hr : refuses refusing_twice 0 2).
  { intros i Hi. assert (i = 1 \/ i = 2)%nat as [-> | ->] by lia; discriminate. }
  split; [lia | split; [exact Hr | split; [reflexivity|]]].
  destruct (proj1 (proj2 (connectWithRetry_bounded default_config refusing_twice 10 2000
                            (start 0))) 2%nat ltac:(lia) Hr eq_refl) as (Ho & _ & Hn).
  split; [exact Ho | exact Hn].
Defined.

End ConnectFacts.

(** ** Timestamps and decimal numerals *)

Module DateFacts.
Import Js JsDate.

Lemma digit_char_is_digit (d : Z) : is_digit (digit_char d) = true.
Proof.
  unfold is_digit, digit_char, code.
  assert (H : 0 <= d mod 10 < 10) by (apply Z.mod_pos_bound; lia).
  rewrite N_ascii_embedding by lia.
  apply andb_true_intro. split; apply N.leb_le; lia.
Qed.

Lemma fixed_digits_all_digits (width : nat) (n : Z) : all_digits (fixed_digits width n) = true.
Proof.
  induction width as [|w IH]; [reflexivity|].
  unfold all_digits in *. simpl. now rewrite digit_char_is_digit, IH.
Qed.

Lemma fixed_digits_length (width : nat) (n : Z) : String.length (fixed_digits width n) = width.
Proof. induction width as [|w IH]; simpl; [reflexivity | now rewrite IH]. Qed.

Lemma append_cons (c : ascii) (s1 s2 : string) : String c s1 +:+ s2 = String c (s1 +:+ s2).
Proof. reflexivity. Qed.

Lemma append_nil (s : string) : EmptyString +:+ s = s.
Proof. reflexivity. Qed.

Lemma split_at_append (s1 s2 : string) :
  split_at (String.length s1) (s1 +:+ s2) = Some (s1, s2).
Proof.
  induction s1 as [|c s1 IH]; [reflexivity|].
  rewrite append_cons. simpl. now rewrite IH.
Qed.

Lemma split_at_fixed (width : nat) (n : Z) (rest : string) :
  split_at width (fixed_digits width n +:+ rest) = Some (fixed_digits width n, rest).
Proof.
  rewrite <- (fixed_digits_length width n) at 1. apply split_at_append.
Qed.

Lemma iso_tail (mo d h mi s ms : Z) :
  is_iso_tail
    (fixed_digits 2 mo +:+ "-" +:+ fixed_digits 2 d +:+ "T" +:+ fixed_digits 2 h +:+ ":"
     +:+ fixed_digits 2 mi +:+ ":" +:+ fixed_digits 2 s +:+ "." +:+ fixed_digits 3 ms +:+ "Z")
  = true.
Proof.
  unfold is_iso_tail.
  repeat (rewrite split_at_fixed; rewrite ?append_cons, ?append_nil).
  now rewrite !fixed_digits_all_digits.
Qed.

Lemma is_iso8601_signed (c : ascii) (rest : string) :
  is_digit c = false ->
  ((code c =? 43) || (code c =? 45))%N = true ->
  is_iso8601 (String c rest)
  = match split_at 6 rest with
    | Some (y, String "-" tail) => all_digits y && is_iso_tail tail
    | _ => false
    end.
Proof. intros Hd Hs. unfold is_iso8601. now rewrite Hd, Hs. Qed.

(** [toISOString] writes an ISO-8601 date-time, whatever the clock reads. *)
Lemma toISOString_is_iso8601 (ms : Z) : is_iso8601 (toISOString ms) = true.
Proof.
  unfold toISOString. destruct (civil_from_days (ms / 86400000)) as [[y m] d].
  match goal with
  | |- is_iso8601 (_ +:+ "-" +:+ ?t) = true =>
      assert (Htail : is_iso_tail t = true) by apply iso_tail;
      generalize dependent t; intros tail Htail
  end.
  unfold year_digits. destruct ((0 <=? y) && (y <=? 9999)).
  - unfold is_iso8601.
    change (fixed_digits 4 y) with (String (digit_char (y / 10 ^ 3)) (fixed_digits 3 y)) at 1.
    rewrite append_cons, digit_char_is_digit.
    change (String (digit_char (y / 10 ^ 3)) (fixed_digits 3 y +:+ "-" +:+ tail))
      with (fixed_digits 4 y +:+ "-" +:+ tail).
    now rewrite split_at_fixed, append_cons, append_nil, fixed_digits_all_digits.
  - destruct (y <? 0); rewrite !append_cons, !append_nil;
      rewrite is_iso8601_signed by reflexivity;
      now rewrite split_at_fixed, fixed_digits_all_digits.
Qed.

(** Different integers are written differently. *)
Lemma Number_toString_inj (a b : Z) : Number_toString a = Number_toString b -> a = b.
Proof.
  unfold Number_toString. intros H.
  assert (Hnil : forall z, Z.to_int z <> Decimal.Pos Decimal.Nil
                           /\ Z.to_int z <> Decimal.Neg Decimal.Nil).
  { intros [|p|p]; split; simpl; try discriminate;
      intros [= Hp]; now apply (DecimalPos.Unsigned.to_uint_nonnil p). }
  apply DecimalZ.to_int_inj.
  assert (Some (Z.to_int a) = Some (Z.to_int b)) as [= ->]; [|reflexivity].
  rewrite <- (NilZero.isi (Z.to_int a)), <- (NilZero.isi (Z.to_int b)) by apply Hnil.
  now rewrite H.
Qed.

End DateFacts.

(** ** The publisher *)

Module PublisherFacts.
Import Js JsDate Otel Eff Amqp Publisher Obs EffFacts ConnectFacts DateFacts.
Local Open Scope js_scope.

#[local] Arguments JSON_stringify : simpl never.
#[local] Arguments toISOString : simpl never.
#[local] Arguments Number_toString : simpl never.
#[local] Arguments publish_lines : simpl never.
#[local] Arguments sent : simpl never.

Section TryCatch.
Context {A B : Type}.

Lemma try_catch_bind_return (m : M A) (k : A -> M B) (h : JsError -> M B) (w : World) (a : A) :
  outcome (m w) = Return a ->
  try_catch (bind m k) h w = after (events (m w)) (try_catch (k a) h (world (m w))).
Proof.
  intros H. unfold try_catch. rewrite (bind_return m k w a H). simpl.
  destruct (outcome (k a (world (m w)))); unfold after; simpl; try reflexivity.
  now rewrite app_assoc.
Qed.

Lemma try_catch_bind_throw (m : M A) (k : A -> M B) (h : JsError -> M B) (w : World)
    (e : JsError) :
  outcome (m w) = Throw e ->
  try_catch (bind m k) h w = after (events (m w)) (h e (world (m w))).
Proof. intros H. unfold try_catch. rewrite (bind_throw m k w e H). reflexivity. Qed.

(** The same, for a first part whose result is known. *)
Lemma try_catch_step (m : M A) (k : A -> M B) (h : JsError -> M B) (w w' : World) (a : A)
    (evs : list Event) :
  m w = {| outcome := Return a; world := w'; events := evs |} ->
  try_catch (bind m k) h w = after evs (try_catch (k a) h w').
Proof. intros H. rewrite (try_catch_bind_return m k h w a); now rewrite H. Qed.

Lemma after_nil (r : Result A) : after [] r = r.
Proof. now destruct r. Qed.

End TryCatch.

Lemma published_app (a b : list Event) : published (a ++ b) = published a ++ published b.
Proof. apply List.filter_app. Qed.

Lemma console_errors_app (a b : list Event) :
  console_errors (a ++ b) = console_errors a ++ console_errors b.
Proof. apply List.filter_app. Qed.

Section Run.
Variable cfg : Config.
Variable broker : Broker.
Variable active : Context.

Abbreviation publish := (publishMessageWithBaggage broker active).

(** Publishing message [n] when the broker takes it. *)
Lemma publish_sent (ch : Channel) (n : Z) (w : World) :
  send_reply broker (S (sends w)) = None ->
  publish ch n w
  = {| outcome := Return tt;
       world := {| now := now w; connects := connects w; sends := S (sends w);
                   connection := connection w; channel := channel w |};
       events :=
         publish_lines (now w) n
         ++ [ sent active (now w) n;
              Console Log "   ✅ Message ${messageNumber} published with trace and baggage"
                [ANum n] ] |}.
Proof.
  intros Hreply. unfold publishMessageWithBaggage.
  unfold bind, try_catch, sendToQueue, console_log, console_error, emit, Date_now.
  simpl. rewrite Hreply. reflexivity.
Qed.

(** Publishing message [n] when the broker fails it: the error is logged
    and thrown again. *)
Lemma publish_failed (ch : Channel) (n : Z) (w : World) (e : JsError) :
  send_reply broker (S (sends w)) = Some e ->
  publish ch n w
  = {| outcome := Throw e;
       world := {| now := now w; connects := connects w; sends := S (sends w);
                   connection := connection w; channel := channel w |};
       events :=
         publish_lines (now w) n
         ++ [ Console Err "Error publishing message ${messageNumber}:" [ANum n; AErr e] ] |}.
Proof.
  intros Hreply. unfold publishMessageWithBaggage.
  unfold bind, try_catch, sendToQueue, console_log, console_error, emit, Date_now.
  simpl. rewrite Hreply. reflexivity.
Qed.

(** One round of the loop: the message and the pause. *)
Lemma round_sent (ch : Channel) (n : Z) (w : World) :
  send_reply broker (S (sends w)) = None ->
  (publish ch n ;; sleep 2000) w
  = {| outcome := Return tt;
       world := {| now := now w + 2000; connects := connects w; sends := S (sends w);
                   connection := connection w; channel := channel w |};
       events :=
         publish_lines (now w) n
         ++ [ sent active (now w) n;
              Console Log "   ✅ Message ${messageNumber} published with trace and baggage"
                [ANum n];
              Slept 2000 ] |}.
Proof.
  intros Hreply. unfold bind. rewrite (publish_sent ch n w Hreply).
  cbn [outcome world events after sleep]. reflexivity.
Qed.

Lemma round_failed (ch : Channel) (n : Z) (w : World) (e : JsError) :
  send_reply broker (S (sends w)) = Some e ->
  (publish ch n ;; sleep 2000) w
  = {| outcome := Throw e;
       world := {| now := now w; connects := connects w; sends := S (sends w);
                   connection := connection w; channel := channel w |};
       events :=
         publish_lines (now w) n
         ++ [ Console Err "Error publishing message ${messageNumber}:" [ANum n; AErr e] ] |}.
Proof. intros Hreply. unfold bind. now rewrite (publish_failed ch n w e Hreply). Qed.

Lemma publish_lines_published (t n : Z) : published (publish_lines t n) = [].
Proof. reflexivity. Qed.

Lemma publish_lines_errors (t n : Z) : console_errors (publish_lines t n) = [].
Proof. reflexivity. Qed.

Abbreviation rounds ch := (fun i : Z => publish ch i ;; sleep 2000).

(** The loop from message [i] on, when the broker takes every message. *)
Lemma publish_loop_sent (ch : Channel) (fuel : nat) :
  forall (i : Z) (w : World),
    i + Z.of_nat fuel = 6 ->
    (forall j, (1 <= j <= fuel)%nat -> send_reply broker (sends w + j) = None) ->
    outcome (for_upto fuel i 5 (rounds ch) w) = Return tt
    /\ published (events (for_upto fuel i 5 (rounds ch) w)) = sent_run active fuel (now w) i
    /\ console_errors (events (for_upto fuel i 5 (rounds ch) w)) = [].
Proof.
  induction fuel as [|fuel IH]; intros i w Hi Hsent; [repeat split|].
  simpl for_upto. rewrite (proj2 (Z.leb_le i 5)) by lia.
  assert (H1 : send_reply broker (S (sends w)) = None).
  { rewrite <- Nat.add_1_r. apply Hsent. lia. }
  rewrite (bind_return _ _ w tt) by now rewrite (round_sent ch i w H1).
  rewrite (round_sent ch i w H1). cbn [outcome world events after].
  destruct (IH (i + 1)
              {| now := now w + 2000; connects := connects w; sends := S (sends w);
                 connection := connection w; channel := channel w |})
    as (Ho & Hp & He); [lia | |].
  { intros j Hj. simpl sends. replace (S (sends w) + j)%nat with (sends w + S j)%nat by lia.
    apply Hsent. lia. }
  rewrite Ho, !published_app, !console_errors_app, Hp, He.
  rewrite publish_lines_published, publish_lines_errors. repeat split.
Qed.

(** The loop from message [i] on, when the broker takes [p] messages and
    fails the next one. *)
Lemma publish_loop_failed (ch : Channel) (p : nat) :
  forall (fuel : nat) (i : Z) (w : World) (e : JsError),
    (p < fuel)%nat ->
    i + Z.of_nat fuel = 6 ->
    (forall j, (1 <= j <= p)%nat -> send_reply broker (sends w + j) = None) ->
    send_reply broker (sends w + S p) = Some e ->
    outcome (for_upto fuel i 5 (rounds ch) w) = Throw e
    /\ published (events (for_upto fuel i 5 (rounds ch) w)) = sent_run active p (now w) i
    /\ console_errors (events (for_upto fuel i 5 (rounds ch) w))
       = [ Console Err "Error publishing message ${messageNumber}:"
             [ANum (i + Z.of_nat p); AErr e] ]
    /\ connection (world (for_upto fuel i 5 (rounds ch) w)) = connection w
    /\ channel (world (for_upto fuel i 5 (rounds ch) w)) = channel w.
Proof.
  induction p as [|p IH]; intros fuel i w e Hp Hi Hsent Hfailed;
    (destruct fuel as [|fuel]; [lia|]);
    simpl for_upto; rewrite (proj2 (Z.leb_le i 5)) by lia.
  - rewrite Nat.add_1_r in Hfailed.
    rewrite (bind_throw _ _ w e) by now rewrite (round_failed ch i w e Hfailed).
    rewrite (round_failed ch i w e Hfailed). cbn [outcome world events connection channel].
    rewrite published_app, console_errors_app.
    rewrite publish_lines_published, publish_lines_errors, Z.add_0_r. repeat split.
  - assert (H1 : send_reply broker (S (sends w)) = None).
    { rewrite <- Nat.add_1_r. apply Hsent. lia. }
    rewrite (bind_return _ _ w tt) by now rewrite (round_sent ch i w H1).
    rewrite (round_sent ch i w H1). cbn [outcome world events after].
    destruct (IH fuel (i + 1)
                {| now := now w + 2000; connects := connects w; sends := S (sends w);
                   connection := connection w; channel := channel w |} e)
      as (Ho & Hpub & He & Hc & Hch); [lia | lia | | |].
    { intros j Hj. simpl sends. replace (S (sends w) + j)%nat with (sends w + S j)%nat by lia.
      apply Hsent. lia. }
    { simpl sends. now replace (S (sends w) + S p)%nat with (sends w + S (S p))%nat by lia. }
    rewrite Ho, !published_app, !console_errors_app, Hpub, He, Hc, Hch.
    rewrite publish_lines_published, publish_lines_errors.
    replace (i + 1 + Z.of_nat p) with (i + Z.of_nat (S p)) by lia. repeat split.
Qed.

(** The steps of an entry point before and after its loop. *)
Lemma try_catch_emit {B} (e : Event) (k : unit -> M B) (h : JsError -> M B) (w : World) :
  try_catch (bind (emit e) k) h w = after [e] (try_catch (k tt) h w).
Proof. now apply try_catch_step. Qed.

Lemma try_catch_set_connection {B} (c : Connection) (k : unit -> M B) (h : JsError -> M B)
    (w : World) :
  try_catch (bind (set_connection c) k) h w
  = try_catch (k tt) h
      {| now := now w; connects := connects w; sends := sends w;
         connection := Some c; channel := channel w |}.
Proof. rewrite <- after_nil. now apply try_catch_step. Qed.

Lemma try_catch_set_channel {B} (c : Channel) (k : unit -> M B) (h : JsError -> M B)
    (w : World) :
  try_catch (bind (set_channel c) k) h w
  = try_catch (k tt) h
      {| now := now w; connects := connects w; sends := sends w;
         connection := connection w; channel := Some c |}.
Proof. rewrite <- after_nil. now apply try_catch_step. Qed.

(** A step that throws hands over to the handler. *)
Lemma try_catch_fail {A B} (m : M A) (k : A -> M B) (h : JsError -> M B) (w w' : World)
    (e : JsError) (evs : list Event) :
  m w = {| outcome := Throw e; world := w'; events := evs |} ->
  try_catch (bind m k) h w = after evs (h e w').
Proof. intros H. rewrite (try_catch_bind_throw m k h w e); now rewrite H. Qed.

(** A call the broker accepts, and one it answers with an error. *)
Lemma try_catch_answered {B} (ev : Event) (reply : option JsError) (k : unit -> M B)
    (h : JsError -> M B) (w : World) :
  reply = None ->
  try_catch (bind (emit ev ;; answered reply) k) h w = after [ev] (try_catch (k tt) h w).
Proof. intros ->. now apply try_catch_step. Qed.

Lemma try_catch_refused {B} (ev : Event) (reply : option JsError) (e : JsError)
    (k : unit -> M B) (h : JsError -> M B) (w : World) :
  reply = Some e ->
  try_catch (bind (emit ev ;; answered reply) k) h w = after [ev] (h e w).
Proof. intros ->. now apply try_catch_fail. Qed.

Lemma createChannel_result (c : Connection) (w : World) :
  createChannel broker c w
  = {| outcome :=
         match createChannel_reply broker with
         | None => Return (Chan c)
         | Some e => Throw e
         end;
       world := w;
       events := [CreateChannel] |}.
Proof. unfold createChannel. destruct (createChannel_reply broker); reflexivity. Qed.

Lemma try_catch_createChannel {B} (c : Connection) (k : Channel -> M B) (h : JsError -> M B)
    (w : World) :
  createChannel_reply broker = None ->
  try_catch (bind (createChannel broker c) k) h w
  = after [CreateChannel] (try_catch (k (Chan c)) h w).
Proof. intros H. apply try_catch_step. rewrite createChannel_result, H. reflexivity. Qed.

Lemma try_catch_createChannel_refused {B} (c : Connection) (e : JsError) (k : Channel -> M B)
    (h : JsError -> M B) (w : World) :
  createChannel_reply broker = Some e ->
  try_catch (bind (createChannel broker c) k) h w = after [CreateChannel] (h e w).
Proof. intros H. apply try_catch_fail. rewrite createChannel_result, H. reflexivity. Qed.

(** The [catch] block of an entry point: the error is reported, what has
    been opened is closed, whatever the broker answers to that, and the
    process ends with code 1. *)
Lemma closing_handler (label : string) (e : JsError) (w : World) :
  (console_error label [AErr e] ;;
   let! channel := get_channel in
   when_defined channel (fun ch => catch_ignore (channel_close broker ch)) ;;
   let! connection := get_connection in
   when_defined connection (fun c => catch_ignore (connection_close broker c)) ;;
   @exit unit 1) w
  = {| outcome := Exit 1;
       world := w;
       events := Console Err label [AErr e] :: Trace.closing (channel w) (connection w) |}.
Proof.
  unfold Trace.closing, console_error, get_channel, get_connection, when_defined, catch_ignore,
    channel_close, connection_close, answered, exit, bind, try_catch, emit.
  destruct w as [t c s [cn|] [ch|]]; cbn;
    destruct (channel_close_reply broker), (connection_close_reply broker); reflexivity.
Qed.

Ltac run_prefix :=
  unfold assertQueue, channel_close, connection_close, console_log;
  repeat first
    [ rewrite try_catch_emit
    | rewrite try_catch_set_connection
    | rewrite try_catch_set_channel
    | rewrite try_catch_createChannel by assumption
    | rewrite try_catch_answered by assumption ];
  cbn [now connects sends connection channel].

Ltac observe :=
  unfold published, console_errors in *;
  repeat first
    [ rewrite List.filter_app
    | progress (cbn [List.filter is_published is_console_error app]) ].

(** What [connectWithRetry] leaves when the publisher starts with it. *)
Lemma connected_world (t0 : Z) :
  let r1 := connectWithRetry cfg broker 10 2000 (start t0) in
  sends (world r1) = 0%nat
  /\ connection (world r1) = None
  /\ channel (world r1) = None
  /\ published (events r1) = []
  /\ console_errors (events r1) = []
  /\ (forall c, outcome r1 <> Exit c).
Proof. apply (connect_loop_frame cfg broker 10 2000 (Z.to_nat 10) 1 (start t0)). Qed.

(** The run goes on from the connection [connectWithRetry] returned. *)
Ltac from_connection t0 conn Hconn Hp He :=
  unfold publishMessages;
  rewrite (try_catch_bind_return _ _ _ _ conn Hconn);
  let Hs := fresh "Hs" in
  let Hc := fresh "Hc" in
  let Hch := fresh "Hch" in
  destruct (connected_world t0) as (Hs & Hc & Hch & Hp & He & _); cbv zeta in *;
  clear Hconn;
  generalize dependent (connectWithRetry cfg broker 10 2000 (start t0));
  intros [o1 [t1 c1 s1 cn1 ch1] E1]; cbn [world events sends connection channel now];
  intros -> -> -> Hp He.

(** A run in which the broker takes the five messages and closes. *)
Lemma publishMessages_all_sent (t0 : Z) (conn : Connection) :
  outcome (connectWithRetry cfg broker 10 2000 (start t0)) = Return conn ->
  createChannel_reply broker = None ->
  assertQueue_reply broker = None ->
  (forall j, (1 <= j <= 5)%nat -> send_reply broker j = None) ->
  channel_close_reply broker = None ->
  connection_close_reply broker = None ->
  outcome (publishMessages cfg broker active (start t0)) = Return tt
  /\ published (events (publishMessages cfg broker active (start t0)))
     = sent_run active 5 (now (world (connectWithRetry cfg broker 10 2000 (start t0)))) 1
  /\ console_errors (events (publishMessages cfg broker active (start t0))) = [].
Proof.
  intros Hconn Hcr Haq Hsent Hcc Hnc.
  from_connection t0 conn Hconn Hp He.
  run_prefix.
  match goal with |- context [try_catch _ _ ?w5] =>
    destruct (publish_loop_sent (Chan conn) 5 1 w5) as (Ho & Hpub & Herr);
      [reflexivity | exact Hsent |]
  end.
  rewrite (try_catch_bind_return _ _ _ _ tt Ho). clear Ho.
  cbn [now] in Hpub.
  generalize dependent (for_upto 5 1 5 (rounds (Chan conn))).
  intros loop. generalize (loop {| now := t1; connects := c1; sends := 0;
                                   connection := Some conn; channel := Some (Chan conn) |}).
  intros [o5 w5 E5]. cbn [world events]. intros Hpub Herr.
  run_prefix. cbn [try_catch emit outcome events after app].
  observe. rewrite Hp, He, Hpub, Herr. repeat split.
Qed.

(** A run in which the broker takes the five messages and then fails to
    close the channel or the connection: that error is reported, and the
    process ends with code 1 although every message has gone out. *)
Lemma publishMessages_close_failed (t0 : Z) (conn : Connection) (e : JsError) :
  outcome (connectWithRetry cfg broker 10 2000 (start t0)) = Return conn ->
  createChannel_reply broker = None ->
  assertQueue_reply broker = None ->
  (forall j, (1 <= j <= 5)%nat -> send_reply broker j = None) ->
  channel_close_reply broker = Some e
  \/ (channel_close_reply broker = None /\ connection_close_reply broker = Some e) ->
  outcome (publishMessages cfg broker active (start t0)) = Exit 1
  /\ published (events (publishMessages cfg broker active (start t0)))
     = sent_run active 5 (now (world (connectWithRetry cfg broker 10 2000 (start t0)))) 1
  /\ console_errors (events (publishMessages cfg broker active (start t0)))
     = [Console Err "Error in publisher:" [AErr e]].
Proof.
  intros Hconn Hcr Haq Hsent Hclose.
  from_connection t0 conn Hconn Hp He.
  run_prefix.
  match goal with |- context [try_catch _ _ ?w5] =>
    destruct (publish_loop_sent (Chan conn) 5 1 w5) as (Ho & Hpub & Herr);
      [reflexivity | exact Hsent |]
  end.
  rewrite (try_catch_bind_return _ _ _ _ tt Ho). clear Ho.
  cbn [now] in Hpub.
  generalize dependent (for_upto 5 1 5 (rounds (Chan conn))).
  intros loop. generalize (loop {| now := t1; connects := c1; sends := 0;
                                   connection := Some conn; channel := Some (Chan conn) |}).
  intros [o5 w5 E5]. cbn [world events]. intros Hpub Herr.
  destruct Hclose as [Hcc | [Hcc Hnc]]; run_prefix.
  - rewrite (try_catch_refused _ _ e) by exact Hcc. cbv beta. rewrite closing_handler.
    destruct (channel w5), (connection w5); cbn [outcome events after app Trace.closing];
      (split; [reflexivity|]); split; observe; rewrite ?Hp, ?He, ?Hpub, ?Herr;
      cbn [app]; rewrite ?app_nil_r; reflexivity.
  - rewrite (try_catch_refused _ _ e) by exact Hnc. cbv beta. rewrite closing_handler.
    destruct (channel w5), (connection w5); cbn [outcome events after app Trace.closing];
      (split; [reflexivity|]); split; observe; rewrite ?Hp, ?He, ?Hpub, ?Herr;
      cbn [app]; rewrite ?app_nil_r; reflexivity.
Qed.

(** A run in which the broker takes [p] messages and fails the next one:
    the error is reported, the channel and the connection are closed and
    the process ends with code 1. *)
Lemma publishMessages_send_failed (t0 : Z) (conn : Connection) (p : nat) (e : JsError) :
  outcome (connectWithRetry cfg broker 10 2000 (start t0)) = Return conn ->
  createChannel_reply broker = None ->
  assertQueue_reply broker = None ->
  (p < 5)%nat ->
  (forall j, (1 <= j <= p)%nat -> send_reply broker j = None) ->
  send_reply broker (S p) = Some e ->
  outcome (publishMessages cfg broker active (start t0)) = Exit 1
  /\ published (events (publishMessages cfg broker active (start t0)))
     = sent_run active p (now (world (connectWithRetry cfg broker 10 2000 (start t0)))) 1
  /\ console_errors (events (publishMessages cfg broker active (start t0)))
     = [ Console Err "Error publishing message ${messageNumber}:"
           [ANum (1 + Z.of_nat p); AErr e];
         Console Err "Error in publisher:" [AErr e] ]
  /\ exists before,
       events (publishMessages cfg broker active (start t0))
       = before ++ [Console Err "Error in publisher:" [AErr e]; ChannelClose; ConnectionClose].
Proof.
  intros Hconn Hcr Haq Hp5 Hsent Hfailed.
  from_connection t0 conn Hconn Hp He.
  run_prefix.
  match goal with |- context [try_catch _ _ ?w5] =>
    destruct (publish_loop_failed (Chan conn) p 5 1 w5 e)
      as (Ho & Hpub & Herr & Hcn & Hchn); [exact Hp5 | reflexivity | exact Hsent | exact Hfailed |]
  end.
  rewrite (try_catch_bind_throw _ _ _ _ e Ho). clear Ho.
  cbn [now connection channel] in Hpub, Hcn, Hchn.
  generalize dependent (for_upto 5 1 5 (rounds (Chan conn))).
  intros loop. generalize (loop {| now := t1; connects := c1; sends := 0;
                                   connection := Some conn; channel := Some (Chan conn) |}).
  intros [o5 [t5 c5 s5 cn5 ch5] E5]. cbn [world events connection channel].
  intros Hpub Herr -> ->.
  cbv beta. rewrite closing_handler.
  cbn [outcome events after app connection channel Trace.closing].
  split; [reflexivity|]. split; [|split].
  - observe. now rewrite Hp, Hpub, app_nil_r.
  - observe. now rewrite He, Herr.
  - exists (E1 ++ CreateChannel :: AssertQueue QUEUE_NAME false
                   :: Console Log "Queue '${QUEUE_NAME}' is ready" [AStr QUEUE_NAME] :: E5).
    now rewrite <- app_assoc.
Qed.

(** A run in which no connection is made: the error is reported and the
    process ends with code 1; nothing is published. *)
Lemma publishMessages_not_connected (t0 : Z) (e : JsError) :
  outcome (connectWithRetry cfg broker 10 2000 (start t0)) = Throw e ->
  outcome (publishMessages cfg broker active (start t0)) = Exit 1
  /\ published (events (publishMessages cfg broker active (start t0))) = []
  /\ console_errors (events (publishMessages cfg broker active (start t0)))
     = [Console Err "Error in publisher:" [AErr e]].
Proof.
  intros Hconn. unfold publishMessages.
  rewrite (try_catch_bind_throw _ _ _ _ e Hconn).
  destruct (connected_world t0) as (Hs & Hc & Hch & Hp & He & _). cbv zeta in *.
  clear Hconn.
  generalize dependent (connectWithRetry cfg broker 10 2000 (start t0)).
  intros [o1 [t1 c1 s1 cn1 ch1] E1]. cbn [world events sends connection channel now].
  intros -> -> -> Hp He.
  cbv beta. rewrite closing_handler.
  cbn [outcome events after app connection channel Trace.closing].
  split; [reflexivity|]. split; observe; [now rewrite Hp | now rewrite He].
Qed.

(** A run in which the channel cannot be opened, or the queue cannot be
    declared: the error is reported, what has been opened is closed, and
    the process ends with code 1 before anything is published. *)
Lemma publishMessages_not_set_up (t0 : Z) (conn : Connection) (e : JsError) :
  outcome (connectWithRetry cfg broker 10 2000 (start t0)) = Return conn ->
  createChannel_reply broker = Some e
  \/ (createChannel_reply broker = None /\ assertQueue_reply broker = Some e) ->
  outcome (publishMessages cfg broker active (start t0)) = Exit 1
  /\ published (events (publishMessages cfg broker active (start t0))) = []
  /\ console_errors (events (publishMessages cfg broker active (start t0)))
     = [Console Err "Error in publisher:" [AErr e]]
  /\ events (publishMessages cfg broker active (start t0))
     = events (connectWithRetry cfg broker 10 2000 (start t0))
       ++ match createChannel_reply broker with
          | Some _ =>
              [CreateChannel; Console Err "Error in publisher:" [AErr e]; ConnectionClose]
          | None =>
              [ CreateChannel; AssertQueue QUEUE_NAME false;
                Console Err "Error in publisher:" [AErr e]; ChannelClose; ConnectionClose ]
          end.
Proof.
  intros Hconn Hsetup.
  from_connection t0 conn Hconn Hp He.
  destruct Hsetup as [Hcr | [Hcr Haq]]; rewrite Hcr.
  - run_prefix. rewrite (try_catch_createChannel_refused _ e) by exact Hcr.
    cbv beta. rewrite closing_handler.
    cbn [outcome events after app connection channel Trace.closing].
    split; [reflexivity|]. split; [|split; [|reflexivity]]; observe;
      [now rewrite Hp | now rewrite He].
  - run_prefix. rewrite (try_catch_refused _ _ e) by exact Haq.
    cbv beta. rewrite closing_handler.
    cbn [outcome events after app connection channel Trace.closing].
    split; [reflexivity|]. split; [|split; [|reflexivity]]; observe;
      [now rewrite Hp | now rewrite He].
Qed.

(** *** The messages of a run *)

Lemma sent_baggage (t n : Z) (key : string) :
  match entries (setBaggage active
                   (fold_left (fun b kv => setEntry b (fst kv) (snd kv)) (baggageEntries t n)
                      (default createBaggage (getBaggage active)))) !! key with
  | Some v =>
      (key = "user.id" -> v = "user-" +:+ Number_toString (1000 + n))
      /\ (key = "request.source" -> v = "api-gateway")
      /\ (key = "session.id" -> v = "session-" +:+ Number_toString t)
      /\ (key = "message.number" -> v = Number_toString n)
  | None =>
      key <> "user.id" /\ key <> "request.source" /\ key <> "session.id"
      /\ key <> "message.number"
  end.
Proof.
  unfold entries, setBaggage, baggageEntries, setEntry.
  cbn [ctx_baggage default from_option id fold_left fst snd].
  destruct (decide (key = "message.number")) as [-> | H4].
  { rewrite lookup_insert_eq. repeat split; intros [=]. }
  rewrite lookup_insert_ne by congruence.
  destruct (decide (key = "session.id")) as [-> | H3].
  { rewrite lookup_insert_eq. repeat split; intros [=]. }
  rewrite lookup_insert_ne by congruence.
  destruct (decide (key = "request.source")) as [-> | H2].
  { rewrite lookup_insert_eq. repeat split; intros [=]. }
  rewrite lookup_insert_ne by congruence.
  destruct (decide (key = "user.id")) as [-> | H1].
  { rewrite lookup_insert_eq. repeat split; intros [=]. }
  rewrite lookup_insert_ne by congruence.
  destruct (_ !! key); repeat split; congruence.
Qed.

Lemma sent_is_message (t n : Z) : is_message n (sent active t n).
Proof.
  unfold is_message, sent. eexists _, _. split; [reflexivity|]. split.
  - exists (toISOString t). split; [apply toISOString_is_iso8601 | reflexivity].
  - unfold has_message_baggage.
    pose proof (sent_baggage t n "user.id") as H1.
    pose proof (sent_baggage t n "request.source") as H2.
    pose proof (sent_baggage t n "message.number") as H3.
    destruct (_ !! "user.id") as [v1|]; [|now destruct H1].
    destruct (_ !! "request.source") as [v2|]; [|now destruct H2 as (_ & ? & _)].
    destruct (_ !! "message.number") as [v3|]; [|now destruct H3 as (_ & _ & _ & ?)].
    destruct H1 as (H1 & _). destruct H2 as (_ & H2 & _). destruct H3 as (_ & _ & _ & H3).
    rewrite (H1 eq_refl), (H2 eq_refl), (H3 eq_refl). repeat split.
Qed.

Lemma sent_session_id (t n : Z) :
  session_id (sent active t n) = Some ("session-" +:+ Number_toString t).
Proof.
  unfold session_id, sent. pose proof (sent_baggage t n "session.id") as H.
  destruct (_ !! "session.id") as [v|]; [|now destruct H as (_ & _ & ? & _)].
  destruct H as (_ & _ & H & _). now rewrite (H eq_refl).
Qed.

Lemma sent_run_five (t : Z) :
  sent_run active 5 t 1
  = [ sent active t 1; sent active (t + 2000) 2; sent active (t + 4000) 3;
      sent active (t + 6000) 4; sent active (t + 8000) 5 ].
Proof.
  cbn [sent_run]. repeat (f_equal; try lia).
Qed.

(** A run that returns has connected, has set up the channel and the
    queue, has got every message through and has closed both. *)
Lemma publishMessages_returned (t0 : Z) :
  outcome (publishMessages cfg broker active (start t0)) = Return tt ->
  exists conn,
    outcome (connectWithRetry cfg broker 10 2000 (start t0)) = Return conn
    /\ createChannel_reply broker = None
    /\ assertQueue_reply broker = None
    /\ (forall j, (1 <= j <= 5)%nat -> send_reply broker j = None)
    /\ channel_close_reply broker = None
    /\ connection_close_reply broker = None.
Proof.
  intros Hrun.
  destruct (outcome (connectWithRetry cfg broker 10 2000 (start t0)))
    as [conn | e | c |] eqn:Hconn.
  - exists conn. split; [reflexivity|].
    assert (Hcr : createChannel_reply broker = None).
    { destruct (createChannel_reply broker) as [e|] eqn:Hcr; [|reflexivity].
      destruct (publishMessages_not_set_up t0 conn e Hconn (or_introl Hcr)) as [Ho _].
      congruence. }
    assert (Haq : assertQueue_reply broker = None).
    { destruct (assertQueue_reply broker) as [e|] eqn:Haq; [|reflexivity].
      destruct (publishMessages_not_set_up t0 conn e Hconn (or_intror (conj Hcr Haq)))
        as [Ho _].
      congruence. }
    assert (Hfail : forall p e, (p < 5)%nat ->
              (forall j, (1 <= j <= p)%nat -> send_reply broker j = None) ->
              send_reply broker (S p) = Some e -> False).
    { intros p e Hp Hsent Hfailed.
      destruct (publishMessages_send_failed t0 conn p e Hconn Hcr Haq Hp Hsent Hfailed)
        as [Ho _].
      congruence. }
    assert (Hind : forall p, (p <= 5)%nat -> forall j, (1 <= j <= p)%nat ->
                     send_reply broker j = None).
    { induction p as [|p IH]; intros Hp j Hj; [lia|].
      destruct (Nat.eq_dec j (S p)) as [-> | Hne]; [|apply IH; lia].
      destruct (send_reply broker (S p)) as [e|] eqn:Hreply; [|reflexivity].
      exfalso. apply (Hfail p e); [lia | | exact Hreply]. intros i Hi. apply IH; lia. }
    assert (Hsent : forall j, (1 <= j <= 5)%nat -> send_reply broker j = None).
    { apply (Hind 5%nat). lia. }
    assert (Hcc : channel_close_reply broker = None).
    { destruct (channel_close_reply broker) as [e|] eqn:Hcc; [|reflexivity].
      destruct (publishMessages_close_failed t0 conn e Hconn Hcr Haq Hsent (or_introl Hcc))
        as [Ho _].
      congruence. }
    assert (Hnc : connection_close_reply broker = None).
    { destruct (connection_close_reply broker) as [e|] eqn:Hnc; [|reflexivity].
      destruct (publishMessages_close_failed t0 conn e Hconn Hcr Haq Hsent
                  (or_intror (conj Hcc Hnc))) as [Ho _].
      congruence. }
    auto.
  - destruct (publishMessages_not_connected t0 e Hconn) as [Ho _]. congruence.
  - destruct (connected_world t0) as (_ & _ & _ & _ & _ & Hx). exfalso. exact (Hx c Hconn).
  - exfalso. exact (connect_loop_not_pending cfg broker 10 2000 _ _ _ Hconn).
Qed.

(** The script ends as [publishMessages] does, unless that throws. *)
Lemma main_exit_code (w : World) :
  (forall e, outcome (publishMessages cfg broker active w) <> Throw e) ->
  exit_code (outcome (main cfg broker active w))
  = exit_code (outcome (publishMessages cfg broker active w))
  /\ published (events (main cfg broker active w))
     = published (events (publishMessages cfg broker active w)).
Proof.
  unfold main, bind, console_log, emit, try_catch. cbn [outcome world events].
  generalize (publishMessages cfg broker active w). intros [o w' E]. cbn [outcome events].
  intros Hthrow. destruct o as [[] | e | c |]; [| now destruct (Hthrow e) | |]; split; reflexivity.
Qed.

Lemma session_ids_distinct (t : Z) :
  NoDup [ Some ("session-" +:+ Number_toString t);
          Some ("session-" +:+ Number_toString (t + 2000));
          Some ("session-" +:+ Number_toString (t + 4000));
          Some ("session-" +:+ Number_toString (t + 6000));
          Some ("session-" +:+ Number_toString (t + 8000)) ].
Proof.
  change (NoDup ((fun x => Some ("session-" +:+ Number_toString x))
                   <$> [t; t + 2000; t + 4000; t + 6000; t + 8000])).
  apply NoDup_fmap_2.
  - intros a b [= H]. apply Number_toString_inj. exact H.
  - repeat (apply NoDup_cons; split;
            [rewrite ?not_elem_of_cons, elem_of_nil; repeat split; (lia || tauto)|]).
    apply NoDup_nil; exact I.
Qed.

(** C7, as amended.  Every published message carries the session
    identifier made of the clock reading at the time the message is built,
    beside its user identifier, the source tag and its sequence number as a
    string.  In a run that returns, the five identifiers are those of [t],
    [t + 2000], ... and are pairwise different. *)
Theorem session_id_follows_the_clock (t0 : Z) :
  (forall (ch : Channel) (n : Z) (w : World),
     outcome (publishMessageWithBaggage broker active ch n w) = Return tt ->
     published (events (publishMessageWithBaggage broker active ch n w))
     = [sent active (now w) n]
     /\ session_id (sent active (now w) n) = Some ("session-" +:+ Number_toString (now w))
     /\ carries_message_baggage n (sent active (now w) n))
  /\ (outcome (publishMessages cfg broker active (start t0)) = Return tt ->
      exists t,
        List.map session_id
          (published (events (publishMessages cfg broker active (start t0))))
        = [ Some ("session-" +:+ Number_toString t);
            Some ("session-" +:+ Number_toString (t + 2000));
            Some ("session-" +:+ Number_toString (t + 4000));
            Some ("session-" +:+ Number_toString (t + 6000));
            Some ("session-" +:+ Number_toString (t + 8000)) ]
        /\ NoDup (List.map session_id
                    (published (events (publishMessages cfg broker active (start t0)))))).
Proof.
  split.
  - intros ch n w Hout.
    destruct (send_reply broker (S (sends w))) as [e|] eqn:Hreply.
    { rewrite (publish_failed ch n w e Hreply) in Hout. discriminate Hout. }
    rewrite (publish_sent ch n w Hreply). cbn [events].
    rewrite published_app, publish_lines_published, sent_session_id.
    repeat split.
    destruct (sent_is_message (now w) n) as (text & c & He & _ & Hb).
    exists QUEUE_NAME, text, c. split; [exact He | exact Hb].
  - intros Hrun.
    destruct (publishMessages_returned t0 Hrun) as (conn & Hconn & Hcr & Haq & Hsent & Hcc & Hnc).
    destruct (publishMessages_all_sent t0 conn Hconn Hcr Haq Hsent Hcc Hnc) as (_ & Hpub & _).
    exists (now (world (connectWithRetry cfg broker 10 2000 (start t0)))).
    rewrite Hpub, sent_run_five. cbn [List.map]. rewrite !sent_session_id.
    split; [reflexivity | apply session_ids_distinct].
Qed.

(** C10.  A run that returns has published exactly five messages, those
    of the sequence numbers 1 to 5 in this order, each with the payload
    [{id: n, timestamp: <ISO-8601>, data: "Message n"}] and the baggage
    entries [user.id = "user-" + (1000 + n)], [request.source =
    "api-gateway"] and [message.number = n] in decimal. *)
Theorem successful_run_publishes_five_messages (t0 : Z) :
  outcome (publishMessages cfg broker active (start t0)) = Return tt ->
  Forall2 is_message [1; 2; 3; 4; 5]
    (published (events (publishMessages cfg broker active (start t0)))).
Proof.
  intros Hrun.
  destruct (publishMessages_returned t0 Hrun) as (conn & Hconn & Hcr & Haq & Hsent & Hcc & Hnc).
  destruct (publishMessages_all_sent t0 conn Hconn Hcr Haq Hsent Hcc Hnc) as (_ & Hpub & _).
  rewrite Hpub, sent_run_five. repeat constructor; apply sent_is_message.
Qed.

(** C8, as amended.  Once connected, with the channel open and the queue
    declared: when the broker fails the message after [p] published ones,
    the script ends with exit code 1, the published messages are those [p]
    and no later one (nothing takes them back), the failure is written to
    the console twice and the run ends by closing the channel and the
    connection.  When the broker takes the five messages, the five are
    published; [publishMessages] then returns and the script ends with exit
    code 0 if the channel and the connection close, and the script ends
    with exit code 1, the error of the close reported, if one of the two
    does not. *)
Theorem failed_publish_aborts_the_run (t0 : Z) (conn : Connection) :
  outcome (connectWithRetry cfg broker 10 2000 (start t0)) = Return conn ->
  createChannel_reply broker = None ->
  assertQueue_reply broker = None ->
  (forall (p : nat) (e : JsError),
     (p < 5)%nat ->
     (forall j, (1 <= j <= p)%nat -> send_reply broker j = None) ->
     send_reply broker (S p) = Some e ->
     exit_code (outcome (main cfg broker active (start t0))) = 1
     /\ published (events (main cfg broker active (start t0)))
        = sent_run active p (now (world (connectWithRetry cfg broker 10 2000 (start t0)))) 1
     /\ console_errors (events (publishMessages cfg broker active (start t0)))
        = [ Console Err "Error publishing message ${messageNumber}:"
              [ANum (1 + Z.of_nat p); AErr e];
            Console Err "Error in publisher:" [AErr e] ]
     /\ exists before,
          events (publishMessages cfg broker active (start t0))
          = before
            ++ [Console Err "Error in publisher:" [AErr e]; ChannelClose; ConnectionClose])
  /\ ((forall j, (1 <= j <= 5)%nat -> send_reply broker j = None) ->
      published (events (main cfg broker active (start t0)))
      = sent_run active 5 (now (world (connectWithRetry cfg broker 10 2000 (start t0)))) 1
      /\ match channel_close_reply broker, connection_close_reply broker with
         | None, None =>
             outcome (publishMessages cfg broker active (start t0)) = Return tt
             /\ exit_code (outcome (main cfg broker active (start t0))) = 0
         | Some e, _ | None, Some e =>
             exit_code (outcome (main cfg broker active (start t0))) = 1
             /\ console_errors (events (publishMessages cfg broker active (start t0)))
                = [Console Err "Error in publisher:" [AErr e]]
         end).
Proof.
  intros Hconn Hcr Haq. split.
  - intros p e Hp Hsent Hfailed.
    destruct (publishMessages_send_failed t0 conn p e Hconn Hcr Haq Hp Hsent Hfailed)
      as (Ho & Hpub & Herr & Hend).
    destruct (main_exit_code (start t0)) as [Hcode Hmain]; [rewrite Ho; discriminate|].
    rewrite Hcode, Hmain, Ho. repeat split; assumption.
  - intros Hsent.
    destruct (channel_close_reply broker) as [e|] eqn:Hcc;
      [|destruct (connection_close_reply broker) as [e|] eqn:Hnc].
    + destruct (publishMessages_close_failed t0 conn e Hconn Hcr Haq Hsent (or_introl Hcc))
        as (Ho & Hpub & Herr).
      destruct (main_exit_code (start t0)) as [Hcode Hmain]; [rewrite Ho; discriminate|].
      rewrite Hcode, Hmain, Ho. repeat split; assumption.
    + destruct (publishMessages_close_failed t0 conn e Hconn Hcr Haq Hsent
                  (or_intror (conj Hcc Hnc))) as (Ho & Hpub & Herr).
      destruct (main_exit_code (start t0)) as [Hcode Hmain]; [rewrite Ho; discriminate|].
      rewrite Hcode, Hmain, Ho. repeat split; assumption.
    + destruct (publishMessages_all_sent t0 conn Hconn Hcr Haq Hsent Hcc Hnc) as (Ho & Hpub & _).
      destruct (main_exit_code (start t0)) as [Hcode Hmain]; [rewrite Ho; discriminate|].
      rewrite Hcode, Hmain, Ho. repeat split; assumption.
Qed.

End Run.
Import Examples.

(** C7, as stated, fails: the messages of one run carry different session
    identifiers. *)
Lemma session_id_changes_within_a_run :
  List.map session_id
    (published (events (publishMessages default_config accepting ROOT_CONTEXT
                          (start 1700000000000))))
  = [ Some "session-1700000000000"; Some "session-1700000002000";
      Some "session-1700000004000"; Some "session-1700000006000";
      Some "session-1700000008000" ].
Proof. vm_compute. reflexivity. Qed.

Lemma accepting_run_returns :
  outcome (publishMessages default_config accepting ROOT_CONTEXT (start 1700000000000))
  = Return tt.
Proof. vm_compute. reflexivity. Qed.

Lemma session_id_follows_the_clock_witness :
  outcome (publishMessages default_config accepting ROOT_CONTEXT (start 1700000000000))
  = Return tt
  /\ NoDup (List.map session_id
              (published (events (publishMessages default_config accepting ROOT_CONTEXT
                                    (start 1700000000000))))).
Proof.
  split; [exact accepting_run_returns|].
  destruct (proj2 (session_id_follows_the_clock default_config accepting ROOT_CONTEXT
                     1700000000000) accepting_run_returns) as (t & _ & H).
  exact H.
Defined.

Lemma successful_run_publishes_five_messages_witness :
  outcome (publishMessages default_config accepting ROOT_CONTEXT (start 1700000000000))
  = Return tt
  /\ Forall2 is_message [1; 2; 3; 4; 5]
       (published (events (publishMessages default_config accepting ROOT_CONTEXT
                             (start 1700000000000)))).
Proof.
  split; [exact accepting_run_returns|].
  exact (successful_run_publishes_five_messages default_config accepting ROOT_CONTEXT
           1700000000000 accepting_run_returns).
Defined.

(** C8, as stated, fails: the five publishes succeed, the connection then
    fails to close, and the script ends with exit code 1; the one error
    written is that of the close. *)
Lemma failed_close_after_five_messages :
  length (published (events (main default_config failing_to_close ROOT_CONTEXT (start 0))))
  = 5%nat
  /\ console_errors (events (main default_config failing_to_close ROOT_CONTEXT (start 0)))
     = [Console Err "Error in publisher:" [AErr (Error "Connection closed")]]
  /\ exit_code (outcome (main default_config failing_to_close ROOT_CONTEXT (start 0))) = 1.
Proof. repeat split; vm_compute; reflexivity. Qed.

Lemma failing_third_connects :
  outcome (connectWithRetry default_config failing_third 10 2000 (start 0)) = Return (Conn 1).
Proof. reflexivity. Qed.

Lemma failed_publish_aborts_the_run_witness :
  outcome (connectWithRetry default_config failing_third 10 2000 (start 0)) = Return (Conn 1)
  /\ send_reply failing_third 3 = Some (Error "Channel closed")
  /\ exit_code (outcome (main default_config failing_third ROOT_CONTEXT (start 0))) = 1
  /\ length (published (events (main default_config failing_third ROOT_CONTEXT (start 0))))
     = 2%nat.
Proof.
  split; [exact failing_third_connects | split; [reflexivity|]].
  destruct (proj1 (failed_publish_aborts_the_run default_config failing_third ROOT_CONTEXT 0
                     (Conn 1) failing_third_connects eq_refl eq_refl)
              2%nat (Error "Channel closed"))
    as (Hcode & Hpub & _).
  - lia.
  - intros j Hj. assert (j = 1 \/ j = 2)%nat as [-> | ->] by lia; reflexivity.
  - reflexivity.
  - split; [exact Hcode | now rewrite Hpub].
Defined.

End PublisherFacts.

(** ** [connectWithRetry] without attempts *)

Module ConnectMore.
Import Js JsDate Otel Eff Amqp Obs EffFacts ConnectFacts.
Local Open Scope js_scope.

Section Retry.
Variable cfg : Config.
Variable broker : Broker.

(** X1.  With [maxRetries] at 0 or below, [connectWithRetry] does not call
    [amqp.connect] at all: the loop is not entered and the error after it
    is thrown at once. *)
Theorem connectWithRetry_without_attempts (maxRetries delayMs : Z) (w : World) :
  maxRetries <= 0 ->
  connectWithRetry cfg broker maxRetries delayMs w
  = {| outcome := Throw (Error "Failed to connect to RabbitMQ"); world := w; events := [] |}.
Proof.
  intros H. unfold connectWithRetry.
  destruct (Z.to_nat maxRetries) as [|fuel]; [reflexivity|].
  apply connect_loop_over. lia.
Qed.

End Retry.

Import Examples.

Lemma connectWithRetry_without_attempts_witness :
  0 <= 0
  /\ connect_attempts (events (connectWithRetry default_config accepting 0 2000 (start 0))) = [].
Proof.
  split; [lia|].
  rewrite (connectWithRetry_without_attempts default_config accepting 0 2000 (start 0)); [|lia].
  reflexivity.
Defined.

End ConnectMore.

(** ** [JSON.parse] after [JSON.stringify] *)

Module JsonFacts.
Import Js JsonText.

#[local] Arguments Number_toString : simpl never.

(** *** The lexer on the text of one token *)

Lemma lex_cons (st : LexState) (c : ascii) (rest : string) :
  lex st (String c rest)
  = match lex_step st c with
    | Some (toks, st') => more ← lex st' rest; Some (toks ++ more)
    | None => None
    end.
Proof. reflexivity. Qed.

Lemma lex_escape_char (c : ascii) (acc : list ascii) (rest : string) :
  lex (LStr acc) (escape_char c +:+ rest) = lex (LStr (c :: acc)) rest.
Proof.
  destruct c as [b0 b1 b2 b3 b4 b5 b6 b7].
  destruct b0, b1, b2, b3, b4, b5, b6, b7;
    cbv -[lex]; repeat (rewrite lex_cons; cbv -[lex]);
    destruct (lex _ rest); reflexivity.
Qed.

Lemma bind_nil (x : option (list Token)) : (more ← x; Some ([] ++ more)) = x.
Proof. now destruct x. Qed.

Lemma append_String (c : ascii) (a b : string) : String c a +:+ b = String c (a +:+ b).
Proof. reflexivity. Qed.

Lemma append_assoc (a b c : string) : (a +:+ b) +:+ c = a +:+ (b +:+ c).
Proof. induction a as [|x a IH]; [reflexivity|]. now rewrite !append_String, IH. Qed.

Lemma append_empty (a : string) : a +:+ EmptyString = a.
Proof. induction a as [|x a IH]; [reflexivity|]. now rewrite append_String, IH. Qed.

Lemma lex_escape (s : string) :
  forall (acc : list ascii) (rest : string),
    lex (LStr acc) (escape s +:+ rest)
    = lex (LStr (List.rev (list_ascii_of_string s) ++ acc)) rest.
Proof.
  induction s as [|c s IH]; intros acc rest; [reflexivity|].
  cbn [escape list_ascii_of_string List.rev]. rewrite append_assoc, lex_escape_char, IH.
  now rewrite <- app_assoc.
Qed.

(** A quoted string is one token, whatever its characters. *)
Lemma lex_quote (s rest : string) :
  lex LDefault (quote s +:+ rest) = more ← lex LDefault rest; Some (TString s :: more).
Proof.
  unfold quote. rewrite append_String, lex_cons.
  change (lex_step LDefault dquote) with (Some ([] : list Token, LStr [])).
  cbv beta iota. rewrite bind_nil, append_assoc, lex_escape, append_String, lex_cons.
  rewrite app_nil_r.
  change (lex_step (LStr ?a) dquote) with (Some ([TString (string_of_rev a)], LDefault)).
  cbv beta iota. unfold string_of_rev.
  now rewrite rev_involutive, string_of_list_ascii_of_string.
Qed.

(** *** Numerals *)

Abbreviation digits_of u := (list_ascii_of_string (NilEmpty.string_of_uint u)).

Lemma span_digits_uint (u : Decimal.uint) : span_digits (digits_of u) = (digits_of u, []).
Proof. induction u; cbn [NilEmpty.string_of_uint list_ascii_of_string span_digits];
         [reflexivity | change (is_digit _) with true; cbv iota; now rewrite IHu ..]. Qed.

Lemma digits_value_acc (u : Decimal.uint) :
  forall a : positive,
    fold_left (fun acc c => 10 * acc + Z.of_N (code c - 48)) (digits_of u) (Z.pos a)
    = Z.pos (Pos.of_uint_acc u a).
Proof.
  induction u; intros a; cbn [NilEmpty.string_of_uint list_ascii_of_string fold_left Pos.of_uint_acc];
    [reflexivity | rewrite <- IHu; f_equal; cbn; lia ..].
Qed.

Lemma digits_value_uint (u : Decimal.uint) : digits_value (digits_of u) = Z.of_N (Pos.of_uint u).
Proof.
  unfold digits_value.
  induction u; cbn [NilEmpty.string_of_uint list_ascii_of_string fold_left Pos.of_uint];
    [reflexivity | exact IHu | apply digits_value_acc ..].
Qed.

Lemma unorm_D0 (u u' : Decimal.uint) : Decimal.unorm u = Decimal.D0 u' -> u' = Decimal.Nil.
Proof.
  induction u; cbn [Decimal.unorm Decimal.nzhead]; intros H; try discriminate H.
  - now injection H.
  - apply IHu. exact H.
Qed.

Lemma to_uint_norm (p : positive) : Decimal.unorm (Pos.to_uint p) = Pos.to_uint p.
Proof.
  rewrite <- (DecimalPos.Unsigned.to_of (Pos.to_uint p)).
  now rewrite DecimalPos.Unsigned.of_to.
Qed.

Lemma int_part_ok_uint (u : Decimal.uint) :
  Decimal.unorm u = u -> int_part_ok (digits_of u) = true.
Proof.
  intros H. destruct u; cbn [NilEmpty.string_of_uint list_ascii_of_string int_part_ok];
    try (destruct (list_ascii_of_string _); reflexivity).
  - discriminate H.
  - apply unorm_D0 in H. subst u. reflexivity.
Qed.

Lemma digits_of_cons (u : Decimal.uint) :
  u <> Decimal.Nil ->
  exists c rest, digits_of u = c :: rest /\ is_digit c = true.
Proof. destruct u; [congruence | eexists _, _; split; reflexivity ..]. Qed.

(** The digits of a normal numeral, with or without a sign in front, are
    the literal of its number. *)
Lemma number_of_digits (u : Decimal.uint) :
  Decimal.unorm u = u ->
  number_of_literal (digits_of u) = Some (JNumber (Z.of_N (Pos.of_uint u)))
  /\ number_of_literal (ascii_of_N 45 :: digits_of u)
     = Some (JNumber (- Z.of_N (Pos.of_uint u))).
Proof.
  intros H. assert (Hnil : u <> Decimal.Nil).
  { rewrite <- H. apply DecimalFacts.unorm_nonnil. }
  destruct (digits_of_cons u Hnil) as (c & rest & Hc & Hd).
  unfold number_of_literal. split.
  - rewrite Hc. assert (Hm : (code c =? 45)%N = false).
    { unfold is_digit in Hd. apply N.eqb_neq. intros E. rewrite E in Hd. discriminate Hd. }
    rewrite Hm, <- Hc, span_digits_uint, (int_part_ok_uint u H).
    cbn [frac_part exp_part orb]. now rewrite digits_value_uint.
  - change (code (ascii_of_N 45) =? 45)%N with true. cbv iota.
    rewrite span_digits_uint, (int_part_ok_uint u H).
    cbn [frac_part exp_part orb]. now rewrite digits_value_uint.
Qed.

Lemma Number_toString_cases (n : Z) :
  exists u,
    Decimal.unorm u = u
    /\ ((Number_toString n = NilEmpty.string_of_uint u /\ n = Z.of_N (Pos.of_uint u))
        \/ (Number_toString n = String (ascii_of_N 45) (NilEmpty.string_of_uint u)
            /\ n = - Z.of_N (Pos.of_uint u))).
Proof.
  unfold Number_toString. destruct n as [|p|p]; cbn [Z.to_int NilZero.string_of_int].
  - exists (Decimal.D0 Decimal.Nil). split; [reflexivity | left; split; reflexivity].
  - exists (Pos.to_uint p). split; [apply to_uint_norm | left].
    rewrite DecimalPos.Unsigned.of_to. split; [|reflexivity].
    unfold NilZero.string_of_uint. pose proof (DecimalPos.Unsigned.to_uint_nonnil p).
    destruct (Pos.to_uint p); [congruence | reflexivity ..].
  - exists (Pos.to_uint p). split; [apply to_uint_norm | right].
    rewrite DecimalPos.Unsigned.of_to. split; [|reflexivity].
    unfold NilZero.string_of_uint. pose proof (DecimalPos.Unsigned.to_uint_nonnil p).
    destruct (Pos.to_uint p); [congruence | reflexivity ..].
Qed.

(** [JSON.parse] reads the digits [Number.prototype.toString] writes. *)
Lemma number_of_Number_toString (n : Z) :
  number_of_literal (list_ascii_of_string (Number_toString n)) = Some (JNumber n).
Proof.
  destruct (Number_toString_cases n) as (u & Hu & [[-> ->] | [-> ->]]).
  - apply (number_of_digits u Hu).
  - apply (number_of_digits u Hu).
Qed.

Lemma lex_digits (u : Decimal.uint) :
  forall (acc : list ascii) (rest : string),
    lex (LNum acc) (NilEmpty.string_of_uint u +:+ rest)
    = lex (LNum (List.rev (digits_of u) ++ acc)) rest.
Proof.
  induction u; intros acc rest; [reflexivity | ..];
    cbn [NilEmpty.string_of_uint]; rewrite append_String, lex_cons;
    cbn [lex_step]; change (is_num_char _) with true; cbv iota;
    rewrite bind_nil, IHu; cbn [list_ascii_of_string List.rev]; now rewrite <- app_assoc.
Qed.

Lemma closes_cases (rest : string) :
  closes rest ->
  rest = EmptyString
  \/ exists r, rest = String "," r \/ rest = String "]" r \/ rest = String "}" r.
Proof.
  intros [-> | (c & r & -> & [-> | [-> | ->]])]; [now left | right; exists r; auto ..].
Qed.

(** A number ends where a comma, a bracket, a brace or the end follows. *)
Lemma lex_number_end (acc : list ascii) (v : JsValue) (rest : string) :
  number_of_literal (List.rev acc) = Some v ->
  closes rest ->
  lex (LNum acc) rest = more ← lex LDefault rest; Some (TValue v :: more).
Proof.
  intros Hv Hrest.
  destruct (closes_cases rest Hrest) as [-> | (r & [-> | [-> | ->]])].
  - cbn [lex lex_end]. rewrite Hv. reflexivity.
  - rewrite !lex_cons. cbn [lex_step]. change (is_num_char ",") with false. cbv iota.
    rewrite Hv. change (lex_default ",") with (Some ([TComma], LDefault)). cbv iota beta.
    destruct (lex LDefault r); reflexivity.
  - rewrite !lex_cons. cbn [lex_step]. change (is_num_char "]") with false. cbv iota.
    rewrite Hv. change (lex_default "]") with (Some ([TRBracket], LDefault)). cbv iota beta.
    destruct (lex LDefault r); reflexivity.
  - rewrite !lex_cons. cbn [lex_step]. change (is_num_char "}") with false. cbv iota.
    rewrite Hv. change (lex_default "}") with (Some ([TRBrace], LDefault)). cbv iota beta.
    destruct (lex LDefault r); reflexivity.
Qed.

Lemma lex_word_end (acc : list ascii) (v : JsValue) (rest : string) :
  word_value (string_of_rev acc) = Some v ->
  closes rest ->
  lex (LWord acc) rest = more ← lex LDefault rest; Some (TValue v :: more).
Proof.
  intros Hv Hrest.
  destruct (closes_cases rest Hrest) as [-> | (r & [-> | [-> | ->]])].
  - cbn [lex lex_end]. rewrite Hv. reflexivity.
  - rewrite !lex_cons. cbn [lex_step]. change (is_lower ",") with false. cbv iota.
    rewrite Hv. change (lex_default ",") with (Some ([TComma], LDefault)). cbv iota beta.
    destruct (lex LDefault r); reflexivity.
  - rewrite !lex_cons. cbn [lex_step]. change (is_lower "]") with false. cbv iota.
    rewrite Hv. change (lex_default "]") with (Some ([TRBracket], LDefault)). cbv iota beta.
    destruct (lex LDefault r); reflexivity.
  - rewrite !lex_cons. cbn [lex_step]. change (is_lower "}") with false. cbv iota.
    rewrite Hv. change (lex_default "}") with (Some ([TRBrace], LDefault)). cbv iota beta.
    destruct (lex LDefault r); reflexivity.
Qed.

Lemma lex_Number_toString (n : Z) : lexes (Number_toString n) [TValue (JNumber n)].
Proof.
  intros rest Hrest. pose proof (number_of_Number_toString n) as Hn.
  destruct (Number_toString_cases n) as (u & Hu & [[Hs _] | [Hs _]]); rewrite Hs in *.
  - assert (Hnil : u <> Decimal.Nil) by (rewrite <- Hu; apply DecimalFacts.unorm_nonnil).
    destruct u; try congruence;
      cbn [NilEmpty.string_of_uint] in *; rewrite append_String, lex_cons;
      cbn [lex_step]; 
      match goal with |- context [lex_default ?c] =>
        change (lex_default c) with (Some ([] : list Token, LNum [c])) end;
      cbv iota beta; rewrite bind_nil, lex_digits;
      (rewrite (lex_number_end _ (JNumber n)); [reflexivity | | exact Hrest]);
      cbn [list_ascii_of_string] in Hn; rewrite rev_app_distr, rev_involutive; exact Hn.
  - rewrite append_String, lex_cons. cbn [lex_step].
    change (lex_default (ascii_of_N 45)) with (Some ([] : list Token, LNum [ascii_of_N 45])).
    cbv iota beta. rewrite bind_nil, lex_digits.
    rewrite (lex_number_end _ (JNumber n)); [reflexivity | | exact Hrest].
    cbn [list_ascii_of_string] in Hn. rewrite rev_app_distr, rev_involutive. exact Hn.
Qed.

(** *** The lexer on the text of a value *)

Lemma closes_comma (r : string) : closes (String "," r).
Proof. right. exists ","%char, r. auto. Qed.

Lemma closes_bracket (r : string) : closes (String "]" r).
Proof. right. exists "]"%char, r. auto. Qed.

Lemma closes_brace (r : string) : closes (String "}" r).
Proof. right. exists "}"%char, r. auto. Qed.

Lemma lex_punctuation (c : ascii) (t : Token) (rest : string) :
  lex_default c = Some ([t], LDefault) ->
  lex LDefault (String c rest) = more ← lex LDefault rest; Some (t :: more).
Proof. intros H. rewrite lex_cons. cbn [lex_step]. now rewrite H. Qed.

(** Texts separated by commas give their tokens separated by commas. *)
Lemma lexes_join (parts : list (string * list Token)) :
  Forall (fun p => lexes (fst p) (snd p)) parts ->
  lexes (join "," (List.map fst parts)) (sep_tokens (List.map snd parts)).
Proof.
  induction 1 as [|[s ts] parts Hp _ IH]; intros rest Hrest.
  - cbn [List.map join sep_tokens]. now rewrite bind_nil.
  - destruct parts as [|q parts].
    + cbn [List.map join sep_tokens fst snd]. now apply Hp.
    + change (join "," (List.map fst ((s, ts) :: q :: parts)))
        with (s +:+ "," +:+ join "," (List.map fst (q :: parts))).
      change (sep_tokens (List.map snd ((s, ts) :: q :: parts)))
        with (ts ++ TComma :: sep_tokens (List.map snd (q :: parts))).
      rewrite !append_assoc, append_String.
      rewrite (Hp _ (closes_comma _)). cbn [fst snd].
      rewrite (lex_punctuation "," TComma) by reflexivity.
      change (EmptyString +:+ ?x) with x.
      rewrite (IH rest Hrest).
      change (EmptyString +:+ rest) with rest.
    destruct (lex LDefault rest); cbn; [rewrite <- ?app_assoc; reflexivity | reflexivity].
Qed.

Lemma lexes_value (v : JsValue) : plain v = true -> lexes (JSON_stringify v) (tokens_of v).
Proof.
  induction v as [| b | n | s | s | items IH | props IH] using JsValue_nested_ind;
    intros Hplain.
  - intros rest Hrest. cbn [JSON_stringify tokens_of]. rewrite !append_String.
    do 4 (rewrite lex_cons; cbn [lex_step]; 
          first [ progress change (lex_default "n") with (Some ([] : list Token, LWord ["n"%char]))
                | progress change (is_lower _) with true ]; cbv iota beta; rewrite bind_nil).
    change (EmptyString +:+ rest) with rest.
    now rewrite (lex_word_end _ JNull) by (reflexivity || assumption).
  - intros rest Hrest. destruct b; cbn [JSON_stringify tokens_of]; rewrite !append_String.
    + do 4 (rewrite lex_cons; cbn [lex_step]; 
            first [ progress change (lex_default "t") with (Some ([] : list Token, LWord ["t"%char]))
                  | progress change (is_lower _) with true ]; cbv iota beta; rewrite bind_nil).
      change (EmptyString +:+ rest) with rest.
      now rewrite (lex_word_end _ (JBool true)) by (reflexivity || assumption).
    + do 5 (rewrite lex_cons; cbn [lex_step]; 
            first [ progress change (lex_default "f") with (Some ([] : list Token, LWord ["f"%char]))
                  | progress change (is_lower _) with true ]; cbv iota beta; rewrite bind_nil).
      change (EmptyString +:+ rest) with rest.
      now rewrite (lex_word_end _ (JBool false)) by (reflexivity || assumption).
  - apply lex_Number_toString.
  - discriminate Hplain.
  - intros rest _. apply lex_quote.
  - intros rest Hrest. cbn [JSON_stringify tokens_of].
    rewrite !append_assoc, !append_String.
    rewrite (lex_punctuation "[" TLBracket) by reflexivity.
    change (EmptyString +:+ ?x) with x.
    assert (Hparts : lexes (join "," (List.map JSON_stringify items))
                       (sep_tokens (List.map tokens_of items))).
    { cbn [plain] in Hplain. rewrite forallb_forall in Hplain.
      pose proof (lexes_join (List.map (fun v => (JSON_stringify v, tokens_of v)) items)) as H.
      rewrite !List.map_map in H. cbn [fst snd] in H. apply H.
      apply List.Forall_map. rewrite List.Forall_forall in *. intros v Hv. cbn [fst snd].
      apply IH; [exact Hv | apply Hplain, Hv]. }
    rewrite (Hparts _ (closes_bracket _)).
    rewrite (lex_punctuation "]" TRBracket) by reflexivity.
    change (EmptyString +:+ rest) with rest.
    destruct (lex LDefault rest); cbn; [rewrite <- ?app_assoc; reflexivity | reflexivity].
  - intros rest Hrest. cbn [JSON_stringify tokens_of].
    rewrite !append_assoc, !append_String.
    rewrite (lex_punctuation "{" TLBrace) by reflexivity.
    change (EmptyString +:+ ?x) with x.
    assert (Hparts :
      lexes (join "," (List.map (fun kv => quote (fst kv) +:+ ":" +:+ JSON_stringify (snd kv)) props))
        (sep_tokens (List.map (fun kv => TString (fst kv) :: TColon :: tokens_of (snd kv)) props))).
    { cbn [plain] in Hplain. apply andb_prop in Hplain as [Hplain _].
      rewrite forallb_forall in Hplain.
      pose proof (lexes_join
                    (List.map (fun kv => (quote (fst kv) +:+ ":" +:+ JSON_stringify (snd kv),
                                          TString (fst kv) :: TColon :: tokens_of (snd kv)))
                       props)) as H.
      rewrite !List.map_map in H. cbn [fst snd] in H. apply H.
      apply List.Forall_map. rewrite List.Forall_forall in *. intros kv Hkv. cbn [fst snd].
      intros tail Htail. rewrite !append_assoc, lex_quote, append_String.
      rewrite (lex_punctuation ":" TColon) by reflexivity.
      change (EmptyString +:+ ?x) with x.
      rewrite (IH kv Hkv (Hplain kv Hkv) tail Htail).
      destruct (lex LDefault tail); reflexivity. }
    rewrite (Hparts _ (closes_brace _)).
    rewrite (lex_punctuation "}" TRBrace) by reflexivity.
    change (EmptyString +:+ rest) with rest.
    destruct (lex LDefault rest); cbn; [rewrite <- ?app_assoc; reflexivity | reflexivity].
Qed.

(** *** The parser on the tokens of a value *)

Lemma obj_set_fresh (props : list (string * JsValue)) (k : string) (v : JsValue) :
  k ∉ List.map fst props -> obj_set props k v = props ++ [(k, v)].
Proof.
  induction props as [|[k' v'] props IH]; intros Hk; [reflexivity|].
  cbn [List.map fst] in Hk. apply not_elem_of_cons in Hk as [Hne Hk].
  cbn [obj_set app]. rewrite (proj2 (String.eqb_neq k' k)) by congruence.
  now rewrite IH.
Qed.

Lemma reads_scalar (v : JsValue) (t : Token) :
  tokens_of v = [t] -> (forall stack, open_value stack t = Some (close_value stack v)) -> reads v.
Proof.
  intros Ht Hopen stack e rest He. rewrite Ht. cbn [app parse_tokens].
  assert (Hstep : parse_step stack e t = open_value stack t).
  { destruct He as [-> | ->]; [reflexivity|].
    destruct v; try discriminate Ht; injection Ht as <-; reflexivity. }
  rewrite Hstep, Hopen. now destruct (close_value stack v).
Qed.

Lemma reads_items (items : list JsValue) :
  Forall reads items ->
  forall stack done e rest,
    items <> [] ->
    e = EValue \/ e = EValueOrClose ->
    parse_tokens (InArray done :: stack) e
      (sep_tokens (List.map tokens_of items) ++ TRBracket :: rest)
    = parse_tokens (fst (close_value stack (JArray (List.rev done ++ items))))
        (snd (close_value stack (JArray (List.rev done ++ items)))) rest.
Proof.
  induction 1 as [|v items Hv _ IH]; intros stack done e rest Hne He; [congruence|].
  destruct items as [|v' items].
  - cbn [List.map sep_tokens]. rewrite (Hv _ _ _ He). cbn [close_value fst snd parse_tokens parse_step].
    cbn [List.rev]. now destruct (close_value stack _).
  - change (sep_tokens (List.map tokens_of (v :: v' :: items)))
      with (tokens_of v ++ TComma :: sep_tokens (List.map tokens_of (v' :: items))).
    rewrite <- app_assoc. rewrite (Hv _ _ _ He).
    cbn [close_value fst snd app parse_tokens parse_step].
    rewrite (IH stack (v :: done) EValue rest) by (congruence || auto).
    cbn [List.rev]. now rewrite <- app_assoc.
Qed.

Lemma reads_props (props : list (string * JsValue)) :
  Forall (fun kv => reads (snd kv)) props ->
  forall stack acc key e rest,
    props <> [] ->
    e = EKey \/ e = EKeyOrClose ->
    NoDup (List.map fst (acc ++ props)) ->
    parse_tokens (InObject acc key :: stack) e
      (sep_tokens (List.map (fun kv => TString (fst kv) :: TColon :: tokens_of (snd kv)) props)
       ++ TRBrace :: rest)
    = parse_tokens (fst (close_value stack (JObject (acc ++ props))))
        (snd (close_value stack (JObject (acc ++ props)))) rest.
Proof.
  induction 1 as [|[k v] props Hv _ IH]; intros stack acc key e rest Hne He Hdup; [congruence|].
  assert (Hfresh : obj_set acc k v = acc ++ [(k, v)]).
  { apply obj_set_fresh. rewrite List.map_app in Hdup. apply NoDup_app in Hdup as (_ & Hd & _).
    intros Hin. apply (Hd k Hin). cbn [List.map fst]. apply elem_of_cons. now left. }
  assert (Hkey : parse_step (InObject acc key :: stack) e (TString k)
                 = Some (InObject acc key :: stack, EColon k)).
  { destruct He as [-> | ->]; reflexivity. }
  cbn [fst snd] in Hv.
  destruct props as [|kv' props].
  - cbn [List.map sep_tokens fst snd app parse_tokens]. rewrite Hkey.
    cbn [parse_tokens parse_step]. rewrite (Hv _ _ _ (or_introl eq_refl)).
    cbn [close_value fst snd parse_tokens parse_step]. rewrite Hfresh.
    now destruct (close_value stack _).
  - change (sep_tokens
              (List.map (fun kv => TString (fst kv) :: TColon :: tokens_of (snd kv))
                 ((k, v) :: kv' :: props)))
      with ((TString k :: TColon :: tokens_of v)
            ++ TComma
               :: sep_tokens
                    (List.map (fun kv => TString (fst kv) :: TColon :: tokens_of (snd kv))
                       (kv' :: props))).
    rewrite <- app_assoc. cbn [app parse_tokens]. rewrite Hkey.
    cbn [parse_tokens parse_step]. rewrite (Hv _ _ _ (or_introl eq_refl)).
    cbn [close_value fst snd parse_tokens parse_step]. rewrite Hfresh.
    rewrite (IH stack (acc ++ [(k, v)]) k EKey rest); [| congruence | auto |].
    + now rewrite <- app_assoc.
    + now rewrite <- app_assoc.
Qed.

Lemma reads_value (v : JsValue) : plain v = true -> reads v.
Proof.
  induction v as [| b | n | s | s | items IH | props IH] using JsValue_nested_ind;
    intros Hplain.
  - now apply (reads_scalar _ (TValue JNull)).
  - now apply (reads_scalar _ (TValue (JBool b))).
  - now apply (reads_scalar _ (TValue (JNumber n))).
  - discriminate Hplain.
  - now apply (reads_scalar _ (TString s)).
  - intros stack e rest He. cbn [tokens_of app parse_tokens].
    assert (Hopen : parse_step stack e TLBracket = Some (InArray [] :: stack, EValueOrClose)).
    { destruct He as [-> | ->]; reflexivity. }
    rewrite Hopen. destruct items as [|v items].
    + cbn [List.map sep_tokens app parse_tokens parse_step List.rev].
      now destruct (close_value stack _).
    + rewrite <- app_assoc. cbn [app].
      rewrite (reads_items (v :: items)); [reflexivity | | congruence | auto].
      cbn [plain] in Hplain. rewrite forallb_forall in Hplain.
      rewrite List.Forall_forall in *. intros x Hx. apply IH; [exact Hx | apply Hplain, Hx].
  - intros stack e rest He. cbn [tokens_of app parse_tokens].
    assert (Hopen : parse_step stack e TLBrace
                    = Some (InObject [] EmptyString :: stack, EKeyOrClose)).
    { destruct He as [-> | ->]; reflexivity. }
    rewrite Hopen. destruct props as [|kv props].
    + cbn [List.map sep_tokens app parse_tokens parse_step].
      now destruct (close_value stack _).
    + rewrite <- app_assoc. cbn [app].
      cbn [plain] in Hplain. apply andb_prop in Hplain as [Hplain Hdup].
      rewrite forallb_forall in Hplain. apply bool_decide_eq_true in Hdup.
      rewrite (reads_props (kv :: props)); [reflexivity | | congruence | auto | exact Hdup].
      rewrite List.Forall_forall in *. intros x Hx. apply IH; [exact Hx | apply Hplain, Hx].
Qed.

(** [JSON.parse] reads back what [JSON.stringify] writes. *)
Lemma JSON_parse_stringify (v : JsValue) :
  plain v = true -> JSON_parse (JSON_stringify v) = Some v.
Proof.
  intros Hplain. unfold JSON_parse.
  pose proof (lexes_value v Hplain EmptyString (or_introl eq_refl)) as Hlex.
  rewrite append_empty in Hlex. rewrite Hlex. cbn [lex lex_end mbind option_bind].
  rewrite (reads_value v Hplain [] EValue [] (or_introl eq_refl)). reflexivity.
Qed.

End JsonFacts.

(** ** Runs of the publisher, event by event *)

Module PublisherMore.
Import Js JsDate Otel Eff Amqp Publisher Obs Trace EffFacts ConnectFacts DateFacts PublisherFacts.
Local Open Scope js_scope.

#[local] Arguments JSON_stringify : simpl never.
#[local] Arguments toISOString : simpl never.
#[local] Arguments Number_toString : simpl never.
#[local] Arguments publish_lines : simpl never.
#[local] Arguments sent : simpl never.
#[local] Arguments round_events : simpl never.

Ltac run_steps :=
  unfold assertQueue, channel_close, connection_close, console_log;
  repeat first
    [ rewrite try_catch_emit
    | rewrite try_catch_set_connection
    | rewrite try_catch_set_channel
    | rewrite try_catch_createChannel by assumption
    | rewrite try_catch_answered by assumption ];
  cbn [now connects sends connection channel].

(** [connectWithRetry] does nothing on the connection but connecting. *)
Lemma connect_loop_calls (cfg : Config) (broker : Broker) (maxRetries delayMs : Z) (fuel : nat) :
  forall (attempt : Z) (w : World),
    broker_calls (events (connect_loop cfg broker fuel maxRetries delayMs attempt w)) = [].
Proof.
  induction fuel as [|fuel IH]; intros attempt w; [reflexivity|].
  destruct (Z.lt_ge_cases maxRetries attempt) as [Hover | Hle].
  - now rewrite connect_loop_over by assumption.
  - destruct (connect_reply broker (S (connects w))) as [e|] eqn:Hreply.
    + destruct (Z.eq_dec attempt maxRetries) as [-> | Hne].
      * now rewrite (connect_round_last cfg broker maxRetries delayMs fuel w e Hreply).
      * rewrite (connect_round_refused cfg broker maxRetries delayMs fuel attempt w e)
          by (assumption || lia).
        rewrite events_after. unfold broker_calls in *. rewrite List.filter_app, IH.
        reflexivity.
    + now rewrite connect_round_accepted by assumption.
Qed.

Lemma broker_calls_app (a b : list Event) :
  broker_calls (a ++ b) = broker_calls a ++ broker_calls b.
Proof. apply List.filter_app. Qed.

Section Run.
Variable cfg : Config.
Variable broker : Broker.
Variable active : Context.

Lemma round_sent_events (ch : Channel) (n : Z) (w : World) :
  send_reply broker (S (sends w)) = None ->
  (publishMessageWithBaggage broker active ch n ;; sleep 2000) w
  = {| outcome := Return tt;
       world := {| now := now w + 2000; connects := connects w; sends := S (sends w);
                   connection := connection w; channel := channel w |};
       events := round_events active (now w) n |}.
Proof. intros H. rewrite (round_sent broker active ch n w H). reflexivity. Qed.

(** The loop from message [i] on, when the broker takes every message. *)
Lemma publish_loop_run (ch : Channel) (fuel : nat) :
  forall (i : Z) (w : World),
    i + Z.of_nat fuel = 6 ->
    (forall j, (1 <= j <= fuel)%nat -> send_reply broker (sends w + j) = None) ->
    for_upto fuel i 5 (fun i => publishMessageWithBaggage broker active ch i ;; sleep 2000) w
    = {| outcome := Return tt;
         world := {| now := now w + 2000 * Z.of_nat fuel; connects := connects w;
                     sends := (sends w + fuel)%nat;
                     connection := connection w; channel := channel w |};
         events := rounds_events active fuel (now w) i |}.
Proof.
  induction fuel as [|fuel IH]; intros i w Hi Hsent.
  - cbn [for_upto rounds_events]. unfold ret. destruct w. cbn. f_equal. f_equal; lia.
  - cbn [for_upto]. rewrite (proj2 (Z.leb_le i 5)) by lia.
    assert (H1 : send_reply broker (S (sends w)) = None).
    { rewrite <- Nat.add_1_r. apply Hsent. lia. }
    rewrite (bind_return _ _ w tt) by now rewrite (round_sent_events ch i w H1).
    rewrite (round_sent_events ch i w H1). cbn [outcome world events].
    rewrite IH; [| lia |].
    + unfold after. cbn [outcome world events now connects sends connection channel rounds_events].
      f_equal. f_equal; lia.
    + intros j Hj. cbn [sends]. replace (S (sends w) + j)%nat with (sends w + S j)%nat by lia.
      apply Hsent. lia.
Qed.


(** A run in which the broker takes the five messages and closes, event
    by event. *)
Lemma publishMessages_run (t0 : Z) (conn : Connection) :
  outcome (connectWithRetry cfg broker 10 2000 (start t0)) = Return conn ->
  createChannel_reply broker = None ->
  assertQueue_reply broker = None ->
  (forall j, (1 <= j <= 5)%nat -> send_reply broker j = None) ->
  channel_close_reply broker = None ->
  connection_close_reply broker = None ->
  events (publishMessages cfg broker active (start t0))
  = events (connectWithRetry cfg broker 10 2000 (start t0))
    ++ [ CreateChannel; AssertQueue QUEUE_NAME false;
         Console Log "Queue '${QUEUE_NAME}' is ready" [AStr QUEUE_NAME] ]
    ++ rounds_events active 5 (now (world (connectWithRetry cfg broker 10 2000 (start t0)))) 1
    ++ [ Console Log "\nAll messages published successfully!" [];
         ChannelClose; ConnectionClose;
         Console Log "Connection closed" [] ]
  /\ now (world (publishMessages cfg broker active (start t0)))
     = now (world (connectWithRetry cfg broker 10 2000 (start t0))) + 10000.
Proof.
  intros Hconn Hcr Haq Hsent Hcc Hnc. unfold publishMessages.
  rewrite (try_catch_bind_return _ _ _ _ conn Hconn).
  destruct (connected_world cfg broker t0) as (Hs & _). cbv zeta in *.
  clear Hconn.
  generalize dependent (connectWithRetry cfg broker 10 2000 (start t0)).
  intros [o1 [t1 c1 s1 cn1 ch1] E1]. cbn [world events sends connection channel now].
  intros ->.
  run_steps.
  match goal with |- context [try_catch _ _ ?w5] =>
    pose proof (publish_loop_run (Chan conn) 5 1 w5 eq_refl Hsent) as Hloop
  end.
  cbn [now connects sends connection channel] in Hloop.
  rewrite (try_catch_step _ _ _ _ _ _ _ Hloop).
  run_steps. cbn [try_catch emit outcome world events after app now].
  split; [reflexivity | lia].
Qed.

(** X2.  A run that returns has done, in this order: the connection attempts,
    [createChannel], [assertQueue] on the queue (not durable), the five
    rounds, each being the lines of the message, the message itself and the
    pause of 2000 ms (also after the fifth message), then [channel.close()]
    and [connection.close()].  It ends 10000 ms after the connection was
    made. *)
Theorem complete_run_in_order (t0 : Z) :
  outcome (publishMessages cfg broker active (start t0)) = Return tt ->
  events (publishMessages cfg broker active (start t0))
  = events (connectWithRetry cfg broker 10 2000 (start t0))
    ++ [ CreateChannel; AssertQueue QUEUE_NAME false;
         Console Log "Queue '${QUEUE_NAME}' is ready" [AStr QUEUE_NAME] ]
    ++ rounds_events active 5 (now (world (connectWithRetry cfg broker 10 2000 (start t0)))) 1
    ++ [ Console Log "\nAll messages published successfully!" [];
         ChannelClose; ConnectionClose;
         Console Log "Connection closed" [] ]
  /\ now (world (publishMessages cfg broker active (start t0)))
     = now (world (connectWithRetry cfg broker 10 2000 (start t0))) + 10000.
Proof.
  intros Hrun.
  destruct (publishMessages_returned cfg broker active t0 Hrun)
    as (conn & Hconn & Hcr & Haq & Hsent & Hcc & Hnc).
  exact (publishMessages_run t0 conn Hconn Hcr Haq Hsent Hcc Hnc).
Qed.


(** X3.  When the broker refuses the ten attempts, the run ends with exit code
    1 after the error of the last attempt has been reported: no channel is
    created, no queue is declared, nothing is published and nothing is
    closed (the two variables of [publishMessages] are still undefined). *)
Theorem run_without_connection (t0 : Z) :
  refuses broker 0 10 ->
  exists e,
    connect_reply broker 10 = Some e
    /\ outcome (publishMessages cfg broker active (start t0)) = Exit 1
    /\ events (publishMessages cfg broker active (start t0))
       = events (connectWithRetry cfg broker 10 2000 (start t0))
         ++ [Console Err "Error in publisher:" [AErr e]]
    /\ broker_calls (events (publishMessages cfg broker active (start t0))) = []
    /\ published (events (publishMessages cfg broker active (start t0))) = []
    /\ exit_code (outcome (main cfg broker active (start t0))) = 1.
Proof.
  intros Hrefused.
  destruct (connect_loop_exhausted cfg broker 10 2000 9 10 1 (start t0))
    as (e & He & Hconn & _); [lia | lia | exact Hrefused |].
  change (connect_loop cfg broker 10 10 2000 1 (start t0))
    with (connectWithRetry cfg broker 10 2000 (start t0)) in Hconn.
  cbn [start connects Nat.add] in He.
  exists e. split; [exact He|].
  destruct (publishMessages_not_connected cfg broker active t0 e Hconn) as (Ho & Hpub & _).
  destruct (main_exit_code cfg broker active (start t0)) as [Hcode _];
    [rewrite Ho; discriminate|].
  rewrite Hcode, Ho. split; [reflexivity|].
  assert (Hev : events (publishMessages cfg broker active (start t0))
                = events (connectWithRetry cfg broker 10 2000 (start t0))
                  ++ [Console Err "Error in publisher:" [AErr e]]).
  { unfold publishMessages. rewrite (try_catch_bind_throw _ _ _ _ e Hconn).
    destruct (connected_world cfg broker t0) as (_ & Hc & Hch & _). cbv zeta in *.
    clear Hconn Ho Hpub Hcode.
    generalize dependent (connectWithRetry cfg broker 10 2000 (start t0)).
    intros [o1 [t1 c1 s1 cn1 ch1] E1]. cbn [world events connection channel start].
    intros -> ->. cbv beta. rewrite (closing_handler broker). reflexivity. }
  split; [exact Hev|]. split; [|split; [exact Hpub | reflexivity]].
  rewrite Hev, broker_calls_app. unfold connectWithRetry. now rewrite connect_loop_calls.
Qed.




(** *** One message *)

(** X5.  [publishMessageWithBaggage] either sends the one message and returns,
    or, when [channel.sendToQueue] throws, sends nothing, writes one
    [console.error] line with the number of the message and the error, and
    throws that same error again.  It takes no time and does not end the
    process. *)
Theorem publish_sends_or_rethrows (ch : Channel) (n : Z) (w : World) :
  let r := publishMessageWithBaggage broker active ch n w in
  now (world r) = now w
  /\ match send_reply broker (S (sends w)) with
     | None =>
         outcome r = Return tt
         /\ published (events r) = [sent active (now w) n]
         /\ console_errors (events r) = []
     | Some e =>
         outcome r = Throw e
         /\ published (events r) = []
         /\ console_errors (events r)
            = [Console Err "Error publishing message ${messageNumber}:" [ANum n; AErr e]]
     end.
Proof.
  cbv zeta. destruct (send_reply broker (S (sends w))) as [e|] eqn:Hreply.
  - rewrite (publish_failed broker active ch n w e Hreply). cbn [outcome world events now].
    rewrite published_app, console_errors_app, publish_lines_published, publish_lines_errors.
    repeat split.
  - rewrite (publish_sent broker active ch n w Hreply). cbn [outcome world events now].
    rewrite published_app, console_errors_app, publish_lines_published, publish_lines_errors.
    repeat split.
Qed.

(** X6.  A message that goes out carries the baggage of the context that was
    active plus the four entries of the message: an entry under another key
    is kept as it was, an entry under one of the four keys is replaced, and
    the span of the active context is kept. *)
Theorem published_baggage_extends_the_active_one (ch : Channel) (n : Z) (w : World)
    (queue text : string) (c : Context) :
  In (SendToQueue queue text c) (events (publishMessageWithBaggage broker active ch n w)) ->
  (forall key, key ∉ message_keys -> entries c !! key = entries active !! key)
  /\ List.map (fun key => entries c !! key) message_keys
     = [ Some ("user-" +:+ Number_toString (1000 + n)); Some "api-gateway";
         Some ("session-" +:+ Number_toString (now w)); Some (Number_toString n) ]
  /\ getSpan c = getSpan active.
Proof.
  intros Hin.
  assert (Hpub : In (SendToQueue queue text c)
                   (published (events (publishMessageWithBaggage broker active ch n w)))).
  { apply List.filter_In. split; [exact Hin | reflexivity]. }
  destruct (send_reply broker (S (sends w))) as [e|] eqn:Hreply.
  { rewrite (publish_failed broker active ch n w e Hreply) in Hpub. cbn [events] in Hpub.
    rewrite published_app, publish_lines_published in Hpub. destruct Hpub. }
  rewrite (publish_sent broker active ch n w Hreply) in Hpub. cbn [events] in Hpub.
  rewrite published_app, publish_lines_published in Hpub.
  destruct Hpub as [Hsent | []]. unfold sent in Hsent. injection Hsent as _ _ <-.
  unfold entries, setBaggage, baggageEntries, setEntry, getSpan, message_keys.
  cbn [ctx_baggage ctx_span default from_option id fold_left fst snd List.map].
  split; [|split; [|reflexivity]].
  - intros key Hkey. rewrite !not_elem_of_cons in Hkey.
    destruct Hkey as (H1 & H2 & H3 & H4 & _).
    rewrite lookup_insert_ne by (intros E; exact (H4 (eq_sym E))).
    rewrite lookup_insert_ne by (intros E; exact (H3 (eq_sym E))).
    rewrite lookup_insert_ne by (intros E; exact (H2 (eq_sym E))).
    rewrite lookup_insert_ne by (intros E; exact (H1 (eq_sym E))).
    reflexivity.
  - repeat f_equal.
    + rewrite !lookup_insert_ne by discriminate. apply lookup_insert_eq.
    + rewrite !lookup_insert_ne by discriminate. apply lookup_insert_eq.
    + rewrite !lookup_insert_ne by discriminate. apply lookup_insert_eq.
    + apply lookup_insert_eq.
Qed.

End Run.

Import Examples.

Lemma complete_run_in_order_witness :
  outcome (publishMessages default_config accepting ROOT_CONTEXT (start 1700000000000))
  = Return tt
  /\ now (world (publishMessages default_config accepting ROOT_CONTEXT (start 1700000000000)))
     = 1700000010000.
Proof.
  split; [exact accepting_run_returns|].
  rewrite (proj2 (complete_run_in_order default_config accepting ROOT_CONTEXT 1700000000000
                    accepting_run_returns)).
  reflexivity.
Defined.

Lemma run_without_connection_witness :
  refuses refusing 0 10
  /\ exit_code (outcome (main default_config refusing ROOT_CONTEXT (start 0))) = 1.
Proof.
  assert (Hr : refuses refusing 0 10) by (intros i _; discriminate).
  split; [exact Hr|].
  destruct (run_without_connection default_config refusing ROOT_CONTEXT 0 Hr)
    as (e & _ & _ & _ & _ & _ & H).
  exact H.
Defined.

Lemma published_baggage_extends_the_active_one_witness :
  In (sent scenario_context 0 1)
    (events (publishMessageWithBaggage accepting scenario_context (Chan (Conn 1)) 1 (start 0)))
  /\ session_id (sent scenario_context 0 1) = Some "session-0".
Proof.
  assert (Hin : In (sent scenario_context 0 1)
                  (events (publishMessageWithBaggage accepting scenario_context (Chan (Conn 1))
                             1 (start 0)))).
  { rewrite (publish_sent accepting scenario_context (Chan (Conn 1)) 1 (start 0) eq_refl).
    cbn [events]. apply in_or_app. right. left. reflexivity. }
  split; [exact Hin|].
  destruct (published_baggage_extends_the_active_one accepting scenario_context (Chan (Conn 1)) 1
              (start 0) _ _ _ Hin) as (_ & Hkeys & _).
  apply (f_equal (fun l => nth 2 l None)) in Hkeys. exact Hkeys.
Defined.

End PublisherMore.

(** ** The consumer, event by event *)

Module ConsumerMore.
Import Js JsDate Otel Eff Amqp Consumer Obs Trace ConsumerTrace EffFacts ConnectFacts
  PublisherFacts PublisherMore.
Local Open Scope js_scope.

#[local] Arguments JSON_stringify : simpl never.
#[local] Arguments toISOString : simpl never.
#[local] Arguments Number_toString : simpl never.

(** *** Steps that only write lines *)

Lemma for_each_lines {A} (xs : list A) (line : A -> Event) (w : World) :
  for_each xs (fun x => emit (line x)) w
  = {| outcome := Return tt; world := w; events := List.map line xs |}.
Proof.
  induction xs as [|x xs IH]; [reflexivity|].
  cbn [for_each List.map]. unfold bind. cbn [emit outcome world events]. now rewrite IH.
Qed.

Lemma when_defined_line (value : option string) (template : string) (w : World) :
  when_defined value (fun v => emit (Console Log template [AStr v])) w
  = {| outcome := Return tt; world := w; events := entry_line template value |}.
Proof. now destruct value. Qed.

Lemma connect_loop_resolutions (cfg : Config) (broker : Broker) (maxRetries delayMs : Z)
    (fuel : nat) :
  forall (attempt : Z) (w : World),
    resolutions (events (connect_loop cfg broker fuel maxRetries delayMs attempt w)) = []
    /\ http_requests (events (connect_loop cfg broker fuel maxRetries delayMs attempt w)) = [].
Proof.
  induction fuel as [|fuel IH]; intros attempt w; [split; reflexivity|].
  destruct (Z.lt_ge_cases maxRetries attempt) as [Hover | Hle].
  - now rewrite connect_loop_over by assumption.
  - destruct (connect_reply broker (S (connects w))) as [e|] eqn:Hreply.
    + destruct (Z.eq_dec attempt maxRetries) as [-> | Hne].
      * now rewrite (connect_round_last cfg broker maxRetries delayMs fuel w e Hreply).
      * rewrite (connect_round_refused cfg broker maxRetries delayMs fuel attempt w e)
          by (assumption || lia).
        rewrite events_after, resolutions_app, http_requests_app.
        match goal with |- context [connect_loop _ _ fuel maxRetries delayMs (attempt + 1) ?w1] =>
          destruct (IH (attempt + 1) w1) as [-> ->]
        end.
        split; reflexivity.
    + now rewrite connect_round_accepted by assumption.
Qed.

Lemma baggage_log_result (active : Context) (w : World) :
  (if (length match getBaggage active with
              | Some b => getAllEntries b
              | None => []
              end =? 0)%nat
   then emit (Console Log "     ⚠️  No baggage found!" [])
   else
     for_each match getBaggage active with
              | Some b => getAllEntries b
              | None => []
              end
       (fun kv => emit (Console Log "     - ${key}: ${entry.value}" [AStr (fst kv); AStr (snd kv)])))
    w
  = {| outcome := Return tt; world := w; events := baggage_lines active |}.
Proof.
  unfold baggage_lines. cbv zeta. destruct (_ =? _)%nat; [reflexivity | apply for_each_lines].
Qed.

Lemma entry_of_baggage (active : Context) (key : string) :
  (getBaggage active ≫= fun b => getEntry b key) = entries active !! key.
Proof. unfold getBaggage, entries, getEntry. destruct (ctx_baggage active); [reflexivity|]. done. Qed.

Lemma span_log_result (active : Context) (w : World) :
  when_defined (getSpan active)
    (fun spanContext =>
       emit (Console Log "   🔍 Trace ID: ${spanContext.traceId}" [AStr (traceId spanContext)]) ;;
       emit (Console Log "   🔍 Span ID: ${spanContext.spanId}" [AStr (spanId spanContext)])) w
  = {| outcome := Return tt; world := w;
       events :=
         match getSpan active with
         | Some sc =>
             [ Console Log "   🔍 Trace ID: ${spanContext.traceId}" [AStr (traceId sc)];
               Console Log "   🔍 Span ID: ${spanContext.spanId}" [AStr (spanId sc)] ]
         | None => []
         end |}.
Proof. now destruct (getSpan active). Qed.

Section Facts.
Variable cfg : Config.
Variable server : RequestOptions -> string -> HttpOutcome.

Lemma callApiService_null active v currentBaggage w :
  JsValue_is_null v = true ->
  callApiService cfg server active v currentBaggage w
  = {| outcome := Throw (TypeError "Cannot read properties of null (reading 'id')");
       world := w; events := [] |}.
Proof. intros Hv. unfold callApiService, member. rewrite Hv. reflexivity. Qed.

(** [callApiService] on a message content that is not [null]. *)
Lemma callApiService_result active v currentBaggage w :
  JsValue_is_null v = false ->
  callApiService cfg server active v currentBaggage w
  = {| outcome := call_outcome (server (request_options cfg) (post_data v));
       world := w;
       events :=
         [ Console Log "   🌐 Calling API service at ${API_SERVICE_URL}/process..."
             [AStr (API_SERVICE_URL cfg)];
           HttpRequest (request_options cfg) (post_data v) ]
         ++ call_lines (server (request_options cfg) (post_data v)) |}.
Proof.
  intros Hv. unfold callApiService, member, post_data. rewrite Hv.
  unfold bind, console_log, http_request, emit, ret. cbn [outcome world events after app].
  destruct (server (request_options cfg) _) as [e | st body |]; simpl.
  - reflexivity.
  - unfold try_catch, JSON_parse_or_throw. destruct (JSON_parse body); reflexivity.
  - reflexivity.
Qed.

(** [processMessage], event by event. *)
Lemma processMessage_result active msg w :
  processMessage cfg server active msg w
  = {| outcome := if unanswered cfg server msg then Pending else Return tt;
       world := w;
       events :=
         match JSON_parse (content msg) with
         | None =>
             [ Console Err "Error processing message:" [AErr (SyntaxError (content msg))];
               Nack (deliveryTag msg) false true ]
         | Some v =>
             received_lines active v
             ++ (if JsValue_is_null v then
                   [ Console Err "Error processing message:"
                       [AErr (TypeError "Cannot read properties of null (reading 'id')")];
                     Nack (deliveryTag msg) false true ]
                 else
                   [ Console Log "   🌐 Calling API service at ${API_SERVICE_URL}/process..."
                       [AStr (API_SERVICE_URL cfg)];
                     HttpRequest (request_options cfg) (post_data v) ]
                   ++ call_lines (server (request_options cfg) (post_data v))
                   ++ call_end (deliveryTag msg) (server (request_options cfg) (post_data v)))
         end |}.
Proof.
  unfold processMessage, JSON_parse_or_throw, unanswered.
  destruct (JSON_parse (content msg)) as [v|]; [|reflexivity].
  rewrite (try_catch_step _ _ _ w w v []) by reflexivity. rewrite after_nil.
  unfold console_log. rewrite !try_catch_emit.
  rewrite (try_catch_step _ _ _ w w tt (baggage_lines active)) by apply baggage_log_result.
  rewrite !entry_of_baggage.
  rewrite (try_catch_step _ _ _ w w tt _ (when_defined_line _ _ w)).
  rewrite (try_catch_step _ _ _ w w tt _ (when_defined_line _ _ w)).
  rewrite (try_catch_step _ _ _ w w tt _ (when_defined_line _ _ w)).
  rewrite (try_catch_step _ _ _ w w tt _ (span_log_result active w)).
  assert (Hcall :
    try_catch
      (callApiService cfg server active v (getBaggage active) ;;
       emit (Console Log "   ✅ Message processed successfully" []) ;;
       channel_ack msg)
      (fun error =>
         console_error "Error processing message:" [AErr error] ;; channel_nack msg false true) w
    = {| outcome :=
           if negb (JsValue_is_null v)
              && match server (request_options cfg) (post_data v) with
                 | NoAnswer => true
                 | _ => false
                 end
           then Pending else Return tt;
         world := w;
         events :=
           if JsValue_is_null v then
             [ Console Err "Error processing message:"
                 [AErr (TypeError "Cannot read properties of null (reading 'id')")];
               Nack (deliveryTag msg) false true ]
           else
             [ Console Log "   🌐 Calling API service at ${API_SERVICE_URL}/process..."
                 [AStr (API_SERVICE_URL cfg)];
               HttpRequest (request_options cfg) (post_data v) ]
             ++ call_lines (server (request_options cfg) (post_data v))
             ++ call_end (deliveryTag msg) (server (request_options cfg) (post_data v)) |}).
  { destruct (JsValue_is_null v) eqn:Hv.
    - rewrite (try_catch_bind_throw _ _ _ _ _
                 (f_equal outcome (callApiService_null active v (getBaggage active) w Hv))).
      rewrite (callApiService_null active v (getBaggage active) w Hv). reflexivity.
    - pose proof (callApiService_result active v (getBaggage active) w Hv) as Hr.
      unfold call_end. cbn [negb andb].
      destruct (server (request_options cfg) (post_data v)) as [e | st body |] eqn:Hs;
        cbn [call_outcome call_error] in *;
        [| destruct (JSON_parse body) |].
      + rewrite (try_catch_bind_throw _ _ _ _ e) by now rewrite Hr.
        rewrite Hr. unfold after. cbn [outcome world events console_error channel_nack bind emit].
        cbn [outcome world events after]. now rewrite <- !app_assoc.
      + rewrite (try_catch_step _ _ _ _ _ _ _ Hr). unfold after.
        cbn [outcome world events try_catch channel_ack bind emit after].
        now rewrite <- !app_assoc.
      + rewrite (try_catch_bind_throw _ _ _ _ _ (f_equal outcome Hr)).
        rewrite Hr. unfold after. cbn [outcome world events console_error channel_nack bind emit].
        cbn [outcome world events after]. now rewrite <- !app_assoc.
      + unfold try_catch. rewrite (bind_pending _ _ _ (f_equal outcome Hr)).
        cbn [outcome]. rewrite Hr. cbn [outcome world events call_lines]. reflexivity. }
  rewrite Hcall. unfold after, received_lines. cbn [outcome world events].
  now rewrite <- !app_assoc.
Qed.

(** *** What the lines before the call are *)

Lemma log_lines_filtered (f : Event -> bool) (evs : list Event) :
  (forall e, is_log_line e = true -> f e = false) ->
  Forall (fun e => is_log_line e = true) evs -> List.filter f evs = [].
Proof.
  intros Hf H. apply Forall_filter_nil. rewrite List.Forall_forall in *.
  intros e He. apply Hf, H, He.
Qed.

Lemma entry_line_log (template : string) (value : option string) :
  Forall (fun e => is_log_line e = true) (entry_line template value).
Proof. destruct value; repeat constructor. Qed.

Lemma baggage_lines_log (active : Context) :
  Forall (fun e => is_log_line e = true) (baggage_lines active).
Proof.
  unfold baggage_lines. cbv zeta. destruct (_ =? _)%nat; [repeat constructor|].
  apply List.Forall_map. apply List.Forall_forall. reflexivity.
Qed.

Lemma received_lines_log (active : Context) (v : JsValue) :
  Forall (fun e => is_log_line e = true) (received_lines active v).
Proof.
  unfold received_lines.
  repeat first [ apply Forall_app; split
               | apply entry_line_log
               | apply baggage_lines_log ];
    [repeat constructor | destruct (getSpan active); repeat constructor].
Qed.

Lemma received_lines_resolutions active v : resolutions (received_lines active v) = [].
Proof. apply log_lines_filtered; [now intros [[] | | | | | | | | | | |] | apply received_lines_log]. Qed.

Lemma received_lines_errors active v : console_errors (received_lines active v) = [].
Proof. apply log_lines_filtered; [now intros [[] | | | | | | | | | | |] | apply received_lines_log]. Qed.

Lemma received_lines_requests active v : http_requests (received_lines active v) = [].
Proof. apply log_lines_filtered; [now intros [[] | | | | | | | | | | |] | apply received_lines_log]. Qed.


Lemma call_lines_resolutions o : resolutions (call_lines o) = [].
Proof. destruct o as [e | st body |]; try reflexivity. cbn. now destruct (JSON_parse body). Qed.

Lemma call_lines_requests o : http_requests (call_lines o) = [].
Proof. destruct o as [e | st body |]; try reflexivity. cbn. now destruct (JSON_parse body). Qed.


Lemma call_lines_errors o :
  console_errors (call_lines o)
  = match o with
    | TransportError e =>
        [Console Err "   ❌ API service call failed: ${error.message}" [AStr (err_message e)]]
    | _ => []
    end.
Proof. destruct o as [e | st body |]; try reflexivity. cbn. now destruct (JSON_parse body). Qed.


Lemma call_end_requests tag o : http_requests (call_end tag o) = [].
Proof. unfold call_end. now destruct (call_outcome o). Qed.


(** An exchange that [callApiService] takes as a success gives no error. *)
Lemma call_succeeds (o : HttpOutcome) :
  downstream_fails o = false -> call_error o = None /\ console_errors (call_lines o) = [].
Proof.
  destruct o as [e | st body |]; cbn [downstream_fails call_error call_lines];
    [discriminate | | split; reflexivity].
  destruct (JSON_parse body); [split; reflexivity | discriminate].
Qed.



(** X9.  A payload that is the JSON text [null] (with or without blanks around
    it) is nacked with requeue: reading the [id] of [null] throws before
    any request is made. *)
Theorem null_payload_is_requeued active msg w v :
  JSON_parse (content msg) = Some v ->
  JsValue_is_null v = true ->
  resolutions (events (processMessage cfg server active msg w))
  = [Nack (deliveryTag msg) false true]
  /\ http_requests (events (processMessage cfg server active msg w)) = []
  /\ exists message,
       console_errors (events (processMessage cfg server active msg w))
       = [Console Err "Error processing message:" [AErr (TypeError message)]].
Proof.
  intros Hparse Hv. rewrite processMessage_result. cbn [events]. rewrite Hparse, Hv.
  rewrite resolutions_app, http_requests_app, console_errors_app.
  rewrite received_lines_resolutions, received_lines_requests, received_lines_errors.
  split; [reflexivity | split; [reflexivity | eexists; reflexivity]].
Qed.

(** X10.  A payload that is JSON but not an object (a number, a string, a
    boolean or an array) has none of the fields [id], [timestamp] and
    [data]: the body posted for it is the empty object. *)
Theorem scalar_payload_is_forwarded_empty active msg w v :
  JSON_parse (content msg) = Some v ->
  JsValue_is_null v = false ->
  (forall props, v <> JObject props) ->
  http_requests (events (processMessage cfg server active msg w))
  = [HttpRequest (request_options cfg) "{}"].
Proof.
  intros Hparse Hv Hobj. rewrite processMessage_result. cbn [events]. rewrite Hparse, Hv.
  rewrite !http_requests_app, received_lines_requests, call_lines_requests.
  rewrite call_end_requests.
  assert (Hbody : post_data v = "{}").
  { destruct v; try reflexivity. now destruct (Hobj props). }
  now rewrite Hbody.
Qed.

(** X11.  How [callApiService] ends, for a message content that is not [null]:
    on a transport error it writes the message of the error with
    [console.error] and rejects with that error; on a response whose body is
    not JSON it rejects with an [Error] whose message starts with [Failed to
    parse API response: ] and writes no error line; on a response whose body
    is JSON it resolves, whatever the status; with no answer it stays
    pending and writes no error line.  One request is made in each case,
    and nothing is acked or nacked. *)
Theorem callApiService_reports_the_cause active v currentBaggage w :
  JsValue_is_null v = false ->
  let r := callApiService cfg server active v currentBaggage w in
  http_requests (events r) = [HttpRequest (request_options cfg) (post_data v)]
  /\ resolutions (events r) = []
  /\ world r = w
  /\ match server (request_options cfg) (post_data v) with
     | TransportError e =>
         outcome r = Throw e
         /\ console_errors (events r)
            = [Console Err "   ❌ API service call failed: ${error.message}"
                 [AStr (err_message e)]]
     | Response _ body =>
         console_errors (events r) = []
         /\ match JSON_parse body with
            | Some _ => outcome r = Return tt
            | None =>
                exists cause,
                  outcome r = Throw (Error ("Failed to parse API response: " +:+ cause))
            end
     | NoAnswer => outcome r = Pending /\ console_errors (events r) = []
     end.
Proof.
  intros Hv. cbv zeta. rewrite (callApiService_result active v currentBaggage w Hv).
  cbn [outcome world events].
  rewrite http_requests_app, resolutions_app, console_errors_app.
  rewrite call_lines_requests, call_lines_resolutions, call_lines_errors.
  split; [reflexivity | split; [reflexivity | split; [reflexivity|]]].
  destruct (server (request_options cfg) (post_data v)) as [e | st body |];
    cbn [call_outcome call_error].
  - split; reflexivity.
  - split; [reflexivity|]. destruct (JSON_parse body); [reflexivity | eexists; reflexivity].
  - split; reflexivity.
Qed.

Lemma baggage_report_app (a b : list Event) :
  baggage_report (a ++ b) = baggage_report a ++ baggage_report b.
Proof. apply List.filter_app. Qed.

Lemma baggage_report_lines (active : Context) :
  baggage_report (baggage_lines active) = baggage_lines active.
Proof.
  unfold baggage_lines. cbv zeta. destruct (_ =? _)%nat; [reflexivity|].
  unfold baggage_report. apply forallb_filter_id, forallb_forall.
  intros e He. apply List.in_map_iff in He as (kv & <- & _). reflexivity.
Qed.

Lemma baggage_report_received active v :
  baggage_report (received_lines active v) = baggage_lines active.
Proof.
  unfold received_lines. rewrite !baggage_report_app, baggage_report_lines.
  assert (He : forall template value,
            String.eqb template "     ⚠️  No baggage found!" = false ->
            String.eqb template "     - ${key}: ${entry.value}" = false ->
            baggage_report (entry_line template value) = []).
  { intros template value H1 H2. destruct value; [|reflexivity].
    unfold baggage_report. cbn [entry_line List.filter is_baggage_line]. now rewrite H1, H2. }
  rewrite !He by reflexivity.
  assert (Hs : baggage_report
                 (match getSpan active with
                  | Some sc =>
                      [ Console Log "   🔍 Trace ID: ${spanContext.traceId}" [AStr (traceId sc)];
                        Console Log "   🔍 Span ID: ${spanContext.spanId}" [AStr (spanId sc)] ]
                  | None => []
                  end) = []) by now destruct (getSpan active).
  rewrite Hs. cbn. now rewrite app_nil_r.
Qed.

Lemma baggage_report_call o : baggage_report (call_lines o) = [].
Proof. destruct o as [e | st body |]; try reflexivity. cbn. now destruct (JSON_parse body). Qed.

Lemma baggage_report_call_end tag o : baggage_report (call_end tag o) = [].
Proof. unfold call_end. now destruct (call_outcome o). Qed.

Lemma baggage_report_processMessage active msg w v :
  JSON_parse (content msg) = Some v ->
  baggage_report (events (processMessage cfg server active msg w)) = baggage_lines active.
Proof.
  intros Hparse. rewrite processMessage_result. cbn [events]. rewrite Hparse.
  rewrite baggage_report_app, baggage_report_received.
  destruct (JsValue_is_null v); [apply app_nil_r|].
  rewrite !baggage_report_app, baggage_report_call, baggage_report_call_end.
  apply app_nil_r.
Qed.

(** The lines for the baggage of a context say what its entries are. *)
Lemma baggage_lines_entries (active : Context) :
  (In (Console Log "     ⚠️  No baggage found!" []) (baggage_lines active)
   <-> entries active = ∅)
  /\ (forall key value,
        In (Console Log "     - ${key}: ${entry.value}" [AStr key; AStr value])
          (baggage_lines active)
        <-> entries active !! key = Some value).
Proof.
  unfold baggage_lines, entries, getBaggage, getAllEntries. cbv zeta.
  destruct (ctx_baggage active) as [b|]; cbn [default from_option id].
  - destruct (length (map_to_list b) =? 0)%nat eqn:Hlen.
    + apply Nat.eqb_eq, length_zero_iff_nil, map_to_list_empty_iff in Hlen. subst b. split.
      * split; [reflexivity | intros _; now left].
      * intros key value. rewrite lookup_empty. split; [intros [[=] | []] | discriminate].
    + apply Nat.eqb_neq in Hlen. split.
      * split.
        -- intros Hin. apply List.in_map_iff in Hin as (kv & [=] & _).
        -- intros ->. rewrite map_to_list_empty in Hlen. now destruct Hlen.
      * intros key value. rewrite List.in_map_iff. split.
        -- intros ([k x] & [= -> ->] & Hin). now apply elem_of_map_to_list, list_elem_of_In.
        -- intros Hl. exists (key, value). split; [reflexivity|].
           now apply list_elem_of_In, elem_of_map_to_list.
  - split.
    + split; [reflexivity | intros _; now left].
    + intros key value. rewrite lookup_empty. split; [intros [[=] | []] | discriminate].
Qed.

(** X12.  The baggage [processMessage] writes out is the baggage of the active
    context: once the payload has been parsed, the line saying that there is
    no baggage is written exactly when the context has no entry, and the line
    of a key and a value exactly when the context has that entry. *)
Theorem baggage_is_logged active msg w v :
  JSON_parse (content msg) = Some v ->
  let evs := events (processMessage cfg server active msg w) in
  (In (Console Log "     ⚠️  No baggage found!" []) evs <-> entries active = ∅)
  /\ (forall key value,
        In (Console Log "     - ${key}: ${entry.value}" [AStr key; AStr value]) evs
        <-> entries active !! key = Some value).
Proof.
  intros Hparse. cbv zeta.
  pose proof (baggage_report_processMessage active msg w v Hparse) as Hrep.
  destruct (baggage_lines_entries active) as [Hnone Hentry].
  assert (Hin : forall e, is_baggage_line e = true ->
            (In e (events (processMessage cfg server active msg w))
             <-> In e (baggage_lines active))).
  { intros e He. rewrite <- Hrep. unfold baggage_report. rewrite List.filter_In. tauto. }
  split.
  - rewrite Hin by reflexivity. exact Hnone.
  - intros key value. rewrite Hin by reflexivity. apply Hentry.
Qed.





End Facts.

Section Entry.
Variable cfg : Config.
Variable broker : Broker.
Variable server : RequestOptions -> string -> HttpOutcome.



(** X14.  When the broker refuses the ten attempts, the consumer ends with exit
    code 1 after the error of the last attempt has been reported: no channel
    is created, no callback is registered, nothing is closed, and no
    delivery is ever acked, nacked or sent downstream. *)
Theorem consumer_without_connection (t0 : Z)
    (deliveries : list (Context * option ConsumeMessage)) :
  refuses broker 0 10 ->
  let r := consumeMessages cfg broker server deliveries (start t0) in
  exists e,
    connect_reply broker 10 = Some e
    /\ outcome r = Exit 1
    /\ events r
       = events (connectWithRetry cfg broker 10 2000 (start t0))
         ++ [Console Err "Error in consumer:" [AErr e]]
    /\ broker_calls (events r) = []
    /\ resolutions (events r) = []
    /\ http_requests (events r) = [].
Proof.
  intros Hrefused. cbv zeta.
  destruct (connect_loop_exhausted cfg broker 10 2000 9 10 1 (start t0))
    as (e & He & Hconn & _); [lia | lia | exact Hrefused |].
  change (connect_loop cfg broker 10 10 2000 1 (start t0))
    with (connectWithRetry cfg broker 10 2000 (start t0)) in Hconn.
  cbn [start connects Nat.add] in He.
  exists e. split; [exact He|].
  assert (Hrun : consumeMessages cfg broker server deliveries (start t0)
                 = {| outcome := Exit 1;
                      world := world (connectWithRetry cfg broker 10 2000 (start t0));
                      events := events (connectWithRetry cfg broker 10 2000 (start t0))
                                ++ [Console Err "Error in consumer:" [AErr e]] |}).
  { unfold consumeMessages.
    match goal with |- bind ?setup _ _ = _ =>
      assert (Hsetup : setup (start t0)
                = {| outcome := Exit 1;
                     world := world (connectWithRetry cfg broker 10 2000 (start t0));
                     events := events (connectWithRetry cfg broker 10 2000 (start t0))
                               ++ [Console Err "Error in consumer:" [AErr e]] |})
    end.
    { rewrite (try_catch_bind_throw _ _ _ _ e Hconn).
      destruct (connected_world cfg broker t0) as (_ & Hc & Hch & _). cbv zeta in *.
      clear Hconn.
      generalize dependent (connectWithRetry cfg broker 10 2000 (start t0)).
      intros [o1 [t1 c1 s1 cn1 ch1] E1]. cbn [world events connection channel start].
      intros -> ->. cbv beta. rewrite (closing_handler broker). reflexivity. }
    rewrite (bind_exit _ _ _ 1) by now rewrite Hsetup.
    now rewrite Hsetup. }
  rewrite Hrun. cbn [outcome events].
  rewrite broker_calls_app, resolutions_app, http_requests_app.
  unfold connectWithRetry. rewrite connect_loop_calls.
  destruct (connect_loop_resolutions cfg broker 10 2000 (Z.to_nat 10) 1 (start t0)) as [-> ->].
  repeat split.
Qed.

End Entry.

Import Examples.

Lemma null_payload_is_requeued_witness :
  JSON_parse " null" = Some JNull
  /\ resolutions
       (events (processMessage default_config connection_reset ROOT_CONTEXT
                  {| content := " null"; deliveryTag := 4 |} (start 0)))
     = [Nack 4 false true].
Proof.
  split; [reflexivity|].
  exact (proj1 (null_payload_is_requeued default_config connection_reset ROOT_CONTEXT
                  {| content := " null"; deliveryTag := 4 |} (start 0) JNull eq_refl eq_refl)).
Defined.

Lemma scalar_payload_is_forwarded_empty_witness :
  JSON_parse "[1,2]" = Some (JArray [JNumber 1; JNumber 2])
  /\ http_requests
       (events (processMessage default_config connection_reset ROOT_CONTEXT
                  {| content := "[1,2]"; deliveryTag := 5 |} (start 0)))
     = [HttpRequest (request_options default_config) "{}"].
Proof.
  split; [reflexivity|].
  apply (scalar_payload_is_forwarded_empty default_config connection_reset ROOT_CONTEXT
           {| content := "[1,2]"; deliveryTag := 5 |} (start 0) (JArray [JNumber 1; JNumber 2]));
    [reflexivity | reflexivity | discriminate].
Defined.

Lemma callApiService_reports_the_cause_witness :
  JsValue_is_null scenario_content = false
  /\ outcome (callApiService default_config connection_reset scenario_context scenario_content
                (Some scenario_baggage) (start 0))
     = Throw (Error "socket hang up").
Proof.
  split; [reflexivity|].
  destruct (callApiService_reports_the_cause default_config connection_reset scenario_context
              scenario_content (Some scenario_baggage) (start 0) eq_refl) as (_ & _ & _ & H).
  exact (proj1 H).
Defined.

Lemma baggage_is_logged_witness :
  JSON_parse (content scenario_message) = Some scenario_content
  /\ In (Console Log "     - ${key}: ${entry.value}" [AStr "user.id"; AStr "user-1001"])
       (events (processMessage default_config connection_reset scenario_context scenario_message
                  (start 0))).
Proof.
  assert (Hparse : JSON_parse (content scenario_message) = Some scenario_content)
    by (vm_compute; reflexivity).
  split; [exact Hparse|].
  apply (proj2 (baggage_is_logged default_config connection_reset scenario_context
                  scenario_message (start 0) scenario_content Hparse)).
  reflexivity.
Defined.


Lemma consumer_without_connection_witness :
  refuses refusing 0 10
  /\ outcome (consumeMessages default_config refusing connection_reset
                [(scenario_context, Some scenario_message)] (start 0))
     = Exit 1.
Proof.
  assert (Hr : refuses refusing 0 10) by (intros i _; discriminate).
  split; [exact Hr|].
  destruct (consumer_without_connection default_config refusing connection_reset 0
              [(scenario_context, Some scenario_message)] Hr) as (e & _ & H & _).
  exact H.
Defined.

End ConsumerMore.

(** ** The [/process] route *)

Module ServiceFacts.
Import Js JsDate Otel Eff Amqp Consumer ApiService Obs Trace ConsumerTrace ServiceTrace.
Import EffFacts PublisherFacts ConsumerMore.
Local Open Scope js_scope.

#[local] Arguments JSON_stringify : simpl never.
#[local] Arguments toISOString : simpl never.
#[local] Arguments Number_toString : simpl never.

Lemma received_step (active : Context) (w : World) :
  (if (length match getBaggage active with
              | Some b => getAllEntries b
              | None => []
              end =? 0)%nat
   then emit (Console Log "     ⚠️  No baggage found!" []) ;; ret []
   else
     for_each match getBaggage active with
              | Some b => getAllEntries b
              | None => []
              end
       (fun kv => emit (Console Log "     - ${key}: ${entry.value}" [AStr (fst kv); AStr (snd kv)])) ;;
     ret (fold_left (fun o kv => obj_set o (fst kv) (JString (snd kv)))
            match getBaggage active with
            | Some b => getAllEntries b
            | None => []
            end []))%js w
  = {| outcome := Return (baggage_received active); world := w;
       events := baggage_lines active |}.
Proof.
  unfold baggage_received, baggage_lines. cbv zeta.
  destruct (match getBaggage active with Some b => getAllEntries b | None => [] end)
    as [|kv all]; [reflexivity|].
  cbn [length Nat.eqb]. unfold bind. rewrite for_each_lines.
  unfold after, ret. cbn [outcome world events]. now rewrite app_nil_r.
Qed.

Lemma interpolate_result (v : option JsValue) (w : World) :
  interpolate v w
  = {| outcome :=
         if unprintable v then Throw (TypeError "Cannot convert object to primitive value")
         else Return tt;
       world := w;
       events := [] |}.
Proof.
  destruct v as [x|]; [|reflexivity]. unfold interpolate, unprintable.
  now destruct (converts_to_string x).
Qed.

(** The [/process] route, event by event. *)
Lemma process_route_result (active : Context) (body : option JsValue) (w : World) :
  process_route active body w
  = match body with
    | Some v =>
        if JsValue_is_null v then
          failed_route w [Console Log "\n📨 Received HTTP request:" []]
            (TypeError "Cannot read properties of null (reading 'messageId')")
        else if unprintable (get_prop v "messageId") then
          failed_route w [Console Log "\n📨 Received HTTP request:" []]
            (TypeError "Cannot convert object to primitive value")
        else if unprintable (get_prop v "data") then
          failed_route w
            [ Console Log "\n📨 Received HTTP request:" [];
              Console Log "   Message ID: ${requestData.messageId}"
                [arg_of (get_prop v "messageId")] ]
            (TypeError "Cannot convert object to primitive value")
        else
          {| outcome :=
               Return {| status := 200;
                         json :=
                           object_literal
                             [ ("success", Some (JBool true));
                               ("messageId", get_prop v "messageId");
                               ("processedAt", Some (JString (toISOString (now w))));
                               ("baggageReceived", Some (JObject (baggage_received active))) ] |};
             world := w;
             events :=
               [ Console Log "\n📨 Received HTTP request:" [];
                 Console Log "   Message ID: ${requestData.messageId}"
                   [arg_of (get_prop v "messageId")];
                 Console Log "   Data: ${requestData.data}" [arg_of (get_prop v "data")];
                 Console Log "   🎒 Extracted Baggage:" [] ]
               ++ baggage_lines active
               ++ [Console Log "   ✅ Request processed successfully" []] |}
    | None =>
        failed_route w [Console Log "\n📨 Received HTTP request:" []]
          (TypeError "Cannot read properties of undefined (reading 'messageId')")
    end.
Proof.
  unfold process_route, failed_route. destruct body as [v|]; [|reflexivity].
  unfold body_member, member. destruct (JsValue_is_null v); [reflexivity|].
  unfold console_log. rewrite try_catch_emit.
  rewrite (try_catch_step _ _ _ w w (get_prop v "messageId") []) by reflexivity.
  rewrite after_nil.
  destruct (unprintable (get_prop v "messageId")) eqn:Hid.
  { rewrite (try_catch_fail _ _ _ w w (TypeError "Cannot convert object to primitive value") [])
      by now rewrite interpolate_result, Hid.
    reflexivity. }
  rewrite (try_catch_step _ _ _ w w tt []) by now rewrite interpolate_result, Hid.
  rewrite after_nil, try_catch_emit.
  rewrite (try_catch_step _ _ _ w w (get_prop v "data") []) by reflexivity.
  rewrite after_nil.
  destruct (unprintable (get_prop v "data")) eqn:Hdata.
  { rewrite (try_catch_fail _ _ _ w w (TypeError "Cannot convert object to primitive value") [])
      by now rewrite interpolate_result, Hdata.
    reflexivity. }
  rewrite (try_catch_step _ _ _ w w tt []) by now rewrite interpolate_result, Hdata.
  rewrite after_nil, !try_catch_emit.
  rewrite (try_catch_step _ _ _ w w _ _ (received_step active w)).
  rewrite (try_catch_step _ _ _ w w (get_prop v "messageId") []) by reflexivity.
  rewrite after_nil.
  rewrite (try_catch_step _ _ _ w w (now w) []) by reflexivity.
  rewrite after_nil, try_catch_emit.
  unfold after, try_catch, ret. cbn [outcome world events]. rewrite <- ?app_assoc. reflexivity.
Qed.

(** How the route goes on a body it can read. *)
Lemma process_route_readable (active : Context) (v : JsValue) (w : World) :
  unreadable (Some v) = false ->
  process_route active (Some v) w
  = {| outcome :=
         Return {| status := 200;
                   json :=
                     object_literal
                       [ ("success", Some (JBool true));
                         ("messageId", get_prop v "messageId");
                         ("processedAt", Some (JString (toISOString (now w))));
                         ("baggageReceived", Some (JObject (baggage_received active))) ] |};
       world := w;
       events :=
         [ Console Log "\n📨 Received HTTP request:" [];
           Console Log "   Message ID: ${requestData.messageId}"
             [arg_of (get_prop v "messageId")];
           Console Log "   Data: ${requestData.data}" [arg_of (get_prop v "data")];
           Console Log "   🎒 Extracted Baggage:" [] ]
         ++ baggage_lines active
         ++ [Console Log "   ✅ Request processed successfully" []] |}.
Proof.
  intros H. rewrite process_route_result. cbn [unreadable] in H.
  destruct (JsValue_is_null v); [discriminate H|].
  destruct (unprintable (get_prop v "messageId")); [discriminate H|].
  destruct (unprintable (get_prop v "data")); [discriminate H | reflexivity].
Qed.

(** *** The object built from the baggage *)

Lemma get_prop_obj_set (o : list (string * JsValue)) (k' k : string) (x : JsValue) :
  get_prop (JObject (obj_set o k' x)) k
  = if String.eqb k' k then Some x else get_prop (JObject o) k.
Proof.
  unfold get_prop. induction o as [|[k0 v0] o IH]; cbn [obj_set List.find fst].
  - now destruct (String.eqb k' k).
  - destruct (String.eqb k0 k') eqn:E0; cbn [List.find fst].
    + apply String.eqb_eq in E0. subst k0. now destruct (String.eqb k' k).
    + destruct (String.eqb k0 k) eqn:E1; [|exact IH].
      apply String.eqb_eq in E1. subst k0. rewrite String.eqb_sym, E0.
      reflexivity.
Qed.

Lemma get_prop_fold (l : list (string * string)) :
  forall (acc : list (string * JsValue)) (k : string),
    NoDup (List.map fst l) ->
    get_prop (JObject (fold_left (fun o kv => obj_set o (fst kv) (JString (snd kv))) l acc)) k
    = match (list_to_map l : gmap string string) !! k with
      | Some x => Some (JString x)
      | None => get_prop (JObject acc) k
      end.
Proof.
  induction l as [|[k1 x1] l IH]; intros acc k Hdup; [reflexivity|].
  cbn [List.map fst] in Hdup. apply NoDup_cons in Hdup as [Hk1 Hdup].
  cbn [fold_left list_to_map foldr fst snd]. rewrite (IH _ k Hdup), get_prop_obj_set.
  destruct (String.eqb k1 k) eqn:E.
  - apply String.eqb_eq in E. subst k1. rewrite lookup_insert_eq.
    now rewrite (not_elem_of_list_to_map_1 _ _ Hk1).
  - apply String.eqb_neq in E. now rewrite lookup_insert_ne by exact E.
Qed.

(** The object has the entries of the baggage: a value under each key of
    the baggage, and nothing else. *)
Lemma baggage_received_lookup (active : Context) (key : string) :
  get_prop (JObject (baggage_received active)) key = JString <$> entries active !! key.
Proof.
  unfold baggage_received, entries, getBaggage, getAllEntries.
  destruct (ctx_baggage active) as [b|]; [|reflexivity].
  rewrite get_prop_fold by apply NoDup_fst_map_to_list.
  rewrite list_to_map_to_list. cbn [default from_option id].
  now destruct (b !! key).
Qed.

(** *** The route *)

(** X15.  With a body that is neither [undefined] nor [null] and whose
    [messageId] and [data] can be written into the lines that report them,
    the route answers 200 with [success: true], the [messageId] of the body
    (left out when the body has none), [processedAt] set to the clock
    reading in ISO form, and [baggageReceived] holding the entries of the
    active baggage: every key of the baggage with its value, and no other
    key.  (A key named [__proto__] is set aside: an assignment does not
    store it as a property.)  Nothing is written with [console.error]. *)
Theorem process_route_echoes_the_baggage (active : Context) (v : JsValue) (w : World) :
  unreadable (Some v) = false ->
  entries active !! "__proto__" = None ->
  exists received,
    outcome (process_route active (Some v) w)
    = Return {| status := 200;
                json :=
                  object_literal
                    [ ("success", Some (JBool true));
                      ("messageId", get_prop v "messageId");
                      ("processedAt", Some (JString (toISOString (now w))));
                      ("baggageReceived", Some (JObject received)) ] |}
    /\ (forall key, get_prop (JObject received) key = JString <$> entries active !! key)
    /\ (received = [] <-> entries active = ∅)
    /\ console_errors (events (process_route active (Some v) w)) = [].
Proof.
  intros Hv _. exists (baggage_received active). rewrite (process_route_readable active v w Hv).
  cbn [outcome events]. split; [reflexivity|]. split; [apply baggage_received_lookup|]. split.
  - split.
    + intros Hnil. apply map_eq. intros key. rewrite lookup_empty.
      pose proof (baggage_received_lookup active key) as H. rewrite Hnil in H.
      cbn in H. now destruct (entries active !! key).
    + unfold baggage_received, entries, getBaggage, getAllEntries.
      destruct (ctx_baggage active) as [b|]; [|reflexivity].
      cbn [default from_option id]. intros ->. now rewrite map_to_list_empty.
  - rewrite !console_errors_app.
    assert (Hb : console_errors (baggage_lines active) = []).
    { apply log_lines_filtered; [now intros [[] | | | | | | | | | | |] | apply baggage_lines_log]. }
    now rewrite Hb.
Qed.

(** X16.  The route always answers, and does not throw: with 500 and
    [{error: 'Internal server error'}] exactly when the handler catches a
    [TypeError], which it reports; with 200 otherwise.  That happens when
    [req.body] is [undefined] or [null] (reading [messageId] off it
    throws), and when the [messageId] or the [data] of the body cannot be
    converted to a string for the line that reports it.  The route takes
    no time. *)
Theorem process_route_always_answers (active : Context) (body : option JsValue) (w : World) :
  exists response,
    outcome (process_route active body w) = Return response
    /\ world (process_route active body w) = w
    /\ if unreadable body then
         response = {| status := 500;
                       json := JObject [("error", JString "Internal server error")] |}
         /\ exists message,
              console_errors (events (process_route active body w))
              = [Console Err "Error processing request:" [AErr (TypeError message)]]
       else status response = 200.
Proof.
  rewrite process_route_result. unfold failed_route. destruct body as [v|]; cbn [unreadable].
  - destruct (JsValue_is_null v); cbn [orb].
    { eexists. split; [reflexivity|]. split; [reflexivity|].
      split; [reflexivity | eexists; reflexivity]. }
    destruct (unprintable (get_prop v "messageId")); cbn [orb].
    { eexists. split; [reflexivity|]. split; [reflexivity|].
      split; [reflexivity | eexists; reflexivity]. }
    destruct (unprintable (get_prop v "data")).
    { eexists. split; [reflexivity|]. split; [reflexivity|].
      split; [reflexivity | eexists; reflexivity]. }
    eexists. split; [reflexivity|]. split; reflexivity.
  - eexists. split; [reflexivity|]. split; [reflexivity|].
    split; [reflexivity | eexists; reflexivity].
Qed.

(** X17.  The baggage the route writes out is the baggage of the active
    context, as for [processMessage]: with a body the route can read, the
    line saying that there is no baggage is written exactly when the
    context has no entry, and the line of a key and a value exactly when
    the context has that entry.  With a body it cannot read, the handler
    has thrown before, and no line about the baggage is written. *)
Theorem route_logs_the_baggage (active : Context) (body : option JsValue) (w : World) :
  let evs := events (process_route active body w) in
  if unreadable body then baggage_report evs = []
  else
    (In (Console Log "     ⚠️  No baggage found!" []) evs <-> entries active = ∅)
    /\ (forall key value,
          In (Console Log "     - ${key}: ${entry.value}" [AStr key; AStr value]) evs
          <-> entries active !! key = Some value).
Proof.
  cbv zeta. destruct (unreadable body) eqn:Hbody.
  - rewrite process_route_result. unfold failed_route.
    destruct body as [v|]; [|reflexivity]. cbn [unreadable] in Hbody.
    destruct (JsValue_is_null v); [reflexivity|].
    destruct (unprintable (get_prop v "messageId")); [reflexivity|].
    destruct (unprintable (get_prop v "data")); [reflexivity | discriminate Hbody].
  - destruct body as [v|]; [|discriminate Hbody].
    assert (Hrep : baggage_report (events (process_route active (Some v) w))
                   = baggage_lines active).
    { rewrite (process_route_readable active v w Hbody). cbn [events].
      rewrite !baggage_report_app, baggage_report_lines. cbn. apply app_nil_r. }
    destruct (baggage_lines_entries active) as [Hnone Hentry].
    assert (Hin : forall e, is_baggage_line e = true ->
              (In e (events (process_route active (Some v) w)) <-> In e (baggage_lines active))).
    { intros e He. rewrite <- Hrep. unfold baggage_report. rewrite List.filter_In. tauto. }
    split.
    + rewrite Hin by reflexivity. exact Hnone.
    + intros key value. rewrite Hin by reflexivity. apply Hentry.
Qed.

Import Examples.

Lemma process_route_echoes_the_baggage_witness :
  unreadable (Some scenario_content) = false
  /\ entries scenario_context !! "__proto__" = None
  /\ exists received,
       get_prop (JObject received) "user.id" = Some (JString "user-1001")
       /\ get_prop (JObject received) "session.id" = None.
Proof.
  split; [reflexivity | split; [reflexivity|]].
  destruct (process_route_echoes_the_baggage scenario_context scenario_content (start 0)
              eq_refl eq_refl) as (received & _ & Hlookup & _).
  exists received. rewrite !Hlookup. split; reflexivity.
Defined.

End ServiceFacts.

(** ** From one program to the next *)

Module Composition.
Import Js JsDate Otel Eff Amqp Publisher Consumer ApiService Obs Trace ConsumerTrace ServiceTrace.
Import JsonText JsonFacts EffFacts ConsumerFacts PublisherFacts PublisherMore ConsumerMore
  ServiceFacts.
Local Open Scope js_scope.

#[local] Arguments JSON_stringify : simpl never.
#[local] Arguments toISOString : simpl never.
#[local] Arguments Number_toString : simpl never.
#[local] Arguments sent : simpl never.
#[local] Arguments publish_lines : simpl never.

Lemma get_prop_plain (v x : JsValue) (k : string) :
  plain v = true -> get_prop v k = Some x -> plain x = true.
Proof.
  destruct v; try discriminate. cbn [plain get_prop]. intros Hp Hx.
  apply andb_prop in Hp as [Hp _]. rewrite forallb_forall in Hp.
  destruct (List.find _ props) as [[k' x']|] eqn:Hfind; [|discriminate Hx].
  injection Hx as <-. apply List.find_some in Hfind as [Hin _]. exact (Hp _ Hin).
Qed.

Lemma three_fields_plain (a b c : string) (x y z : option JsValue) :
  NoDup [a; b; c] ->
  (forall v, x = Some v -> plain v = true) ->
  (forall v, y = Some v -> plain v = true) ->
  (forall v, z = Some v -> plain v = true) ->
  plain (object_literal [(a, x); (b, y); (c, z)]) = true.
Proof.
  intros Hdup Hx Hy Hz. unfold object_literal.
  assert (Hkeys : forall l : list string, sublist l [a; b; c] -> bool_decide (NoDup l) = true).
  { intros l Hl. apply bool_decide_eq_true. eapply sublist_NoDup; eassumption. }
  destruct x as [x|], y as [y|], z as [z|];
    cbn -[NoDup_dec bool_decide];
    rewrite ?(Hx _ eq_refl), ?(Hy _ eq_refl), ?(Hz _ eq_refl); cbn [andb];
    apply Hkeys; repeat first [ apply sublist_nil | apply sublist_skip | apply sublist_cons ].
Qed.

Section Facts.
Variable cfg : Config.

(** What the consumer posts for a payload of whole numbers, strings and
    the like reads back as the object of its three fields. *)
Lemma post_data_parses (v : JsValue) :
  plain v = true ->
  JSON_parse (post_data v)
  = Some (object_literal
            [ ("messageId", get_prop v "id");
              ("timestamp", get_prop v "timestamp");
              ("data", get_prop v "data") ]).
Proof.
  intros Hv. unfold post_data. apply JSON_parse_stringify.
  apply three_fields_plain; try (intros x Hx; exact (get_prop_plain v x _ Hv Hx)).
  apply (proj1 (bool_decide_eq_true _)). vm_compute. reflexivity.
Qed.

(** X18.  The body [callApiService] posts is JSON: for a message content read
    from JSON with whole numbers, the JSON middleware of the receiver reads
    back an object that has, under [messageId], [timestamp] and [data], what
    the message had under [id], [timestamp] and [data], and no property for
    a field the message did not have. *)
Theorem posted_body_reads_back (v : JsValue) :
  plain v = true ->
  JSON_parse (post_data v)
  = Some (object_literal
            [ ("messageId", get_prop v "id");
              ("timestamp", get_prop v "timestamp");
              ("data", get_prop v "data") ]).
Proof. exact (post_data_parses v). Qed.

(** The message the consumer reads off what the publisher wrote. *)
Lemma published_payload_parses (t n : Z) :
  Z.abs n < 2 ^ 53 ->
  JSON_parse
    (JSON_stringify
       (JObject [ ("id", JNumber n);
                  ("timestamp", JString (toISOString t));
                  ("data", JString ("Message " +:+ Number_toString n)) ]))
  = Some (JObject [ ("id", JNumber n);
                    ("timestamp", JString (toISOString t));
                    ("data", JString ("Message " +:+ Number_toString n)) ]).
Proof.
  intros Hn. apply JSON_parse_stringify. cbn [plain forallb snd andb List.map fst].
  rewrite (proj2 (Z.ltb_lt _ _) Hn). vm_compute. reflexivity.
Qed.

(** X19.  From the publisher to the downstream service: a message that
    [publishMessageWithBaggage] has sent, once delivered to
    [processMessage], leads to exactly one request, whose body is
    [{messageId: n, timestamp: <the timestamp of the message>, data:
    "Message n"}], whatever the contexts, the delivery tag and the service
    are; the delivery is acked or nacked by the answer to that request, and
    neither as long as there is none. *)
Theorem published_message_is_forwarded (broker : Broker) (publisher_context : Context)
    (ch : Channel) (n : Z) (w0 : World) (queue text : string) (c : Context)
    (server : RequestOptions -> string -> HttpOutcome) (active : Context) (tag : Z) (w : World) :
  Z.abs n < 2 ^ 53 ->
  In (SendToQueue queue text c)
    (events (publishMessageWithBaggage broker publisher_context ch n w0)) ->
  let forwarded :=
    JSON_stringify
      (JObject [ ("messageId", JNumber n);
                 ("timestamp", JString (toISOString (now w0)));
                 ("data", JString ("Message " +:+ Number_toString n)) ]) in
  let r := processMessage cfg server active {| content := text; deliveryTag := tag |} w in
  http_requests (events r) = [HttpRequest (request_options cfg) forwarded]
  /\ resolutions (events r)
     = match server (request_options cfg) forwarded with
       | NoAnswer => []
       | o => [if downstream_fails o then Nack tag false true else Ack tag]
       end.
Proof.
  intros Hn Hin. cbv zeta.
  assert (Hpub : In (SendToQueue queue text c)
                   (published (events (publishMessageWithBaggage broker publisher_context ch n w0)))).
  { apply List.filter_In. split; [exact Hin | reflexivity]. }
  destruct (send_reply broker (S (sends w0))) as [e|] eqn:Hreply.
  { rewrite (publish_failed broker publisher_context ch n w0 e Hreply) in Hpub.
    cbn [events] in Hpub. rewrite published_app, publish_lines_published in Hpub.
    destruct Hpub. }
  rewrite (publish_sent broker publisher_context ch n w0 Hreply) in Hpub. cbn [events] in Hpub.
  rewrite published_app, publish_lines_published in Hpub.
  destruct Hpub as [Hsent | []]. unfold sent in Hsent. injection Hsent as _ <- _.
  pose proof (processMessage_obs cfg server active
                {| content := JSON_stringify
                                (JObject [ ("id", JNumber n);
                                           ("timestamp", JString (toISOString (now w0)));
                                           ("data", JString ("Message " +:+ Number_toString n)) ]);
                   deliveryTag := tag |} w _ (published_payload_parses (now w0) n Hn) eq_refl)
    as Hobs.
  unfold obs in Hobs. injection Hobs as _ Hres Hreq. split; [exact Hreq|].
  rewrite Hres. unfold resolution_of.
  change (post_data
            (JObject [ ("id", JNumber n);
                       ("timestamp", JString (toISOString (now w0)));
                       ("data", JString ("Message " +:+ Number_toString n)) ]))
    with (JSON_stringify
            (JObject [ ("messageId", JNumber n);
                       ("timestamp", JString (toISOString (now w0)));
                       ("data", JString ("Message " +:+ Number_toString n)) ])).
  now destruct (server _ _).
Qed.

Lemma decode_no_headers : decode ∅ = ROOT_CONTEXT.
Proof. reflexivity. Qed.

(** Behind [serve], a request of the consumer is answered by the route. *)
Lemma serve_request (bp : RequestOptions -> string -> option JsValue) (t : Z)
    (postData : string) :
  serve bp t (request_options cfg) postData
  = match outcome (process_route ROOT_CONTEXT (bp (request_options cfg) postData) (start t)) with
    | Return r => Response (status r) (JSON_stringify (json r))
    | Throw e => TransportError e
    | Exit _ => TransportError (Error "socket hang up")
    | Pending => NoAnswer
    end.
Proof. reflexivity. Qed.

(** The answer of the route is JSON that the consumer can read, as long as
    the [messageId] it echoes is a whole number, a string or the like. *)
Lemma route_answer_parses (bp : RequestOptions -> string -> option JsValue) (t : Z)
    (postData : string) :
  (forall b m, bp (request_options cfg) postData = Some b ->
               get_prop b "messageId" = Some m -> plain m = true) ->
  exists st answer,
    serve bp t (request_options cfg) postData = Response st (JSON_stringify answer)
    /\ JSON_parse (JSON_stringify answer) = Some answer.
Proof.
  intros Hbp. rewrite serve_request, process_route_result. unfold failed_route.
  assert (H500 : JSON_parse (JSON_stringify (JObject [("error", JString "Internal server error")]))
                 = Some (JObject [("error", JString "Internal server error")])).
  { apply JSON_parse_stringify. vm_compute. reflexivity. }
  destruct (bp (request_options cfg) postData) as [b|] eqn:Hb.
  - destruct (JsValue_is_null b); [eexists _, _; split; [reflexivity | exact H500]|].
    destruct (unprintable (get_prop b "messageId"));
      [eexists _, _; split; [reflexivity | exact H500]|].
    destruct (unprintable (get_prop b "data"));
      [eexists _, _; split; [reflexivity | exact H500]|].
    eexists _, _. split; [reflexivity|]. cbn [outcome status json].
    apply JSON_parse_stringify. unfold object_literal.
    destruct (get_prop b "messageId") as [m|] eqn:Hm;
      cbn -[NoDup_dec bool_decide baggage_received];
      rewrite ?(Hbp b m eq_refl Hm); reflexivity.
  - eexists _, _. split; [reflexivity | exact H500].
Qed.


(** C6, as amended.  A payload that is not JSON is nacked with requeue;
    the failure is written to the console, nothing is sent downstream and
    the call returns.  A payload that is JSON (and not [null]) is not
    checked for [id], [timestamp] and [data]: one request is sent
    downstream for it, the delivery is acked or nacked by what comes of
    that request (and neither as long as nothing does), and, for a payload
    of whole numbers, strings and the like, the body of the request is JSON
    for the object of the fields the payload has, a missing field being
    left out. *)
Theorem invalid_json_is_requeued (server : RequestOptions -> string -> HttpOutcome)
    (active : Context) (msg : ConsumeMessage) (w : World) :
  (JSON_parse (content msg) = None ->
   processMessage cfg server active msg w
   = {| outcome := Return tt;
        world := w;
        events := [ Console Err "Error processing message:" [AErr (SyntaxError (content msg))];
                    Nack (deliveryTag msg) false true ] |}
   /\ http_requests (events (processMessage cfg server active msg w)) = [])
  /\ (forall v,
        JSON_parse (content msg) = Some v ->
        JsValue_is_null v = false ->
        exists body,
          http_requests (events (processMessage cfg server active msg w))
          = [HttpRequest (request_options cfg) body]
          /\ resolutions (events (processMessage cfg server active msg w))
             = match server (request_options cfg) body with
               | NoAnswer => []
               | o => [if downstream_fails o
                       then Nack (deliveryTag msg) false true else Ack (deliveryTag msg)]
               end
          /\ (plain v = true ->
              JSON_parse body
              = Some (object_literal
                        [ ("messageId", get_prop v "id");
                          ("timestamp", get_prop v "timestamp");
                          ("data", get_prop v "data") ]))).
Proof.
  split.
  - intros Hparse. rewrite (processMessage_unparsed cfg server active msg w Hparse).
    split; reflexivity.
  - intros v Hparse Hv. exists (post_data v).
    pose proof (processMessage_obs cfg server active msg w v Hparse Hv) as H.
    unfold obs in H. injection H as _ Hres Hreq.
    split; [exact Hreq|]. split; [|apply post_data_parses].
    rewrite Hres. unfold resolution_of. now destruct (server _ _).
Qed.

(** X20.  From the consumer to the route of this repository: when the downstream
    service is the [/process] route, every delivery whose payload is JSON
    other than [null] is acked, and nothing is written with [console.error]
    by the consumer: the route answers with a JSON body whether it answers
    200 or 500, and the consumer looks at nothing else. *)
Theorem route_answers_are_acked (bp : RequestOptions -> string -> option JsValue) (t : Z)
    (active : Context) (msg : ConsumeMessage) (w : World) (v : JsValue) :
  JSON_parse (content msg) = Some v ->
  JsValue_is_null v = false ->
  (forall b m, bp (request_options cfg) (post_data v) = Some b ->
               get_prop b "messageId" = Some m -> plain m = true) ->
  resolutions (events (processMessage cfg (serve bp t) active msg w)) = [Ack (deliveryTag msg)]
  /\ console_errors (events (processMessage cfg (serve bp t) active msg w)) = [].
Proof.
  intros Hparse Hv Hbp.
  destruct (route_answer_parses bp t (post_data v) Hbp) as (st & answer & Hserve & Hanswer).
  split.
  - pose proof (processMessage_obs cfg (serve bp t) active msg w v Hparse Hv) as Hobs.
    unfold obs in Hobs. injection Hobs as _ Hres _. rewrite Hres, Hserve.
    unfold resolution_of. cbn [downstream_fails]. now rewrite Hanswer.
  - rewrite processMessage_result. cbn [events]. rewrite Hparse, Hv, Hserve.
    unfold call_end. cbn [call_lines call_outcome call_error]. rewrite Hanswer.
    rewrite !console_errors_app, received_lines_errors. reflexivity.
Qed.

End Facts.

(** X21.  What is written with [JSON.stringify] on one side of a hop is read
    back by [JSON.parse] on the other side as the same value: for [null],
    booleans, whole numbers in the range in which a double is exact,
    strings, and arrays and objects of such values without a repeated
    key. *)
Theorem stringified_value_parses_back (v : JsValue) :
  plain v = true -> JSON_parse (JSON_stringify v) = Some v.
Proof.
  intros Hplain. unfold JSON_parse.
  pose proof (lexes_value v Hplain EmptyString (or_introl eq_refl)) as Hlex.
  rewrite append_empty in Hlex. rewrite Hlex. cbn [lex lex_end mbind option_bind].
  rewrite (reads_value v Hplain [] EValue [] (or_introl eq_refl)). reflexivity.
Qed.

Import Examples.


(** C6, as stated, fails: a JSON payload without [id], [timestamp] and
    [data] is sent downstream, and acked when the service answers. *)
Lemma payload_without_fields_is_forwarded :
  JSON_parse "{}" = Some (JObject [])
  /\ has_required_fields (JObject []) = false
  /\ obs (processMessage default_config (serve unparsed_body 0) ROOT_CONTEXT
            {| content := "{}"; deliveryTag := 2 |} (start 0))
     = (Return tt, [Ack 2], [HttpRequest (request_options default_config) "{}"]).
Proof. repeat split; vm_compute; reflexivity. Qed.

Lemma invalid_json_is_requeued_witness :
  JSON_parse "not json" = None
  /\ resolutions
       (events (processMessage default_config (serve unparsed_body 0) ROOT_CONTEXT
                  {| content := "not json"; deliveryTag := 3 |} (start 0)))
     = [Nack 3 false true].
Proof.
  split; [reflexivity|].
  rewrite (proj1 (proj1 (invalid_json_is_requeued default_config (serve unparsed_body 0)
                           ROOT_CONTEXT {| content := "not json"; deliveryTag := 3 |} (start 0))
                    eq_refl)).
  reflexivity.
Defined.

Lemma posted_body_reads_back_witness :
  plain scenario_content = true
  /\ JSON_parse (post_data scenario_content)
     = Some (JObject [ ("messageId", JNumber 1);
                       ("timestamp", JString "2024-01-01T00:00:00Z");
                       ("data", JString "Message 1") ]).
Proof.
  assert (Hp : plain scenario_content = true) by (vm_compute; reflexivity).
  split; [exact Hp|]. exact (posted_body_reads_back scenario_content Hp).
Defined.

Lemma published_message_is_forwarded_witness :
  Z.abs 1 < 2 ^ 53
  /\ In (sent ROOT_CONTEXT 0 1)
       (events (publishMessageWithBaggage accepting ROOT_CONTEXT (Chan (Conn 1)) 1 (start 0)))
  /\ resolutions
       (events (processMessage default_config connection_reset ROOT_CONTEXT
                  {| content :=
                       JSON_stringify
                         (JObject [ ("id", JNumber 1);
                                    ("timestamp", JString (toISOString 0));
                                    ("data", JString ("Message " +:+ Number_toString 1)) ]);
                     deliveryTag := 7 |} (start 2000)))
     = [Nack 7 false true].
Proof.
  assert (Hn : Z.abs 1 < 2 ^ 53) by (vm_compute; reflexivity).
  assert (Hin : In (sent ROOT_CONTEXT 0 1)
                  (events (publishMessageWithBaggage accepting ROOT_CONTEXT (Chan (Conn 1)) 1
                             (start 0)))).
  { rewrite (publish_sent accepting ROOT_CONTEXT (Chan (Conn 1)) 1 (start 0) eq_refl).
    cbn [events]. apply in_or_app. right. left. reflexivity. }
  split; [exact Hn | split; [exact Hin|]].
  exact (proj2 (published_message_is_forwarded default_config accepting ROOT_CONTEXT
                  (Chan (Conn 1)) 1 (start 0) _ _ _ connection_reset ROOT_CONTEXT 7 (start 2000)
                  Hn Hin)).
Defined.

Lemma route_answers_are_acked_witness :
  JSON_parse (content scenario_message) = Some scenario_content
  /\ JsValue_is_null scenario_content = false
  /\ resolutions
       (events (processMessage default_config (serve (fun _ _ => None) 0) scenario_context
                  scenario_message (start 0)))
     = [Ack 1].
Proof.
  assert (Hparse : JSON_parse (content scenario_message) = Some scenario_content)
    by (vm_compute; reflexivity).
  split; [exact Hparse | split; [reflexivity|]].
  apply (route_answers_are_acked default_config (fun _ _ => None) 0 scenario_context
           scenario_message (start 0) scenario_content Hparse eq_refl).
  intros b m Hb. discriminate Hb.
Defined.

Lemma stringified_value_parses_back_witness :
  plain (JArray [JNull; JBool true; JNumber (-12); JString "a\b"; JObject [("k", JArray [])]])
  = true
  /\ JSON_parse
       (JSON_stringify
          (JArray [JNull; JBool true; JNumber (-12); JString "a\b"; JObject [("k", JArray [])]]))
     = Some (JArray [JNull; JBool true; JNumber (-12); JString "a\b"; JObject [("k", JArray [])]]).
Proof.
  split; [vm_compute; reflexivity|].
  exact (stringified_value_parses_back
           (JArray [JNull; JBool true; JNumber (-12); JString "a\b"; JObject [("k", JArray [])]])
           ltac:(vm_compute; reflexivity)).
Defined.

End Composition.
